(** * Trip_Sync: map provider adapters, planner, navigation and trip controller

    A shallow embedding of the map provider adapters, the application
    store, the planner wizard, the navigation screen and the trip controller
    of Trip_Sync, followed by the properties of the specification (numbered
    C1 to C10) that hold of them, and by the inputs at which the others fail.

    Conventions of the embedding.
    - A JavaScript [number] is idealised as a real number (type [R]); the
      trigonometric functions of [Math] are the ones of the real analysis
      library.  Comparisons such as [dist < 40] are decided with [Rlt_dec].
      Where rounding changes what the code does, as in the Haversine
      formula near two antipodal points, the code is modelled a second
      time over binary64 numbers ([OlaMapService.Double]).
    - A JavaScript string is the [string] of the bytes of its UTF-8
      encoding; its [length], a number of UTF-16 code units, is [jsLength];
      [undefined] and absent values are [None].
    - An [async] function that talks to the outside world takes the answer
      of the outside world as an argument (a fetch outcome, a provider
      callback payload) and records the calls it issues in a call log.
    - React state is a record; a handler is a function from state to state
      and the effects that React runs after a render are functions of the
      state before and after the handler. *)

From Stdlib Require Import Reals Lra ZArith Lia List String Bool.
From Stdlib Require Floats.
From stdpp Require Import gmap strings.
Import ListNotations.

Local Open Scope string_scope.

Set Warnings "-register-all".

(** ** JSON values, as the HTTP layer hands them to the adapters *)

Inductive json : Type :=
| JNull
| JBool (b : bool)
| JNum (n : R)
| JStr (s : string)
| JArr (items : list json)
| JObj (fields : list (string * json)).

(** [v.k] on a parsed JSON value: [None] stands for [undefined]. *)
Fixpoint assoc (k : string) (fields : list (string * json)) : option json :=
  match fields with
  | [] => None
  | (k', v) :: rest => if String.eqb k k' then Some v else assoc k rest
  end.

Definition get (k : string) (v : json) : option json :=
  match v with
  | JObj fields => assoc k fields
  | _ => None
  end.

(** JavaScript truthiness of a possibly undefined JSON value. *)
Definition truthy (v : option json) : bool :=
  match v with
  | None => false
  | Some JNull => false
  | Some (JBool b) => b
  | Some (JNum n) => if Req_dec_T n 0 then false else true
  | Some (JStr s) => negb (String.eqb s "")
  | Some (JArr _) => true
  | Some (JObj _) => true
  end.

(** [a || b] on possibly undefined values. *)
Definition js_or (a b : option json) : option json :=
  if truthy a then a else b.

(** The UTF-16 code units a byte of a UTF-8 text accounts for: one for the
    only byte of a character below U+0080, none for a continuation byte, one
    for the first byte of a character of two or three bytes, and two, a
    surrogate pair, for the first byte of a character of four bytes. *)
Definition utf16Units (b : Ascii.ascii) : nat :=
  let n := Ascii.nat_of_ascii b in
  if (n <? 128)%nat then 1%nat
  else if (n <? 192)%nat then 0%nat
  else if (n <? 240)%nat then 1%nat
  else 2%nat.

(** [s.length] *)
Fixpoint jsLength (s : string) : nat :=
  match s with
  | EmptyString => 0%nat
  | String b rest => (utf16Units b + jsLength rest)%nat
  end.

(** ** The outside world: calls issued and their outcomes *)

(** What [await fetch(url)] followed by [await response.json()] can do:
    deliver parsed data, fail while reading the body, or fail to connect.
    The last two both land in the [catch] block of the caller. *)
Inductive FetchOutcome : Type :=
| Json (data : json)
| BodyError
| NetworkError.

Definition failed (o : FetchOutcome) : bool :=
  match o with
  | Json _ => false
  | BodyError | NetworkError => true
  end.

(** A point, as [{ lat, lng }] or as a provider [LatLng] object. *)
Record LatLng : Type := { lat : R; lng : R }.

(** An origin, destination or waypoint location: free text or a point. *)
Inductive Location : Type :=
| LocText (text : string)
| LocPoint (p : LatLng).

Record Waypoint : Type := { location : Location; stopover : bool }.

(** A call that leaves the process. *)
Inductive Call : Type :=
| Fetch (url : string)
| AutocompleteRequest (input : string)
| DirectionsRequest (origin destination : Location) (waypoints : list Waypoint)
| GeocodeRequest (p : LatLng)
| PlaceDetailsRequest (placeId : string).

Definition isDirectionsRequest (c : Call) : bool :=
  match c with
  | DirectionsRequest _ _ _ => true
  | _ => false
  end.

(** A computation that appends to the call log. *)
Definition IO (A : Type) : Type := list Call -> A * list Call.

Definition ret {A} (a : A) : IO A := fun log => (a, log).

Definition bind {A B} (m : IO A) (k : A -> IO B) : IO B :=
  fun log => let '(a, log') := m log in k a log'.

Definition emit (c : Call) : IO unit := fun log => (tt, (log ++ [c])%list).

Declare Scope io_scope.
Delimit Scope io_scope with io.
Notation "'do' x <- m ; k" := (bind m (fun x => k))
  (at level 10, x name, m at level 100, k at level 200) : io_scope.
Notation "'exec' m ; k" := (bind m (fun _ => k))
  (at level 10, m at level 100, k at level 200) : io_scope.

(** Run a computation from an empty log. *)
Definition run {A} (m : IO A) : A * list Call := m [].

(** ** The Ola Maps service (first module of [src/unnamed/part_000]) *)

Module OlaMapService.

Section Service.

(** [import.meta.env.VITE_OLA_MAPS_API_KEY || '...'] and the URI encoder
    of the host. *)
Variable API_KEY : string.
Variable encodeURIComponent : string -> string.

(** The network, as a function from the request URL to what comes back. *)
Variable network : string -> FetchOutcome.

Definition fetch (url : string) : IO FetchOutcome :=
  (exec emit (Fetch url); ret (network url))%io.

Record StructuredFormatting := {
  main_text : option json;
  secondary_text : option json
}.

Record Prediction := {
  description : option json;
  place_id : option json;
  structured_formatting : StructuredFormatting
}.

(** The arrow function mapped over [data.predictions]; reading a property
    of [null] throws, which is [None] here. *)
Definition toPrediction (p : json) : option Prediction :=
  match p with
  | JNull => None
  | _ =>
      let sf := get "structured_formatting" p in
      let sub k := match sf with
                   | Some JNull | None => None
                   | Some o => get k o
                   end in
      Some {| description := get "description" p;
              place_id := get "place_id" p;
              structured_formatting :=
                {| main_text :=
                     js_or (sub "main_text") (get "description" p);
                   secondary_text :=
                     js_or (sub "secondary_text") (Some (JStr "")) |} |}
  end.

(** [xs.map(f)] where [f] may throw. *)
Fixpoint mapThrow {A B} (f : A -> option B) (xs : list A) : option (list B) :=
  match xs with
  | [] => Some []
  | x :: rest =>
      match f x with
      | None => None
      | Some y => match mapThrow f rest with
                  | None => None
                  | Some ys => Some (y :: ys)
                  end
      end
  end.

Definition autocompleteUrl (input : string) : string :=
  "https://api.olamaps.io/places/v1/autocomplete?input="
    ++ encodeURIComponent input ++ "&api_key=" ++ API_KEY.

Definition getPlacePredictions (input : string) : IO (list Prediction) :=
  if String.eqb input "" || (jsLength input <? 3)%nat then ret []
  else
    (do r <- fetch (autocompleteUrl input);
     match r with
     | Json data =>
         if truthy (get "predictions" data) then
           match get "predictions" data with
           | Some (JArr ps) =>
               match mapThrow toPrediction ps with
               | Some out => ret out
               | None => ret []
               end
           | _ => ret []
           end
         else ret []
     | BodyError | NetworkError => ret []
     end)%io.

Definition distanceMatrixUrl (origins destinations : list string) : string :=
  "https://api.olamaps.io/routing/v1/distanceMatrix?origins="
    ++ String.concat "|" origins ++ "&destinations="
    ++ String.concat "|" destinations ++ "&api_key=" ++ API_KEY.

(** One cell of the matrix built in the [catch] block. *)
Definition fallbackElement : json :=
  JObj [("status", JStr "OK");
        ("distance", JObj [("value", JNum 1000); ("text", JStr "1 km")]);
        ("duration", JObj [("value", JNum 600); ("text", JStr "10 mins")])].

Definition fallbackMatrix (origins destinations : list string) : json :=
  JObj [("rows",
         JArr (map (fun _ =>
                      JObj [("elements",
                             JArr (map (fun _ => fallbackElement) destinations))])
                   origins))].

Definition getDistanceMatrix (origins destinations : list string) : IO json :=
  (do r <- fetch (distanceMatrixUrl origins destinations);
   match r with
   | Json data => ret data
   | BodyError | NetworkError => ret (fallbackMatrix origins destinations)
   end)%io.

End Service.

(** [Math.atan2(y, x)] on real arguments. *)
Definition atan2 (y x : R) : R :=
  if Rlt_dec 0 x then atan (y / x)
  else if Rlt_dec x 0 then
         if Rle_dec 0 y then (atan (y / x) + PI)%R else (atan (y / x) - PI)%R
       else if Rlt_dec 0 y then (PI / 2)%R
            else if Rlt_dec y 0 then (- (PI / 2))%R
                 else 0%R.

(** The value the Haversine formula binds to [a]. *)
Definition haversine_a (lat1 lng1 lat2 lng2 : R) : R :=
  (sin ((lat2 - lat1) * PI / 180 / 2) * sin ((lat2 - lat1) * PI / 180 / 2) +
   cos (lat1 * PI / 180) * cos (lat2 * PI / 180) *
   sin ((lng2 - lng1) * PI / 180 / 2) * sin ((lng2 - lng1) * PI / 180 / 2))%R.

(** The Haversine formula; [Rm] is the constant the source calls [R]. *)
Definition calculateDistance (lat1 lng1 lat2 lng2 : R) : R :=
  let Rm := 6371000%R in
  let φ1 := (lat1 * PI / 180)%R in
  let φ2 := (lat2 * PI / 180)%R in
  let Δφ := ((lat2 - lat1) * PI / 180)%R in
  let Δλ := ((lng2 - lng1) * PI / 180)%R in
  let a := (sin (Δφ / 2) * sin (Δφ / 2) +
            cos φ1 * cos φ2 *
            sin (Δλ / 2) * sin (Δλ / 2))%R in
  let c := (2 * atan2 (sqrt a) (sqrt (1 - a)))%R in
  (Rm * c)%R.

(** The formula above reads the numbers of the code as real numbers.  The
    code computes with binary64 numbers; near two antipodal points they
    round [a] above 1, where the formula takes the square root of a negative
    number. *)

(** *** The Haversine formula over binary64 numbers *)

Module Double.

Import PrimFloat.

(** The functions of [Math] the formula calls besides the square root.
    What they return is up to the host: ECMAScript asks for approximations
    and fixes a few exact values only. *)
Record HostMath : Type := {
  Math_sin : float -> float;
  Math_cos : float -> float;
  Math_atan2 : float -> float -> float
}.

(** [Math.PI] *)
Definition PI : float := 0x1.921fb54442d18p+1%float.

Section Formula.

Variable M : HostMath.

(** The value bound to [a]. *)
Definition haversine_a (lat1 lng1 lat2 lng2 : float) : float :=
  let φ1 := (lat1 * PI / 180)%float in
  let φ2 := (lat2 * PI / 180)%float in
  let Δφ := ((lat2 - lat1) * PI / 180)%float in
  let Δλ := ((lng2 - lng1) * PI / 180)%float in
  (Math_sin M (Δφ / 2) * Math_sin M (Δφ / 2) +
   Math_cos M φ1 * Math_cos M φ2 *
   Math_sin M (Δλ / 2) * Math_sin M (Δλ / 2))%float.

(** [Math.sqrt] is the square root of IEEE 754, [sqrt]. *)
Definition calculateDistance (lat1 lng1 lat2 lng2 : float) : float :=
  let Rm := 6371000%float in
  let a := haversine_a lat1 lng1 lat2 lng2 in
  let c := (2 * Math_atan2 M (sqrt a) (sqrt (1 - a)))%float in
  (Rm * c)%float.

End Formula.

(** Two numbers that differ at most in their sign. *)
Definition sameSize (x y : float) : Prop := x = y \/ x = (- y)%float.

(** A host that computes by short Taylor polynomials; its sine is odd. *)
Definition taylorMath : HostMath :=
  {| Math_sin := fun x =>
       let q := (x * x)%float in
       (x * (1 - q / 6 * (1 - q / 20 * (1 - q / 42))))%float;
     Math_cos := fun x =>
       let q := (x * x)%float in
       (1 - q / 2 * (1 - q / 12 * (1 - q / 30 * (1 - q / 56))))%float;
     Math_atan2 := fun y x =>
       let t := (y / x)%float in
       let q := (t * t)%float in
       (t * (1 - q / 3 * (1 - q * 3 / 5)))%float |}.

(** A host that returns the binary64 numbers nearest to the sine of
    0.20943951023931953 (12 degrees) and of 1.5707963267948966, and to the
    cosine of 0.20943951023931953, as V8 and glibc do; elsewhere it is
    [taylorMath], but for [Math.atan2], which is NaN when an argument
    is. *)
Definition recordedMath : HostMath :=
  {| Math_sin := fun x =>
       let v := if (abs x =? 0x1.acee9f37bebd5p-3)%float
                then 0x1.a9cd9ac4258f5p-3%float
                else if (abs x =? 0x1.921fb54442d18p+0)%float then 1%float
                     else Math_sin taylorMath (abs x) in
       if (x <? 0)%float then (- v)%float else v;
     Math_cos := fun x =>
       if (abs x =? 0x1.acee9f37bebd5p-3)%float
       then 0x1.f4cfc327a008p-1%float
       else Math_cos taylorMath x;
     Math_atan2 := fun y x =>
       if is_nan y || is_nan x then nan else Math_atan2 taylorMath y x |}.

End Double.
End OlaMapService.

(** ** The Google Maps service (second module of [src/unnamed/part_000]),
    the [mapService] that the planner and navigation screens import *)

Module MapService.

Inductive PlacesServiceStatus : Type :=
| OK | ZERO_RESULTS | OVER_QUERY_LIMIT | REQUEST_DENIED
| INVALID_REQUEST | UNKNOWN_ERROR | NOT_FOUND.

Definition isOK (s : PlacesServiceStatus) : bool :=
  match s with OK => true | _ => false end.

Record StructuredFormatting : Type := {
  main_text : string;
  secondary_text : string
}.

Record AutocompletePrediction : Type := {
  description : string;
  place_id : string;
  structured_formatting : StructuredFormatting
}.

Record DirectionsStep : Type := {
  end_location : LatLng;
  instructions : string
}.

Record DirectionsLeg : Type := {
  steps : list DirectionsStep;
  distance_text : option string;
  duration_text : option string
}.

Record DirectionsRoute : Type := { legs : list DirectionsLeg }.

Record DirectionsResult : Type := { routes : list DirectionsRoute }.

Record GeocoderResult : Type := { formatted_address : string }.

Record PlaceDetails : Type := {
  details_name : string;
  details_location : option LatLng
}.

(** The [google] global once the script is loaded: the provider entry points
    the adapter calls, each as a function from the request to what the
    provider passes to the callback. *)
Record GoogleMaps : Type := {
  computeDistanceBetween : LatLng -> LatLng -> R;
  autocompleteService :
    string -> option (list AutocompletePrediction) * PlacesServiceStatus;
  directionsService :
    Location -> Location -> list Waypoint -> option DirectionsResult * bool;
  geocoder : LatLng -> option (list GeocoderResult) * bool;
  placesDetails : string -> option PlaceDetails * PlacesServiceStatus
}.

Section Service.

(** [None] when [typeof google === 'undefined']. *)
Variable google : option GoogleMaps.

Definition calculateDistance (lat1 lng1 lat2 lng2 : R) : R :=
  match google with
  | None => 0%R
  | Some g =>
      let p1 := {| lat := lat1; lng := lng1 |} in
      let p2 := {| lat := lat2; lng := lng2 |} in
      computeDistanceBetween g p1 p2
  end.

(** The object built for each prediction. *)
Record PredictionResult : Type := {
  res_id : string;
  res_place_id : string;
  res_name : string;
  res_vicinity : string;
  res_main_text : string;
  res_secondary_text : string
}.

Definition toResult (p : AutocompletePrediction) : PredictionResult :=
  {| res_id := place_id p;
     res_place_id := place_id p;
     res_name := description p;
     res_vicinity := secondary_text (structured_formatting p);
     res_main_text := main_text (structured_formatting p);
     res_secondary_text := secondary_text (structured_formatting p) |}.

Definition getAutocompletePredictions (query : string)
  : IO (list PredictionResult) :=
  match google with
  | None => ret []
  | Some g =>
      (exec emit (AutocompleteRequest query);
       let '(predictions, status) := autocompleteService g query in
       match predictions with
       | Some ps => if isOK status then ret (map toResult ps) else ret []
       | None => ret []
       end)%io
  end.

Definition getPlacePredictions (query : string) : IO (list PredictionResult) :=
  getAutocompletePredictions query.

Definition getPlaceDetails (placeId : string) : IO (option PlaceDetails) :=
  match google with
  | None => ret None
  | Some g =>
      (exec emit (PlaceDetailsRequest placeId);
       let '(place, status) := placesDetails g placeId in
       match place with
       | Some pl => if isOK status then ret (Some pl) else ret None
       | None => ret None
       end)%io
  end.

Definition getDirections (origin destination : Location)
    (waypoints : list Waypoint) : IO (option DirectionsResult) :=
  match google with
  | None => ret None
  | Some g =>
      (exec emit (DirectionsRequest origin destination waypoints);
       let '(result, ok) := directionsService g origin destination waypoints in
       match result with
       | Some r => if ok then ret (Some r) else ret None
       | None => ret None
       end)%io
  end.

Definition reverseGeocode (lat0 lng0 : R) : IO string :=
  match google with
  | None => ret "Unknown Location"
  | Some g =>
      let latlng := {| lat := lat0; lng := lng0 |} in
      (exec emit (GeocodeRequest latlng);
       let '(results, ok) := geocoder g latlng in
       match results with
       | Some (r :: _) =>
           if ok then ret (formatted_address r) else ret "Unknown Location"
       | _ => ret "Unknown Location"
       end)%io
  end.

End Service.

End MapService.

(** ** The great-circle distance, as the specification words it *)

Module Sphere.

(** The angle two points subtend at the centre of a sphere, by the
    spherical law of cosines; latitudes and longitudes are in degrees. *)
Definition centralAngle (p q : LatLng) : R :=
  acos (sin (lat p * PI / 180) * sin (lat q * PI / 180)
        + cos (lat p * PI / 180) * cos (lat q * PI / 180)
          * cos ((lng q - lng p) * PI / 180))%R.

Definition greatCircleDistance (radius : R) (p q : LatLng) : R :=
  (radius * centralAngle p q)%R.

(** A provider whose spherical-geometry helper returns the great-circle
    distance on a sphere of the given radius. *)
Definition measuresSphere (radius : R) (g : MapService.GoogleMaps) : Prop :=
  forall p q : LatLng,
    MapService.computeDistanceBetween g p q = greatCircleDistance radius p q.

(** Two points short of antipodal: the [a] of the Haversine formula stays
    a billionth below 1, a margin that rounding to binary64, which moves
    [a] by less than a hundred-million-millionth, cannot use up; for such
    points the code takes no square root of a negative number. *)
Definition shortOfAntipodal (lat1 lng1 lat2 lng2 : R) : Prop :=
  (OlaMapService.haversine_a lat1 lng1 lat2 lng2 <= 1 - / 1000000000)%R.

End Sphere.

(** ** The application state store ([AppContext.tsx]) *)

Module AppContext.

Inductive Screen : Type :=
| Splash | Login | ProfileSetup1 | ProfileSetup2 | Home | Main.

Inductive MainTab : Type :=
| TabHome | TabPlanner | TabDestinations | TabSakha | TabProfile.

(** What an [api] call resolves to; [ApiError] is a rejected promise. *)
Inductive ApiResult (A : Type) : Type :=
| ApiOk (data : A)
| ApiError.
Arguments ApiOk {A} data.
Arguments ApiError {A}.

(** Modelled from the spec: the [SavedRoute] type of the missing [types]
    module, with the fields the store and the planner read or omit. *)
Record SavedRoute : Type := {
  id : string;
  origin : string;
  destination : string;
  stay : string;
  travelTime : string
}.

(** [Omit<SavedRoute, 'id' | 'travelTime'>] *)
Record RouteData : Type := {
  data_origin : string;
  data_destination : string;
  data_stay : string
}.

(** The REST backend as the store sees it. *)
Record Backend : Type := {
  postSavedRoute : RouteData -> ApiResult SavedRoute;
  deleteSavedRoute : string -> ApiResult unit
}.

Definition addRoute (api : Backend) (routeData : RouteData)
    (savedRoutes : list SavedRoute) : list SavedRoute :=
  match postSavedRoute api routeData with
  | ApiOk data => data :: savedRoutes
  | ApiError => savedRoutes
  end.

Definition removeRoute (api : Backend) (id0 : string)
    (savedRoutes : list SavedRoute) : list SavedRoute :=
  match deleteSavedRoute api id0 with
  | ApiOk _ => List.filter (fun r => negb (String.eqb (id r) id0)) savedRoutes
  | ApiError => savedRoutes
  end.

Definition reverseRoute (id0 : string) (savedRoutes : list SavedRoute)
    : list SavedRoute :=
  map (fun r =>
         if String.eqb (id r) id0
         then {| id := id r; origin := destination r; destination := origin r;
                 stay := stay r; travelTime := travelTime r |}
         else r)
      savedRoutes.

(** *** Vehicles of the user profile *)

Record Vehicle : Type := { vehicle_id : string; regNumber : string }.

(** Modelled from the spec: the [UserProfile] type of the missing [types]
    module: identity, phone, name and the two vehicle collections. *)
Record UserProfile : Type := {
  user_id : string;
  name : string;
  phone : string;
  twoWheelers : list Vehicle;
  fourWheelers : list Vehicle
}.

(** The key ['twoWheelers' | 'fourWheelers']. *)
Inductive VehicleType : Type := TwoWheelers | FourWheelers.

(** [currentUser[type]] *)
Definition vehiclesOf (type : VehicleType) (u : UserProfile) : list Vehicle :=
  match type with
  | TwoWheelers => twoWheelers u
  | FourWheelers => fourWheelers u
  end.

(** [{ ...currentUser, [type]: vs }] *)
Definition withVehicles (type : VehicleType) (vs : list Vehicle)
    (u : UserProfile) : UserProfile :=
  match type with
  | TwoWheelers =>
      {| user_id := user_id u; name := name u; phone := phone u;
         twoWheelers := vs; fourWheelers := fourWheelers u |}
  | FourWheelers =>
      {| user_id := user_id u; name := name u; phone := phone u;
         twoWheelers := twoWheelers u; fourWheelers := vs |}
  end.

(** [now] is [String(Date.now())] at the time of the call. *)
Definition addVehicle (now : string) (type : VehicleType) (reg : string)
    (user : option UserProfile) : option UserProfile :=
  match user with
  | None => user
  | Some currentUser =>
      if String.eqb reg "" then user
      else
        let newVehicle := {| vehicle_id := now; regNumber := reg |} in
        Some (withVehicles type (vehiclesOf type currentUser ++ [newVehicle])%list
                currentUser)
  end.

Definition removeVehicle (type : VehicleType) (id0 : string)
    (user : option UserProfile) : option UserProfile :=
  match user with
  | None => None
  | Some currentUser =>
      Some (withVehicles type
              (List.filter (fun v => negb (String.eqb (vehicle_id v) id0))
                 (vehiclesOf type currentUser))
              currentUser)
  end.

Definition updateVehicle (type : VehicleType) (vehicle : Vehicle)
    (user : option UserProfile) : option UserProfile :=
  match user with
  | None => None
  | Some currentUser =>
      let updatedVehicles :=
        map (fun v =>
               if String.eqb (vehicle_id v) (vehicle_id vehicle)
               then {| vehicle_id := vehicle_id v; regNumber := regNumber vehicle |}
               else v)
            (vehiclesOf type currentUser) in
      Some (withVehicles type updatedVehicles currentUser)
  end.

(** The collection that is not [type]. *)
Definition otherType (type : VehicleType) : VehicleType :=
  match type with
  | TwoWheelers => FourWheelers
  | FourWheelers => TwoWheelers
  end.

(** Every field but the collection [type] is the same in both profiles. *)
Definition sameOutside (type : VehicleType) (before after : option UserProfile)
    : Prop :=
  match before, after with
  | Some u, Some u' =>
      user_id u' = user_id u /\ name u' = name u /\ phone u' = phone u
      /\ vehiclesOf (otherType type) u' = vehiclesOf (otherType type) u
  | None, None => True
  | _, _ => False
  end.

(** The ids of the vehicles of a collection, in order. *)
Definition vehicleIds (type : VehicleType) (u : UserProfile) : list string :=
  map vehicle_id (vehiclesOf type u).

(** No two vehicles of a collection share an id, in either collection. *)
Definition uniqueVehicleIds (user : option UserProfile) : Prop :=
  match user with
  | Some u =>
      List.NoDup (vehicleIds TwoWheelers u)
      /\ List.NoDup (vehicleIds FourWheelers u)
  | None => True
  end.

End AppContext.

(** ** The planner wizard ([PlannerScreen.tsx], first module) *)

Module PlannerScreen.

Import AppContext.

Record Stay : Type := {
  stay_id : string;
  stay_name : string;
  distance : string;
  rating : R;
  image : string
}.

Inductive PlannerInput : Type := DestinationInput | StayInput.

(** The [useState] cells of the component. *)
Record State : Type := {
  step : nat;
  destination : string;
  hasStayPlanned : bool;
  stayLocation : string;
  stays : list Stay;
  isLoadingStays : bool;
  staysError : option string;
  selectedStayId : option string;
  nearbyAttractions : list Stay;
  isLoadingAttractions : bool;
  attractionsError : option string;
  locationError : option string;
  isFetchingLocation : bool;
  activePlannerInput : option PlannerInput
}.

(** The arguments of the [useState] calls. *)
Definition initial : State :=
  {| step := 1;
     destination := "";
     hasStayPlanned := false;
     stayLocation := "";
     stays := [];
     isLoadingStays := false;
     staysError := None;
     selectedStayId := None;
     nearbyAttractions := [];
     isLoadingAttractions := false;
     attractionsError := None;
     locationError := None;
     isFetchingLocation := false;
     activePlannerInput := None |}.

(** The planner together with the slices of the store it writes. *)
Record App : Type := {
  planner : State;
  screen : Screen;
  savedRoutes : list SavedRoute
}.

(** The state setters the handlers below call. *)
Definition setStep (v : nat) (s : State) : State :=
  {| step := v; destination := destination s;
     hasStayPlanned := hasStayPlanned s; stayLocation := stayLocation s;
     stays := stays s; isLoadingStays := isLoadingStays s;
     staysError := staysError s; selectedStayId := selectedStayId s;
     nearbyAttractions := nearbyAttractions s;
     isLoadingAttractions := isLoadingAttractions s;
     attractionsError := attractionsError s; locationError := locationError s;
     isFetchingLocation := isFetchingLocation s;
     activePlannerInput := activePlannerInput s |}.

Definition setDestination (v : string) (s : State) : State :=
  {| step := step s; destination := v;
     hasStayPlanned := hasStayPlanned s; stayLocation := stayLocation s;
     stays := stays s; isLoadingStays := isLoadingStays s;
     staysError := staysError s; selectedStayId := selectedStayId s;
     nearbyAttractions := nearbyAttractions s;
     isLoadingAttractions := isLoadingAttractions s;
     attractionsError := attractionsError s; locationError := locationError s;
     isFetchingLocation := isFetchingLocation s;
     activePlannerInput := activePlannerInput s |}.

Definition setHasStayPlanned (v : bool) (s : State) : State :=
  {| step := step s; destination := destination s;
     hasStayPlanned := v; stayLocation := stayLocation s;
     stays := stays s; isLoadingStays := isLoadingStays s;
     staysError := staysError s; selectedStayId := selectedStayId s;
     nearbyAttractions := nearbyAttractions s;
     isLoadingAttractions := isLoadingAttractions s;
     attractionsError := attractionsError s; locationError := locationError s;
     isFetchingLocation := isFetchingLocation s;
     activePlannerInput := activePlannerInput s |}.

Definition setStayLocation (v : string) (s : State) : State :=
  {| step := step s; destination := destination s;
     hasStayPlanned := hasStayPlanned s; stayLocation := v;
     stays := stays s; isLoadingStays := isLoadingStays s;
     staysError := staysError s; selectedStayId := selectedStayId s;
     nearbyAttractions := nearbyAttractions s;
     isLoadingAttractions := isLoadingAttractions s;
     attractionsError := attractionsError s; locationError := locationError s;
     isFetchingLocation := isFetchingLocation s;
     activePlannerInput := activePlannerInput s |}.

Definition setStays (v : list Stay) (s : State) : State :=
  {| step := step s; destination := destination s;
     hasStayPlanned := hasStayPlanned s; stayLocation := stayLocation s;
     stays := v; isLoadingStays := isLoadingStays s;
     staysError := staysError s; selectedStayId := selectedStayId s;
     nearbyAttractions := nearbyAttractions s;
     isLoadingAttractions := isLoadingAttractions s;
     attractionsError := attractionsError s; locationError := locationError s;
     isFetchingLocation := isFetchingLocation s;
     activePlannerInput := activePlannerInput s |}.

Definition setIsLoadingStays (v : bool) (s : State) : State :=
  {| step := step s; destination := destination s;
     hasStayPlanned := hasStayPlanned s; stayLocation := stayLocation s;
     stays := stays s; isLoadingStays := v;
     staysError := staysError s; selectedStayId := selectedStayId s;
     nearbyAttractions := nearbyAttractions s;
     isLoadingAttractions := isLoadingAttractions s;
     attractionsError := attractionsError s; locationError := locationError s;
     isFetchingLocation := isFetchingLocation s;
     activePlannerInput := activePlannerInput s |}.

Definition setStaysError (v : option string) (s : State) : State :=
  {| step := step s; destination := destination s;
     hasStayPlanned := hasStayPlanned s; stayLocation := stayLocation s;
     stays := stays s; isLoadingStays := isLoadingStays s;
     staysError := v; selectedStayId := selectedStayId s;
     nearbyAttractions := nearbyAttractions s;
     isLoadingAttractions := isLoadingAttractions s;
     attractionsError := attractionsError s; locationError := locationError s;
     isFetchingLocation := isFetchingLocation s;
     activePlannerInput := activePlannerInput s |}.

Definition setSelectedStayId (v : option string) (s : State) : State :=
  {| step := step s; destination := destination s;
     hasStayPlanned := hasStayPlanned s; stayLocation := stayLocation s;
     stays := stays s; isLoadingStays := isLoadingStays s;
     staysError := staysError s; selectedStayId := v;
     nearbyAttractions := nearbyAttractions s;
     isLoadingAttractions := isLoadingAttractions s;
     attractionsError := attractionsError s; locationError := locationError s;
     isFetchingLocation := isFetchingLocation s;
     activePlannerInput := activePlannerInput s |}.

Definition setNearbyAttractions (v : list Stay) (s : State) : State :=
  {| step := step s; destination := destination s;
     hasStayPlanned := hasStayPlanned s; stayLocation := stayLocation s;
     stays := stays s; isLoadingStays := isLoadingStays s;
     staysError := staysError s; selectedStayId := selectedStayId s;
     nearbyAttractions := v;
     isLoadingAttractions := isLoadingAttractions s;
     attractionsError := attractionsError s; locationError := locationError s;
     isFetchingLocation := isFetchingLocation s;
     activePlannerInput := activePlannerInput s |}.

Definition setIsLoadingAttractions (v : bool) (s : State) : State :=
  {| step := step s; destination := destination s;
     hasStayPlanned := hasStayPlanned s; stayLocation := stayLocation s;
     stays := stays s; isLoadingStays := isLoadingStays s;
     staysError := staysError s; selectedStayId := selectedStayId s;
     nearbyAttractions := nearbyAttractions s;
     isLoadingAttractions := v;
     attractionsError := attractionsError s; locationError := locationError s;
     isFetchingLocation := isFetchingLocation s;
     activePlannerInput := activePlannerInput s |}.

Definition setAttractionsError (v : option string) (s : State) : State :=
  {| step := step s; destination := destination s;
     hasStayPlanned := hasStayPlanned s; stayLocation := stayLocation s;
     stays := stays s; isLoadingStays := isLoadingStays s;
     staysError := staysError s; selectedStayId := selectedStayId s;
     nearbyAttractions := nearbyAttractions s;
     isLoadingAttractions := isLoadingAttractions s;
     attractionsError := v; locationError := locationError s;
     isFetchingLocation := isFetchingLocation s;
     activePlannerInput := activePlannerInput s |}.

Definition completeAndGoHome (app : App) : App :=
  let s := planner app in
  let s := setDestination "Current Location" s in
  let s := setHasStayPlanned false s in
  let s := setStayLocation "" s in
  let s := setSelectedStayId None s in
  let s := setStep 1 s in
  {| planner := s; screen := Home; savedRoutes := savedRoutes app |}.

(** Whether a dependency of the stays effect, [[step, hasStayPlanned,
    destination]], differs between two renders. *)
Definition staysDepsChanged (prev s : State) : bool :=
  negb (Nat.eqb (step prev) (step s)
        && Bool.eqb (hasStayPlanned prev) (hasStayPlanned s)
        && String.eqb (destination prev) (destination s)).

(** The stays effect.  [formattedStays] is what the provider search yields
    after the mapping to [Stay] entries (empty when the search fails or finds
    nothing). *)
Definition staysEffect (formattedStays : list Stay) (prev s : State) : State :=
  if negb (staysDepsChanged prev s) then s
  else if Nat.eqb (step s) 2 && negb (hasStayPlanned s)
          && negb (String.eqb (destination s) "")
  then
    if negb (String.eqb (destination s) "Current Location") then
      let s := setIsLoadingStays true s in
      let s := setStaysError None s in
      let s := setStays [] s in
      let s := setSelectedStayId None s in
      let s :=
        match formattedStays with
        | _ :: _ => setStays (firstn 15 formattedStays) s
        | [] =>
            setStaysError
              (Some "Could not find any stays. Please try a different destination.")
              s
        end in
      setIsLoadingStays false s
    else s
  else if (step s <? 2)%nat then setStaysError None (setStays [] s)
  else s.

(** The attractions effect, with dependencies [[step, destination]]. *)
Definition attractionsEffect (formattedAttractions : list Stay) (prev s : State)
    : State :=
  if Nat.eqb (step prev) (step s) && String.eqb (destination prev) (destination s)
  then s
  else if Nat.eqb (step s) 3 && negb (String.eqb (destination s) "")
  then
    if negb (String.eqb (destination s) "Current Location") then
      let s := setIsLoadingAttractions true s in
      let s := setAttractionsError None s in
      let s := setNearbyAttractions [] s in
      let s :=
        match formattedAttractions with
        | _ :: _ => setNearbyAttractions (firstn 15 formattedAttractions) s
        | [] =>
            setAttractionsError
              (Some "Could not find attractions for this destination.") s
        end in
      setIsLoadingAttractions false s
    else s
  else s.

(** The "Completed" button of state 3: the handler, then the two effects of
    the render that follows.  [found] is what the provider would answer to a
    search issued by an effect. *)
Definition clickCompleted (found : list Stay) (app : App) : App :=
  let app' := completeAndGoHome app in
  let s := staysEffect found (planner app) (planner app') in
  let s := attractionsEffect found (planner app) s in
  {| planner := s; screen := screen app'; savedRoutes := savedRoutes app' |}.

(** [useMemo(() => hasStayPlanned ? stayLocation
                 : stays.find(s => s.id === selectedStayId)?.name)] *)
Definition stayName (s : State) : option string :=
  if hasStayPlanned s then Some (stayLocation s)
  else
    match selectedStayId s with
    | None => None
    | Some sid =>
        match List.find (fun st => String.eqb (stay_id st) sid) (stays s) with
        | Some st => Some (stay_name st)
        | None => None
        end
    end.


(** The test [r.origin === stayName && r.destination === dest.name]. *)
Definition matches (name0 : string) (dest : Stay) (r : SavedRoute) : bool :=
  String.eqb (AppContext.origin r) name0
  && String.eqb (AppContext.destination r) (stay_name dest).

(** A click on an attraction together with the answer to the request it
    sends, for a click whose request is answered before anything else
    happens.  The two pieces, the handler proper and the continuation of
    [addRoute] or [removeRoute] after its [await], are [toggleRequest] and
    [settle] below; [act] lets them interleave. *)
Definition handleToggleDestination (api : Backend) (dest : Stay) (app : App)
    : App :=
  match stayName (planner app) with
  | None => app
  | Some name0 =>
      if String.eqb name0 "" then app
      else
        let routes :=
          match List.find (matches name0 dest) (savedRoutes app) with
          | Some existingRoute =>
              removeRoute api (AppContext.id existingRoute) (savedRoutes app)
          | None =>
              addRoute api
                {| data_origin := name0;
                   data_destination := stay_name dest;
                   data_stay := name0 |}
                (savedRoutes app)
          end in
        {| planner := planner app; screen := screen app; savedRoutes := routes |}
  end.

(** *** Clicks and answers, one at a time *)

(** A request of the store that has been sent and not been answered. *)
Inductive Request : Type :=
| PostRoute (routeData : RouteData)
| DeleteRoute (id0 : string).

(** What [handleToggleDestination] does before it returns: it reads
    [stayName] and [savedRoutes] of the render it was created in and has
    [addRoute] or [removeRoute] send one request. *)
Definition toggleRequest (dest : Stay) (app : App) : option Request :=
  match stayName (planner app) with
  | None => None
  | Some name0 =>
      if String.eqb name0 "" then None
      else
        match List.find (matches name0 dest) (savedRoutes app) with
        | Some existingRoute => Some (DeleteRoute (AppContext.id existingRoute))
        | None =>
            Some (PostRoute {| data_origin := name0;
                               data_destination := stay_name dest;
                               data_stay := name0 |})
        end
  end.

(** What [addRoute] or [removeRoute] does once its request is answered: the
    update [setSavedRoutes(prev => ...)], on the saved routes of that
    moment. *)
Definition settle (api : Backend) (request : Request)
    (routes : list SavedRoute) : list SavedRoute :=
  match request with
  | PostRoute routeData => addRoute api routeData routes
  | DeleteRoute id0 => removeRoute api id0 routes
  end.

(** The planner on screen and the requests in flight, oldest first. *)
Record Live : Type := { rendered : App; pending : list Request }.

(** A click on an attraction, or the answer, by the backend as it is at that
    moment, to the request at position [k] among those in flight. *)
Inductive Action : Type :=
| Click (dest : Stay)
| Answer (api : Backend) (k : nat).

Definition act (l : Live) (a : Action) : Live :=
  match a with
  | Click dest =>
      match toggleRequest dest (rendered l) with
      | Some request =>
          {| rendered := rendered l;
             pending := (pending l ++ [request])%list |}
      | None => l
      end
  | Answer api k =>
      match pending l !! k with
      | Some request =>
          {| rendered :=
               {| planner := planner (rendered l);
                  screen := screen (rendered l);
                  savedRoutes := settle api request (savedRoutes (rendered l)) |};
             pending := delete k (pending l) |}
      | None => l
      end
  end.

Definition acts (l : Live) (actions : list Action) : Live :=
  fold_left act actions l.

(** The planner with nothing in flight. *)
Definition idle (app : App) : Live := {| rendered := app; pending := [] |}.

(** The saved routes as a set keyed by the (origin, destination) pair. *)
Definition routeKey (r : SavedRoute) : string * string :=
  (AppContext.origin r, AppContext.destination r).

Definition routeKeys (routes : list SavedRoute) : gset (string * string) :=
  list_to_set (map routeKey routes).

(** A backend that saves a posted route: it answers with a route that
    carries the posted pair. *)
Definition saves (api : Backend) : Prop :=
  forall d : RouteData,
    exists r : SavedRoute,
      postSavedRoute api d = ApiOk r
      /\ AppContext.origin r = data_origin d
      /\ AppContext.destination r = data_destination d.

(** The same, under an id that no route of [routes] has. *)
Definition savesFresh (api : Backend) (routes : list SavedRoute) : Prop :=
  forall d : RouteData,
    exists r : SavedRoute,
      postSavedRoute api d = ApiOk r
      /\ AppContext.origin r = data_origin d
      /\ AppContext.destination r = data_destination d
      /\ ~ In (AppContext.id r) (map AppContext.id routes).

(** A backend that carries out every delete. *)
Definition deletes (api : Backend) : Prop :=
  forall i : string, deleteSavedRoute api i = ApiOk tt.

(** *** Leaving state 1, and the autocomplete fetches *)

Definition setLocationError (v : option string) (s : State) : State :=
  {| step := step s; destination := destination s;
     hasStayPlanned := hasStayPlanned s; stayLocation := stayLocation s;
     stays := stays s; isLoadingStays := isLoadingStays s;
     staysError := staysError s; selectedStayId := selectedStayId s;
     nearbyAttractions := nearbyAttractions s;
     isLoadingAttractions := isLoadingAttractions s;
     attractionsError := attractionsError s; locationError := v;
     isFetchingLocation := isFetchingLocation s;
     activePlannerInput := activePlannerInput s |}.

Definition setIsFetchingLocation (v : bool) (s : State) : State :=
  {| step := step s; destination := destination s;
     hasStayPlanned := hasStayPlanned s; stayLocation := stayLocation s;
     stays := stays s; isLoadingStays := isLoadingStays s;
     staysError := staysError s; selectedStayId := selectedStayId s;
     nearbyAttractions := nearbyAttractions s;
     isLoadingAttractions := isLoadingAttractions s;
     attractionsError := attractionsError s; locationError := locationError s;
     isFetchingLocation := v;
     activePlannerInput := activePlannerInput s |}.

(** What asking the device for its position leads to: a position, an error
    of the geolocation API with its code, or no geolocation API at all. *)
Inductive GeoOutcome : Type :=
| Located (position : LatLng)
| GeoError (code : nat)
| Unsupported.

(** The message the [catch] block picks from [error?.code]. *)
Definition locationErrorMessage (code : option nat) : string :=
  match code with
  | Some 1 => "Location access denied. Please enable location permissions."
  | Some 2 => "Location information is unavailable."
  | Some 3 => "Location request timed out."
  | _ => "Could not get your location. Please enter a destination manually."
  end.

Definition handleDestinationNext (google : option MapService.GoogleMaps)
    (geo : GeoOutcome) (s : State) : IO State :=
  let s := setLocationError None s in
  if String.eqb (destination s) "Current Location" then
    let s := setIsFetchingLocation true s in
    (do s <-
       match geo with
       | Located position =>
           do address <-
              MapService.reverseGeocode google (lat position) (lng position);
           if negb (String.eqb address "")
              && negb (String.eqb address "Unknown Location")
           then ret (setStep 2 (setDestination address s))
           else ret (setLocationError (Some (locationErrorMessage None)) s)
       | GeoError code =>
           ret (setLocationError (Some (locationErrorMessage (Some code))) s)
       | Unsupported =>
           ret (setLocationError (Some (locationErrorMessage None)) s)
       end;
     ret (setIsFetchingLocation false s))%io
  else if negb (String.eqb (destination s) "") then ret (setStep 2 s)
  else ret s.

(** The [fetchPredictions] of the destination field, run when its timer
    fires: the value it hands to [setDestinationPredictions]. *)
Definition fetchDestinationPredictions (google : option MapService.GoogleMaps)
    (s : State) : IO (list MapService.PredictionResult) :=
  match activePlannerInput s with
  | Some DestinationInput =>
      if negb (String.eqb (destination s) "")
         && (2 <? jsLength (destination s))%nat
         && negb (String.eqb (destination s) "Current Location")
      then MapService.getPlacePredictions google (destination s)
      else ret []
  | _ => ret []
  end.

(** The [fetchPredictions] of the stay field: the value it hands to
    [setStayPredictions]. *)
Definition fetchStayPredictions (google : option MapService.GoogleMaps)
    (s : State) : IO (list MapService.PredictionResult) :=
  match activePlannerInput s with
  | Some StayInput =>
      if negb (String.eqb (stayLocation s) "")
         && (2 <? jsLength (stayLocation s))%nat
      then
        MapService.getPlacePredictions google
          (stayLocation s
           ++ (if String.eqb (destination s) "" then ""
               else " near " ++ destination s))
      else ret []
  | _ => ret []
  end.

(** A backend that fails every request. *)
Definition rejects (api : Backend) : Prop :=
  (forall d : RouteData, postSavedRoute api d = ApiError)
  /\ (forall i : string, deleteSavedRoute api i = ApiError).

End PlannerScreen.

(** ** The navigation screen ([PlannerScreen.tsx], second module) *)

Module NavigationScreen.

Import MapService.

(** Modelled from the spec: the [TripDetails] type of the missing [types]
    module (from and to strings, vehicle, traveler count, mode). *)
Record TripDetails : Type := {
  from : string;
  to : string;
  vehicleNumber : string;
  travelers : nat;
  mode : string
}.

Inductive MapErrorType : Type := Permission | Network | Generic.

Record MapError : Type := { type : MapErrorType; message : string }.

(** What [mapRef.current] shows. *)
Record Camera : Type := { center : LatLng; zoom : R }.

(** The text [`${Math.round(dist)} m`] or [`${(dist / 1000).toFixed(1)} km`],
    kept as the unit and the number that is formatted. *)
Inductive DistanceText : Type :=
| Metres (dist : R)
| Kilometres (dist : R).

Record TripMetrics : Type := {
  eta : string;
  remainingDist : string;
  duration : string
}.

(** The [useState] cells and the map ref of the component, and the
    [isLoaded] flag of the script loader.  The two cells of the category
    search for stops ([stopSearchResults], [isCalculatingStops]) are only
    written by that search and are left out with it. *)
Record State : Type := {
  isLoaded : bool;
  showAddStopModal : bool;
  mapRef : option Camera;
  userLocation : option LatLng;
  mapError : option MapError;
  directions : option DirectionsResult;
  currentLegIndex : nat;
  currentStepIndex : nat;
  distanceToNextTurn : option DistanceText;
  tripMetrics : TripMetrics;
  isAutoCentering : bool;
  currentTrip : TripDetails;
  waypoints : list Waypoint;
  isStopsListVisible : bool
}.

Definition setIsLoaded (v : bool) (s : State) : State :=
  {| isLoaded := v; showAddStopModal := showAddStopModal s;
     mapRef := mapRef s; userLocation := userLocation s;
     mapError := mapError s; directions := directions s;
     currentLegIndex := currentLegIndex s;
     currentStepIndex := currentStepIndex s;
     distanceToNextTurn := distanceToNextTurn s;
     tripMetrics := tripMetrics s; isAutoCentering := isAutoCentering s;
     currentTrip := currentTrip s; waypoints := waypoints s;
     isStopsListVisible := isStopsListVisible s |}.

Definition setShowAddStopModal (v : bool) (s : State) : State :=
  {| isLoaded := isLoaded s; showAddStopModal := v; mapRef := mapRef s;
     userLocation := userLocation s; mapError := mapError s;
     directions := directions s; currentLegIndex := currentLegIndex s;
     currentStepIndex := currentStepIndex s;
     distanceToNextTurn := distanceToNextTurn s;
     tripMetrics := tripMetrics s; isAutoCentering := isAutoCentering s;
     currentTrip := currentTrip s; waypoints := waypoints s;
     isStopsListVisible := isStopsListVisible s |}.

Definition setMapRef (v : option Camera) (s : State) : State :=
  {| isLoaded := isLoaded s; showAddStopModal := showAddStopModal s;
     mapRef := v; userLocation := userLocation s; mapError := mapError s;
     directions := directions s; currentLegIndex := currentLegIndex s;
     currentStepIndex := currentStepIndex s;
     distanceToNextTurn := distanceToNextTurn s;
     tripMetrics := tripMetrics s; isAutoCentering := isAutoCentering s;
     currentTrip := currentTrip s; waypoints := waypoints s;
     isStopsListVisible := isStopsListVisible s |}.

Definition setUserLocation (v : option LatLng) (s : State) : State :=
  {| isLoaded := isLoaded s; showAddStopModal := showAddStopModal s;
     mapRef := mapRef s; userLocation := v; mapError := mapError s;
     directions := directions s; currentLegIndex := currentLegIndex s;
     currentStepIndex := currentStepIndex s;
     distanceToNextTurn := distanceToNextTurn s;
     tripMetrics := tripMetrics s; isAutoCentering := isAutoCentering s;
     currentTrip := currentTrip s; waypoints := waypoints s;
     isStopsListVisible := isStopsListVisible s |}.

Definition setMapError (v : option MapError) (s : State) : State :=
  {| isLoaded := isLoaded s; showAddStopModal := showAddStopModal s;
     mapRef := mapRef s; userLocation := userLocation s; mapError := v;
     directions := directions s; currentLegIndex := currentLegIndex s;
     currentStepIndex := currentStepIndex s;
     distanceToNextTurn := distanceToNextTurn s;
     tripMetrics := tripMetrics s; isAutoCentering := isAutoCentering s;
     currentTrip := currentTrip s; waypoints := waypoints s;
     isStopsListVisible := isStopsListVisible s |}.

Definition setDirections (v : option DirectionsResult) (s : State) : State :=
  {| isLoaded := isLoaded s; showAddStopModal := showAddStopModal s;
     mapRef := mapRef s; userLocation := userLocation s;
     mapError := mapError s; directions := v;
     currentLegIndex := currentLegIndex s;
     currentStepIndex := currentStepIndex s;
     distanceToNextTurn := distanceToNextTurn s;
     tripMetrics := tripMetrics s; isAutoCentering := isAutoCentering s;
     currentTrip := currentTrip s; waypoints := waypoints s;
     isStopsListVisible := isStopsListVisible s |}.

Definition setCurrentStepIndex (v : nat) (s : State) : State :=
  {| isLoaded := isLoaded s; showAddStopModal := showAddStopModal s;
     mapRef := mapRef s; userLocation := userLocation s;
     mapError := mapError s; directions := directions s;
     currentLegIndex := currentLegIndex s; currentStepIndex := v;
     distanceToNextTurn := distanceToNextTurn s;
     tripMetrics := tripMetrics s; isAutoCentering := isAutoCentering s;
     currentTrip := currentTrip s; waypoints := waypoints s;
     isStopsListVisible := isStopsListVisible s |}.

Definition setDistanceToNextTurn (v : option DistanceText) (s : State) : State :=
  {| isLoaded := isLoaded s; showAddStopModal := showAddStopModal s;
     mapRef := mapRef s; userLocation := userLocation s;
     mapError := mapError s; directions := directions s;
     currentLegIndex := currentLegIndex s;
     currentStepIndex := currentStepIndex s; distanceToNextTurn := v;
     tripMetrics := tripMetrics s; isAutoCentering := isAutoCentering s;
     currentTrip := currentTrip s; waypoints := waypoints s;
     isStopsListVisible := isStopsListVisible s |}.

Definition setTripMetrics (v : TripMetrics) (s : State) : State :=
  {| isLoaded := isLoaded s; showAddStopModal := showAddStopModal s;
     mapRef := mapRef s; userLocation := userLocation s;
     mapError := mapError s; directions := directions s;
     currentLegIndex := currentLegIndex s;
     currentStepIndex := currentStepIndex s;
     distanceToNextTurn := distanceToNextTurn s; tripMetrics := v;
     isAutoCentering := isAutoCentering s; currentTrip := currentTrip s;
     waypoints := waypoints s;
     isStopsListVisible := isStopsListVisible s |}.

Definition setIsAutoCentering (v : bool) (s : State) : State :=
  {| isLoaded := isLoaded s; showAddStopModal := showAddStopModal s;
     mapRef := mapRef s; userLocation := userLocation s;
     mapError := mapError s; directions := directions s;
     currentLegIndex := currentLegIndex s;
     currentStepIndex := currentStepIndex s;
     distanceToNextTurn := distanceToNextTurn s;
     tripMetrics := tripMetrics s; isAutoCentering := v;
     currentTrip := currentTrip s; waypoints := waypoints s;
     isStopsListVisible := isStopsListVisible s |}.

Definition setCurrentTrip (v : TripDetails) (s : State) : State :=
  {| isLoaded := isLoaded s; showAddStopModal := showAddStopModal s;
     mapRef := mapRef s; userLocation := userLocation s;
     mapError := mapError s; directions := directions s;
     currentLegIndex := currentLegIndex s;
     currentStepIndex := currentStepIndex s;
     distanceToNextTurn := distanceToNextTurn s;
     tripMetrics := tripMetrics s; isAutoCentering := isAutoCentering s;
     currentTrip := v; waypoints := waypoints s;
     isStopsListVisible := isStopsListVisible s |}.

Definition setWaypoints (v : list Waypoint) (s : State) : State :=
  {| isLoaded := isLoaded s; showAddStopModal := showAddStopModal s;
     mapRef := mapRef s; userLocation := userLocation s;
     mapError := mapError s; directions := directions s;
     currentLegIndex := currentLegIndex s;
     currentStepIndex := currentStepIndex s;
     distanceToNextTurn := distanceToNextTurn s;
     tripMetrics := tripMetrics s; isAutoCentering := isAutoCentering s;
     currentTrip := currentTrip s; waypoints := v;
     isStopsListVisible := isStopsListVisible s |}.

Definition setIsStopsListVisible (v : bool) (s : State) : State :=
  {| isLoaded := isLoaded s; showAddStopModal := showAddStopModal s;
     mapRef := mapRef s; userLocation := userLocation s;
     mapError := mapError s; directions := directions s;
     currentLegIndex := currentLegIndex s;
     currentStepIndex := currentStepIndex s;
     distanceToNextTurn := distanceToNextTurn s;
     tripMetrics := tripMetrics s; isAutoCentering := isAutoCentering s;
     currentTrip := currentTrip s; waypoints := waypoints s;
     isStopsListVisible := v |}.

Definition setFrom (addr : string) (t : TripDetails) : TripDetails :=
  {| from := addr; to := to t; vehicleNumber := vehicleNumber t;
     travelers := travelers t; mode := mode t |}.

(** The state a mount creates from its props. *)
Definition initial (tripDetails : TripDetails) : State :=
  {| isLoaded := false;
     showAddStopModal := false;
     mapRef := None;
     userLocation := None;
     mapError := None;
     directions := None;
     currentLegIndex := 0;
     currentStepIndex := 0;
     distanceToNextTurn := None;
     tripMetrics := {| eta := "--:--"; remainingDist := "--.- km";
                       duration := "-- min" |};
     isAutoCentering := true;
     currentTrip := tripDetails;
     waypoints := [];
     isStopsListVisible := false |}.

#[local] Instance R_eq_dec : EqDecision R := Req_dec_T.
#[local] Instance LatLng_eq_dec : EqDecision LatLng.
Proof. solve_decision. Defined.
#[local] Instance Location_eq_dec : EqDecision Location.
Proof. solve_decision. Defined.
#[local] Instance Waypoint_eq_dec : EqDecision Waypoint.
Proof. solve_decision. Defined.
#[local] Instance DirectionsStep_eq_dec : EqDecision DirectionsStep.
Proof. solve_decision. Defined.
#[local] Instance DirectionsLeg_eq_dec : EqDecision DirectionsLeg.
Proof. solve_decision. Defined.
#[local] Instance DirectionsRoute_eq_dec : EqDecision DirectionsRoute.
Proof. solve_decision. Defined.
#[local] Instance DirectionsResult_eq_dec : EqDecision DirectionsResult.
Proof. solve_decision. Defined.

Section Screen.

Variable google : option GoogleMaps.

(** The match of [coordinateRegex] followed by the two [parseFloat]s:
    the point a ["lat,lng"] text denotes, if it is one. *)
Variable parseCoordinates : string -> option LatLng.

Definition getRouteLocation (locationString : string) : option Location :=
  if String.eqb locationString "" then None
  else if String.eqb locationString "Current Location"
  then Some (LocText locationString)
  else match parseCoordinates locationString with
       | Some p => Some (LocPoint p)
       | None => Some (LocText locationString)
       end.

Definition panTo (p : LatLng) (cam : Camera) : Camera :=
  {| center := p; zoom := zoom cam |}.

Definition setZoom (z : R) (cam : Camera) : Camera :=
  {| center := center cam; zoom := z |}.

Definition recenterMap (s : State) : State :=
  match mapRef s, userLocation s with
  | Some cam, Some loc =>
      setIsAutoCentering true (setMapRef (Some (setZoom 17 (panTo loc cam))) s)
  | _, _ => s
  end.

Definition appendWaypoint (loc : Location) (s : State) : State :=
  setWaypoints (waypoints s ++ [{| location := loc; stopover := true |}])%list s.

Definition handleSelectStop (loc : Location) (s : State) : State :=
  setIsStopsListVisible false (appendWaypoint loc s).

Definition handlePlaceSelect (placeId : string) (s : State) : IO State :=
  let s := setShowAddStopModal false s in
  (do place <- getPlaceDetails google placeId;
   match place with
   | Some {| details_location := Some loc |} =>
       ret (appendWaypoint (LocPoint loc) s)
   | _ =>
       ret (setMapError
              (Some {| type := Generic;
                       message := "Could not get details for selected stop." |})
              s)
   end)%io.

Definition handleRemoveStop (s : State) : State := setWaypoints [] s.

(** [directions.routes[0].legs[0]], when all three exist. *)
Definition firstLeg (d : option DirectionsResult) : option DirectionsLeg :=
  match d with
  | Some res =>
      match routes res with
      | route :: _ =>
          match legs route with
          | leg :: _ => Some leg
          | [] => None
          end
      | [] => None
      end
  | None => None
  end.

Definition formatDistance (dist : R) : DistanceText :=
  if Rlt_dec dist 1000 then Metres dist else Kilometres (dist / 1000).

(** The test [dist < 40 && currentStepIndex < steps.length - 1]. *)
Definition closeWithNext (dist : R) (index : nat) (stepList : list DirectionsStep)
    : bool :=
  (if Rlt_dec dist 40 then true else false)
  && (Z.of_nat index <? Z.of_nat (length stepList) - 1)%Z.

(** The turn-by-turn block of the position callback.  [seen] is the render
    the callback was created in (it supplies [directions] and
    [currentStepIndex]); [s] is the state the setters act on. *)
Definition simulateProgress (seen : State) (newPos : LatLng) (s : State)
    : State :=
  match firstLeg (directions seen) with
  | Some leg =>
      match steps leg !! currentStepIndex seen with
      | Some step =>
          let dist := calculateDistance google (lat newPos) (lng newPos)
                        (lat (end_location step)) (lng (end_location step)) in
          let s := setDistanceToNextTurn (Some (formatDistance dist)) s in
          if closeWithNext dist (currentStepIndex seen) (steps leg)
          then setCurrentStepIndex (currentStepIndex s + 1) s
          else s
      | None => s
      end
  | None => s
  end.

(** The success callback of [watchPosition]. *)
Definition onPosition (seen : State) (newPos : LatLng) (s : State) : IO State :=
  let s := setUserLocation (Some newPos) s in
  let s := if isAutoCentering seen
           then match mapRef s with
                | Some cam => setMapRef (Some (panTo newPos cam)) s
                | None => s
                end
           else s in
  (do s <- (if String.eqb (from (currentTrip seen)) "Current Location"
            then
              do addr <- reverseGeocode google (lat newPos) (lng newPos);
              if String.eqb addr "" then ret s
              else ret (setCurrentTrip (setFrom addr (currentTrip s)) s)
            else ret s);
   ret (simulateProgress seen newPos s))%io.

(** The error callback of [watchPosition]. *)
Definition onPositionError (code : nat) (s : State) : State :=
  if Nat.eqb code 1
  then setMapError
         (Some {| type := Permission; message := "Location permission denied." |})
         s
  else s.

(** What can happen to the mounted screen. *)
Inductive Event : Type :=
| PositionUpdate (newPos : LatLng)
| PositionFailure (code : nat)
| DragStart
| RecenterClick
| SelectStop (loc : Location)
| PlaceSelect (placeId : string)
| RemoveStopClick
| AddStopClick
| DismissErrorClick
| ScriptLoaded
| MapLoaded (map : Camera)
| MapUnmounted.

(** The handler of each event.  [seen] is the render in which the position
    watcher was last subscribed.  The "Remove Stop" button is only rendered
    while there are waypoints. *)
Definition handle (seen : State) (e : Event) (s : State) : IO State :=
  match e with
  | PositionUpdate newPos => onPosition seen newPos s
  | PositionFailure code => ret (onPositionError code s)
  | DragStart => ret (setIsAutoCentering false s)
  | RecenterClick => ret (recenterMap s)
  | SelectStop loc => ret (handleSelectStop loc s)
  | PlaceSelect placeId => handlePlaceSelect placeId s
  | RemoveStopClick =>
      match waypoints s with
      | [] => ret s
      | _ :: _ => ret (handleRemoveStop s)
      end
  | AddStopClick => ret (setShowAddStopModal true s)
  | DismissErrorClick => ret (setMapError None s)
  | ScriptLoaded => ret (setIsLoaded true s)
  | MapLoaded map => ret (setMapRef (Some map) s)
  | MapUnmounted => ret (setMapRef None s)
  end.

(** Whether a dependency of the route effect, [[isLoaded, currentTrip.from,
    currentTrip.to, waypoints]], differs between two renders.  The handlers
    only replace the waypoint array by a longer one or, when it is not
    empty, by an empty one, so a new array is a different sequence. *)
Definition routeDepsChanged (prev s : State) : bool :=
  negb (Bool.eqb (isLoaded prev) (isLoaded s)
        && String.eqb (from (currentTrip prev)) (from (currentTrip s))
        && String.eqb (to (currentTrip prev)) (to (currentTrip s))
        && bool_decide (waypoints prev = waypoints s)).

Definition resolveLoc (loc : string) : Location :=
  match getRouteLocation loc with
  | Some (LocPoint coord) => LocPoint coord
  | _ => LocText loc
  end.

Definition orDashes (text : option string) : string :=
  match text with
  | Some t => if String.eqb t "" then "--" else t
  | None => "--"
  end.

(** The body of the "Calculate Route" effect, [fetchRoute] included. *)
Definition fetchRoute (s : State) : IO State :=
  if negb (isLoaded s) || String.eqb (from (currentTrip s)) ""
     || String.eqb (to (currentTrip s)) ""
  then ret s
  else
    let origin := resolveLoc (from (currentTrip s)) in
    let dest := resolveLoc (to (currentTrip s)) in
    let googleWaypoints :=
      map (fun wp => {| location := location wp; stopover := stopover wp |})
          (waypoints s) in
    (do result <- getDirections google origin dest googleWaypoints;
     match result with
     | Some res =>
         let s := setMapError None (setDirections (Some res) s) in
         match firstLeg (Some res) with
         | Some leg =>
             ret (setTripMetrics
                    {| eta := orDashes (duration_text leg);
                       remainingDist := orDashes (distance_text leg);
                       duration := orDashes (duration_text leg) |}
                    s)
         | None => ret s
         end
     | None =>
         ret (setMapError
                (Some {| type := Generic;
                         message := "Could not fetch directions." |})
                s)
     end)%io.

Definition routeEffect (prev s : State) : IO State :=
  if routeDepsChanged prev s then fetchRoute s else ret s.

(** Whether a dependency of the position-tracking effect,
    [[isAutoCentering, directions, currentStepIndex]], differs between two
    renders; if so the watcher is cleared and subscribed again with a
    callback created in the new render. *)
Definition watchDepsChanged (prev s : State) : bool :=
  negb (Bool.eqb (isAutoCentering prev) (isAutoCentering s)
        && bool_decide (directions prev = directions s)
        && Nat.eqb (currentStepIndex prev) (currentStepIndex s)).

(** The mounted screen: its state and the render the position callback
    closes over. *)
Record Mounted : Type := { current : State; seen : State }.

Definition resubscribe (prev s : State) (closure : State) : State :=
  if watchDepsChanged prev s then s else closure.

(** One event handled in one piece: its handler, the render that follows
    with its effects, and the render that follows the answer to a route
    request.  A position callback runs in one piece when it does not wait
    for an address; [tick] below also has the callbacks that wait, and the
    events that happen while they do. *)
Definition step (m : Mounted) (e : Event) : IO Mounted :=
  (do s1 <- handle (seen m) e (current m);
   let closure1 := resubscribe (current m) s1 (seen m) in
   do s2 <- routeEffect (current m) s1;
   ret {| current := s2; seen := resubscribe s1 s2 closure1 |})%io.

(** Mounting runs every effect once. *)
Definition mount (tripDetails : TripDetails) (loaded : bool) : IO Mounted :=
  let s0 := setIsLoaded loaded (initial tripDetails) in
  (do s1 <- fetchRoute s0;
   ret {| current := s1; seen := resubscribe s0 s1 s0 |})%io.

Fixpoint steps_from (m : Mounted) (es : list Event) : IO Mounted :=
  match es with
  | [] => ret m
  | e :: rest => (do m' <- step m e; steps_from m' rest)%io
  end.

(** The states navigation can be in: those a mount followed by events
    leads to, whatever calls were logged before. *)
Definition reachable (m : Mounted) : Prop :=
  exists tripDetails loaded es log0,
    fst ((do m0 <- mount tripDetails loaded; steps_from m0 es)%io log0) = m.

(** The position callback reads the step pointer, the directions and the
    auto-centering flag of the current render. *)
Definition inSync (m : Mounted) : Prop :=
  isAutoCentering (seen m) = isAutoCentering (current m)
  /\ directions (seen m) = directions (current m)
  /\ currentStepIndex (seen m) = currentStepIndex (current m).

(** The directions requests in a call log. *)
Definition directionsRequests (log : list Call) : list Call :=
  List.filter isDirectionsRequest log.

(** Whether the turn-by-turn block advances the pointer for a position:
    the current step exists, its end is closer than 40 m and it is not the
    last step of the leg. *)
Definition advances (s : State) (newPos : LatLng) : bool :=
  match firstLeg (directions s) with
  | Some leg =>
      match steps leg !! currentStepIndex s with
      | Some step =>
          closeWithNext
            (calculateDistance google (lat newPos) (lng newPos)
               (lat (end_location step)) (lng (end_location step)))
            (currentStepIndex s) (steps leg)
      | None => false
      end
  | None => false
  end.

(** The cells a position update may write besides the trip origin: the user
    location, the camera, the distance text and the step pointer.  All other
    cells agree in [s] and [s']. *)
Definition sameButTracking (s s' : State) : Prop :=
  isLoaded s' = isLoaded s
  /\ showAddStopModal s' = showAddStopModal s
  /\ mapError s' = mapError s
  /\ directions s' = directions s
  /\ currentLegIndex s' = currentLegIndex s
  /\ tripMetrics s' = tripMetrics s
  /\ isAutoCentering s' = isAutoCentering s
  /\ to (currentTrip s') = to (currentTrip s)
  /\ vehicleNumber (currentTrip s') = vehicleNumber (currentTrip s)
  /\ travelers (currentTrip s') = travelers (currentTrip s)
  /\ mode (currentTrip s') = mode (currentTrip s)
  /\ waypoints s' = waypoints s
  /\ isStopsListVisible s' = isStopsListVisible s.

(** *** Position callbacks that wait for an address *)

(** The position callback up to its [await]. *)
Definition onPositionStart (seen : State) (newPos : LatLng) (s : State)
    : State :=
  let s := setUserLocation (Some newPos) s in
  if isAutoCentering seen
  then match mapRef s with
       | Some cam => setMapRef (Some (panTo newPos cam)) s
       | None => s
       end
  else s.

(** The position callback from there on; [addr] is what [reverseGeocode]
    resolved to, [None] when the callback did not ask. *)
Definition onPositionResume (seen : State) (newPos : LatLng)
    (addr : option string) (s : State) : State :=
  let s := match addr with
           | Some text =>
               if String.eqb text "" then s
               else setCurrentTrip (setFrom text (currentTrip s)) s
           | None => s
           end in
  simulateProgress seen newPos s.

(** What the geocoder of the provider resolves [reverseGeocode] to. *)
Definition resolvedAddress (g : GoogleMaps) (p : LatLng) : string :=
  let '(results, ok) := geocoder g p in
  match results with
  | Some (r :: _) => if ok then formatted_address r else "Unknown Location"
  | _ => "Unknown Location"
  end.

(** The render that follows the state change [s1] of a handler or of a
    resumed callback, with its effects; [prev] is the render before and
    [closure] the render its position watcher was subscribed in. *)
Definition render (prev closure s1 : State) : IO Mounted :=
  (do s2 <- routeEffect prev s1;
   ret {| current := s2;
          seen := resubscribe s1 s2 (resubscribe prev s1 closure) |})%io.

(** A position callback that waits for its address: the render it was
    created in and the position it was called with. *)
Record Waiting : Type := { closure : State; position : LatLng }.

(** The mounted screen and the position callbacks that wait, oldest
    first. *)
Record Running : Type := { shown : Mounted; waiting : list Waiting }.

(** An event of the screen, or the answer of the geocoder to the callback
    at position [k] among those that wait. *)
Inductive Tick : Type :=
| Happens (e : Event)
| AddressArrives (k : nat).

(** The provider a position callback created in this render waits for:
    the callback asks for an address when the origin it sees is 'Current
    Location', and the answer takes time when the provider is loaded
    (without it [reverseGeocode] is resolved at once). *)
Definition waitsFor (m : Mounted) : option GoogleMaps :=
  if String.eqb (from (currentTrip (seen m))) "Current Location"
  then google else None.

Definition tick (r : Running) (t : Tick) : IO Running :=
  let m := shown r in
  match t with
  | Happens (PositionUpdate newPos) =>
      match waitsFor m with
      | Some _ =>
          (exec emit (GeocodeRequest {| lat := lat newPos; lng := lng newPos |});
           do m' <- render (current m) (seen m)
                      (onPositionStart (seen m) newPos (current m));
           ret {| shown := m';
                  waiting := (waiting r
                              ++ [{| closure := seen m;
                                     position := newPos |}])%list |})%io
      | None =>
          (do m' <- step m (PositionUpdate newPos);
           ret {| shown := m'; waiting := waiting r |})%io
      end
  | Happens e =>
      (do m' <- step m e; ret {| shown := m'; waiting := waiting r |})%io
  | AddressArrives k =>
      match google, waiting r !! k with
      | Some g, Some w =>
          let addr :=
            resolvedAddress g {| lat := lat (position w);
                                 lng := lng (position w) |} in
          (do m' <- render (current m) (seen m)
                      (onPositionResume (closure w) (position w) (Some addr)
                         (current m));
           ret {| shown := m'; waiting := delete k (waiting r) |})%io
      | _, _ => ret r
      end
  end.

Fixpoint ticks (r : Running) (ts : list Tick) : IO Running :=
  match ts with
  | [] => ret r
  | t :: rest => (do r' <- tick r t; ticks r' rest)%io
  end.

(** The screen with no callback waiting. *)
Definition quiet (m : Mounted) : Running := {| shown := m; waiting := [] |}.

(** The states navigation can be in when callbacks may wait: those a mount
    followed by ticks leads to. *)
Definition inPlay (r : Running) : Prop :=
  exists tripDetails loaded ts log0,
    fst ((do m0 <- mount tripDetails loaded; ticks (quiet m0) ts)%io log0) = r.

(** The position callback that a tick brings to its end, if any: one that
    runs in one piece, or one that waited. *)
Definition completes (r : Running) (t : Tick) : option Waiting :=
  match t with
  | Happens (PositionUpdate newPos) =>
      match waitsFor (shown r) with
      | Some _ => None
      | None => Some {| closure := seen (shown r); position := newPos |}
      end
  | Happens _ => None
  | AddressArrives k =>
      match google with
      | Some _ => waiting r !! k
      | None => None
      end
  end.

End Screen.

End NavigationScreen.

(** ** The trip controller ([tripController.ts]) over the Trip model *)

Module TripController.

Inductive TripType : Type := OneWay | RoundTrip.

Inductive TripStatus : Type := Planned | Active | Completed | Cancelled.

Record Stop : Type := {
  stop_location : LatLng;
  stop_name : option string;
  stop_stopover : bool
}.

(** A document of the [Trip] collection ([models/Trip.ts]). *)
Record Trip : Type := {
  userId : string;
  origin : string;
  destination : string;
  startDate : string;
  startTime : string;
  vehicle : option string;
  travelers : nat;
  tripType : TripType;
  status : TripStatus;
  stops : list Stop
}.

(** A request body: the fields it carries. *)
Record TripBody : Type := {
  body_userId : option string;
  body_origin : option string;
  body_destination : option string;
  body_startDate : option string;
  body_startTime : option string;
  body_vehicle : option string;
  body_travelers : option nat;
  body_tripType : option TripType;
  body_status : option TripStatus;
  body_stops : option (list Stop)
}.

(** The update [findByIdAndUpdate] applies: every field the body carries
    replaces the one of the document. *)
Definition applyBody (b : TripBody) (t : Trip) : Trip :=
  {| userId := default (userId t) (body_userId b);
     origin := default (origin t) (body_origin b);
     destination := default (destination t) (body_destination b);
     startDate := default (startDate t) (body_startDate b);
     startTime := default (startTime t) (body_startTime b);
     vehicle := match body_vehicle b with Some v => Some v | None => vehicle t end;
     travelers := default (travelers t) (body_travelers b);
     tripType := default (tripType t) (body_tripType b);
     status := default (status t) (body_status b);
     stops := default (stops t) (body_stops b) |}.

(** The collection, keyed by document id. *)
Abbreviation Collection := (gmap string Trip).

(** A model call either throws or returns. *)
Inductive Outcome (A : Type) : Type :=
| Returned (a : A)
| Thrown (message : string).
Arguments Returned {A} a.
Arguments Thrown {A} message.

(** The model calls of the controller; the environment of a request says
    which of them the store fails (a lost connection, a cast error). *)
Inductive ModelCall : Type := FindById | FindByIdAndUpdate | DeleteOne.

Section Model.

Variable fails : ModelCall -> bool.

Definition findById (db : Collection) (id : string) : Outcome (option Trip) :=
  if fails FindById then Thrown "findById failed" else Returned (db !! id).

Definition findByIdAndUpdate (db : Collection) (id : string) (b : TripBody)
    : Outcome (option Trip) * Collection :=
  if fails FindByIdAndUpdate then (Thrown "findByIdAndUpdate failed", db)
  else
    match db !! id with
    | Some t => (Returned (Some (applyBody b t)), <[id := applyBody b t]> db)
    | None => (Returned None, db)
    end.

Definition deleteOne (db : Collection) (id : string) : Outcome unit * Collection :=
  if fails DeleteOne then (Thrown "deleteOne failed", db)
  else (Returned tt, delete id db).

Record User : Type := { _id : string }.

(** [req.params.id], [req.user] and [req.body]. *)
Record AuthRequest : Type := {
  params_id : string;
  user : User;
  body : TripBody
}.

Inductive Payload : Type :=
| Message (text : string)
| TripJson (t : option Trip).

(** [res.status(code).json(payload)]; [res.json] alone answers 200. *)
Record Response : Type := { code : nat; payload : Payload }.

Definition updateTrip (req : AuthRequest) (db : Collection)
    : Response * Collection :=
  match findById db (params_id req) with
  | Thrown msg => ({| code := 500; payload := Message msg |}, db)
  | Returned None =>
      ({| code := 404; payload := Message "Trip not found" |}, db)
  | Returned (Some trip) =>
      if negb (String.eqb (userId trip) (_id (user req)))
      then ({| code := 401; payload := Message "Not authorized" |}, db)
      else
        match findByIdAndUpdate db (params_id req) (body req) with
        | (Returned updatedTrip, db') =>
            ({| code := 200; payload := TripJson updatedTrip |}, db')
        | (Thrown msg, db') => ({| code := 500; payload := Message msg |}, db')
        end
  end.

Definition deleteTrip (req : AuthRequest) (db : Collection)
    : Response * Collection :=
  match findById db (params_id req) with
  | Thrown msg => ({| code := 500; payload := Message msg |}, db)
  | Returned None =>
      ({| code := 404; payload := Message "Trip not found" |}, db)
  | Returned (Some trip) =>
      if negb (String.eqb (userId trip) (_id (user req)))
      then ({| code := 401; payload := Message "Not authorized" |}, db)
      else
        match deleteOne db (params_id req) with
        | (Returned _, db') =>
            ({| code := 200; payload := Message "Trip removed" |}, db')
        | (Thrown msg, db') => ({| code := 500; payload := Message msg |}, db')
        end
  end.

End Model.

(** *** Creating a trip *)

(** The object [createTrip] hands to [Trip.create]: the caller as [userId]
    and the nine fields it takes out of the body ([customVehicle], which
    the document record does not track, among them).  Neither the [userId]
    nor the [status] of the body is passed on. *)
Definition createFields (req : AuthRequest) : TripBody :=
  {| body_userId := Some (_id (user req));
     body_origin := body_origin (body req);
     body_destination := body_destination (body req);
     body_startDate := body_startDate (body req);
     body_startTime := body_startTime (body req);
     body_vehicle := body_vehicle (body req);
     body_travelers := body_travelers (body req);
     body_tripType := body_tripType (body req);
     body_status := None;
     body_stops := body_stops (body req) |}.

(** A required text: present and not empty. *)
Definition required (field : option string) : option string :=
  match field with
  | Some text => if String.eqb text "" then None else Some text
  | None => None
  end.

(** The document the schema of [models/Trip.ts] makes of the given fields:
    [userId], [origin], [destination], [startDate] and [startTime] are
    required; [travelers], [tripType] and [status] have the defaults 1,
    'one-way' and 'planned'. *)
Definition newDocument (fields : TripBody) : option Trip :=
  match required (body_userId fields), required (body_origin fields),
        required (body_destination fields), required (body_startDate fields),
        required (body_startTime fields) with
  | Some owner, Some from, Some to, Some date, Some time =>
      Some {| userId := owner;
              origin := from;
              destination := to;
              startDate := date;
              startTime := time;
              vehicle := body_vehicle fields;
              travelers := default 1 (body_travelers fields);
              tripType := default OneWay (body_tripType fields);
              status := default Planned (body_status fields);
              stops := default [] (body_stops fields) |}
  | _, _, _, _, _ => None
  end.

(** [Trip.create]: [storeFails] says whether the store fails the call (a
    lost connection, a value it cannot cast); [newId] is the id the store
    gives the new document. *)
Definition create (storeFails : bool) (newId : string) (db : Collection)
    (fields : TripBody) : Outcome Trip * Collection :=
  if storeFails then (Thrown "create failed", db)
  else
    match newDocument fields with
    | Some trip => (Returned trip, <[newId := trip]> db)
    | None => (Thrown "Trip validation failed", db)
    end.

Definition createTrip (storeFails : bool) (newId : string) (req : AuthRequest)
    (db : Collection) : Response * Collection :=
  match create storeFails newId db (createFields req) with
  | (Returned trip, db') =>
      ({| code := 201; payload := TripJson (Some trip) |}, db')
  | (Thrown msg, db') => ({| code := 500; payload := Message msg |}, db')
  end.

End TripController.

(** ** The trip history and the navigation session of the store
    ([AppContext.tsx]) *)

Module TripHistory.

(** Modelled from the object literals of [addTrip] and [endNavigation]: the
    [Trip] type of the missing [types] module. *)
Record Trip : Type := {
  id : string;
  tripName : string;
  from : string;
  fromSubtitle : string;
  to : string;
  toSubtitle : string;
  date : string;
  duration : string;
  startTime : string;
  endTime : string;
  distance : nat;
  vehicleNumber : option string;
  travelers : nat;
  stops : nat;
  mode : string
}.

(** [Omit<Trip, 'id' | 'tripName' | 'date' | 'duration' | 'startTime' |
    'endTime'>] *)
Record TripData : Type := {
  data_from : string;
  data_fromSubtitle : string;
  data_to : string;
  data_toSubtitle : string;
  data_distance : nat;
  data_vehicleNumber : string;
  data_travelers : nat;
  data_stops : nat;
  data_mode : string
}.

(** [response.data] of [POST /trips]: the stored document and its [_id]. *)
Record Created : Type := {
  created_id : string;
  document : TripController.Trip
}.

Section Store.

(** The backend as the store sees it, the clock ([new Date()] as it is
    serialised and its [toLocaleTimeString]) and the date formatter
    ([toLocaleDateString]). *)
Variable postTrip : TripController.TripBody -> AppContext.ApiResult Created.
Variable deleteTripCall : string -> AppContext.ApiResult unit.
Variable now : string.
Variable timeNow : string.
Variable formatDate : string -> string.

(** The [payload] of [addTrip]. *)
Definition payload (tripData : TripData) : TripController.TripBody :=
  {| TripController.body_userId := None;
     TripController.body_origin := Some (data_from tripData);
     TripController.body_destination := Some (data_to tripData);
     TripController.body_startDate := Some now;
     TripController.body_startTime := Some timeNow;
     TripController.body_vehicle := Some (data_vehicleNumber tripData);
     TripController.body_travelers := None;
     TripController.body_tripType := Some TripController.OneWay;
     TripController.body_status := None;
     TripController.body_stops := Some [] |}.

(** The [newTrip] made of the response. *)
Definition newTrip (data : Created) : Trip :=
  let doc := document data in
  {| id := created_id data;
     tripName := "Trip to " ++ TripController.destination doc;
     from := TripController.origin doc;
     fromSubtitle := "";
     to := TripController.destination doc;
     toSubtitle := "";
     date := formatDate (TripController.startDate doc);
     duration := "N/A";
     startTime := TripController.startTime doc;
     endTime := "N/A";
     distance := 0;
     vehicleNumber := TripController.vehicle doc;
     travelers := 1;
     stops := length (TripController.stops doc);
     mode := "4W" |}.

Definition addTrip (tripData : TripData) (trips : list Trip) : list Trip :=
  match postTrip (payload tripData) with
  | AppContext.ApiOk data => newTrip data :: trips
  | AppContext.ApiError => trips
  end.

Definition removeTrip (id0 : string) (trips : list Trip) : list Trip :=
  match deleteTripCall id0 with
  | AppContext.ApiOk _ =>
      List.filter (fun t => negb (String.eqb (id t) id0)) trips
  | AppContext.ApiError => trips
  end.

(** The cells of the store that navigation reads and writes. *)
Record Session : Type := {
  trips : list Trip;
  isNavigating : bool;
  currentTripDetails : option NavigationScreen.TripDetails;
  navigationDestination : option string;
  navigationOrigin : option string
}.

Definition startNavigation (details : NavigationScreen.TripDetails)
    (s : Session) : Session :=
  {| trips := trips s;
     isNavigating := true;
     currentTripDetails := Some details;
     navigationDestination := None;
     navigationOrigin := navigationOrigin s |}.

(** [randomDistance] and [randomStops] are the two numbers drawn with
    [Math.random]. *)
Definition endNavigation (randomDistance randomStops : nat) (s : Session)
    : Session :=
  let trips' :=
    match currentTripDetails s with
    | Some details =>
        addTrip {| data_from := NavigationScreen.from details;
                   data_fromSubtitle := "Mock City Start";
                   data_to := NavigationScreen.to details;
                   data_toSubtitle := "Mock City End";
                   data_distance := randomDistance;
                   data_vehicleNumber := NavigationScreen.vehicleNumber details;
                   data_travelers := NavigationScreen.travelers details;
                   data_stops := randomStops;
                   data_mode := NavigationScreen.mode details |}
                (trips s)
    | None => trips s
    end in
  {| trips := trips';
     isNavigating := false;
     currentTripDetails := None;
     navigationDestination := navigationDestination s;
     navigationOrigin := Some "Current Location" |}.

End Store.

End TripHistory.

(** ** Concrete inputs used in examples *)

Definition sampleLeg : MapService.DirectionsLeg :=
  {| MapService.steps :=
       [ {| MapService.end_location := {| lat := 1; lng := 0 |};
            MapService.instructions := "Head north" |};
         {| MapService.end_location := {| lat := 1; lng := 1 |};
            MapService.instructions := "Turn right" |} ];
     MapService.distance_text := Some "157 km";
     MapService.duration_text := Some "2 hours" |}.

Definition sampleDirections : MapService.DirectionsResult :=
  {| MapService.routes := [ {| MapService.legs := [sampleLeg] |} ] |}.

(** A loaded provider whose spherical helper is the Haversine formula. *)
Definition sampleGoogle : MapService.GoogleMaps :=
  {| MapService.computeDistanceBetween := fun p1 p2 =>
       OlaMapService.calculateDistance (lat p1) (lng p1) (lat p2) (lng p2);
     MapService.autocompleteService := fun _ =>
       (Some [ {| MapService.description := "Abu Road, Rajasthan";
                  MapService.place_id := "place-1";
                  MapService.structured_formatting :=
                    {| MapService.main_text := "Abu Road";
                       MapService.secondary_text := "Rajasthan" |} |} ],
        MapService.OK);
     MapService.directionsService := fun _ _ _ => (Some sampleDirections, true);
     MapService.geocoder := fun _ =>
       (Some [ {| MapService.formatted_address := "MG Road, Pune" |} ], true);
     MapService.placesDetails := fun _ => (None, MapService.NOT_FOUND) |}.

Definition sampleTrip : TripController.Trip :=
  {| TripController.userId := "user-1";
     TripController.origin := "Pune";
     TripController.destination := "Lonavala";
     TripController.startDate := "2024-01-05";
     TripController.startTime := "09:30 AM";
     TripController.vehicle := Some "MH12AB1234";
     TripController.travelers := 2;
     TripController.tripType := TripController.OneWay;
     TripController.status := TripController.Planned;
     TripController.stops := [] |}.

Definition emptyBody : TripController.TripBody :=
  {| TripController.body_userId := None;
     TripController.body_origin := None;
     TripController.body_destination := None;
     TripController.body_startDate := None;
     TripController.body_startTime := None;
     TripController.body_vehicle := None;
     TripController.body_travelers := None;
     TripController.body_tripType := None;
     TripController.body_status := None;
     TripController.body_stops := None |}.

(** A request of user-2 that cancels trip-1, which belongs to user-1. *)
Definition foreignRequest : TripController.AuthRequest :=
  {| TripController.params_id := "trip-1";
     TripController.user := {| TripController._id := "user-2" |};
     TripController.body :=
       {| TripController.body_userId := None;
          TripController.body_origin := None;
          TripController.body_destination := None;
          TripController.body_startDate := None;
          TripController.body_startTime := None;
          TripController.body_vehicle := None;
          TripController.body_travelers := None;
          TripController.body_tripType := None;
          TripController.body_status := Some TripController.Cancelled;
          TripController.body_stops := None |} |}.

Definition sampleCollection : gmap string TripController.Trip :=
  {[ "trip-1" := sampleTrip ]}.

Definition tigerPoint : PlannerScreen.Stay :=
  {| PlannerScreen.stay_id := "attr-1";
     PlannerScreen.stay_name := "Tiger Point";
     PlannerScreen.distance := "Lonavala, Maharashtra";
     PlannerScreen.rating := 4;
     PlannerScreen.image := "tiger.jpg" |}.

(** The planner in state 3, with an own stay typed in and one attraction
    listed. *)
Definition plannerAtStep3 : PlannerScreen.State :=
  {| PlannerScreen.step := 3;
     PlannerScreen.destination := "Lonavala";
     PlannerScreen.hasStayPlanned := true;
     PlannerScreen.stayLocation := "Fariyas Resort";
     PlannerScreen.stays := [];
     PlannerScreen.isLoadingStays := false;
     PlannerScreen.staysError := None;
     PlannerScreen.selectedStayId := None;
     PlannerScreen.nearbyAttractions := [tigerPoint];
     PlannerScreen.isLoadingAttractions := false;
     PlannerScreen.attractionsError := None;
     PlannerScreen.locationError := None;
     PlannerScreen.isFetchingLocation := false;
     PlannerScreen.activePlannerInput := None |}.

Definition appAtStep3 : PlannerScreen.App :=
  {| PlannerScreen.planner := plannerAtStep3;
     PlannerScreen.screen := AppContext.Main;
     PlannerScreen.savedRoutes := [] |}.

(** A backend that accepts every request and stores a posted route under
    the id [newId]. *)
Definition okBackend (newId : string) : AppContext.Backend :=
  {| AppContext.postSavedRoute := fun d =>
       AppContext.ApiOk
         {| AppContext.id := newId;
            AppContext.origin := AppContext.data_origin d;
            AppContext.destination := AppContext.data_destination d;
            AppContext.stay := AppContext.data_stay d;
            AppContext.travelTime := "" |};
     AppContext.deleteSavedRoute := fun _ => AppContext.ApiOk tt |}.

Definition routeStayToTiger : AppContext.SavedRoute :=
  {| AppContext.id := "r1";
     AppContext.origin := "Fariyas Resort";
     AppContext.destination := "Tiger Point";
     AppContext.stay := "Fariyas Resort";
     AppContext.travelTime := "" |}.

Definition routeTigerToStay : AppContext.SavedRoute :=
  {| AppContext.id := "r2";
     AppContext.origin := "Tiger Point";
     AppContext.destination := "Fariyas Resort";
     AppContext.stay := "Tiger Point";
     AppContext.travelTime := "" |}.

(** Two saved routes, one the reverse of the other, after "reverse" was
    used on the second: both now lead from the stay to Tiger Point. *)
Definition appWithTwin : PlannerScreen.App :=
  {| PlannerScreen.planner := plannerAtStep3;
     PlannerScreen.screen := AppContext.Main;
     PlannerScreen.savedRoutes :=
       AppContext.reverseRoute "r2" [routeTigerToStay; routeStayToTiger] |}.

Definition appOneRoute : PlannerScreen.App :=
  {| PlannerScreen.planner := plannerAtStep3;
     PlannerScreen.screen := AppContext.Main;
     PlannerScreen.savedRoutes := [routeTigerToStay] |}.

Definition sampleTripDetails : NavigationScreen.TripDetails :=
  {| NavigationScreen.from := "Pune";
     NavigationScreen.to := "Lonavala";
     NavigationScreen.vehicleNumber := "MH12AB1234";
     NavigationScreen.travelers := 2;
     NavigationScreen.mode := "4W" |}.

(** A coordinate parser for texts none of which is a coordinate pair. *)
Definition noCoordinates (text : string) : option LatLng := None.

(** The navigation screen right after mounting with the script loaded. *)
Definition sampleMounted : NavigationScreen.Mounted :=
  fst (NavigationScreen.mount (Some sampleGoogle) noCoordinates
         sampleTripDetails true []).

Definition samplePosition : LatLng := {| lat := 1; lng := 0 |}.

Definition tripFromHere : NavigationScreen.TripDetails :=
  {| NavigationScreen.from := "Current Location";
     NavigationScreen.to := "Lonavala";
     NavigationScreen.vehicleNumber := "MH12AB1234";
     NavigationScreen.travelers := 2;
     NavigationScreen.mode := "4W" |}.

(** The navigation screen mounted for a trip that starts at the device
    position, before the script has loaded: no route was requested, so the
    position watcher still runs in the first render. *)
Definition mountedFromHere : NavigationScreen.Mounted :=
  fst (NavigationScreen.step (Some sampleGoogle) noCoordinates
         (fst (NavigationScreen.mount (Some sampleGoogle) noCoordinates
                 tripFromHere false []))
         NavigationScreen.ScriptLoaded []).

(** A request of user-1, the owner of trip-1, that changes its destination. *)
Definition ownerRequest : TripController.AuthRequest :=
  {| TripController.params_id := "trip-1";
     TripController.user := {| TripController._id := "user-1" |};
     TripController.body :=
       {| TripController.body_userId := None;
          TripController.body_origin := None;
          TripController.body_destination := Some "Khandala";
          TripController.body_startDate := None;
          TripController.body_startTime := None;
          TripController.body_vehicle := None;
          TripController.body_travelers := None;
          TripController.body_tripType := None;
          TripController.body_status := None;
          TripController.body_stops := None |} |}.

(** A request of user-1 on trip-1 that names user-2 as its owner. *)
Definition handOverRequest : TripController.AuthRequest :=
  {| TripController.params_id := "trip-1";
     TripController.user := {| TripController._id := "user-1" |};
     TripController.body :=
       {| TripController.body_userId := Some "user-2";
          TripController.body_origin := None;
          TripController.body_destination := None;
          TripController.body_startDate := None;
          TripController.body_startTime := None;
          TripController.body_vehicle := None;
          TripController.body_travelers := None;
          TripController.body_tripType := None;
          TripController.body_status := None;
          TripController.body_stops := None |} |}.

(** A request on an id no trip has. *)
Definition strayRequest : TripController.AuthRequest :=
  {| TripController.params_id := "trip-9";
     TripController.user := {| TripController._id := "user-1" |};
     TripController.body := emptyBody |}.

Definition sampleUser : AppContext.UserProfile :=
  {| AppContext.user_id := "user-1";
     AppContext.name := "Asha";
     AppContext.phone := "9000000001";
     AppContext.twoWheelers :=
       [ {| AppContext.vehicle_id := "tw0";
            AppContext.regNumber := "MH12AB1234" |} ];
     AppContext.fourWheelers :=
       [ {| AppContext.vehicle_id := "fw0";
            AppContext.regNumber := "MH14CD5678" |} ] |}.


(** The planner as the destination "Lonavala" is confirmed: state 1 in the
    previous render, state 2 now, the stay toggle off. *)
Definition plannerAtStep1 : PlannerScreen.State :=
  PlannerScreen.setDestination "Lonavala" PlannerScreen.initial.

Definition plannerEnteringStep2 : PlannerScreen.State :=
  PlannerScreen.setStep 2 plannerAtStep1.

(** The planner as a stay is confirmed: state 2 before, state 3 now. *)
Definition plannerEnteringStep3 : PlannerScreen.State :=
  PlannerScreen.setStep 3 plannerEnteringStep2.

(** A backend that fails every request. *)
Definition downBackend : AppContext.Backend :=
  {| AppContext.postSavedRoute := fun _ => AppContext.ApiError;
     AppContext.deleteSavedRoute := fun _ => AppContext.ApiError |}.

(** A loaded provider whose geocoder answers nothing. *)
Definition silentGeocoderGoogle : MapService.GoogleMaps :=
  {| MapService.computeDistanceBetween :=
       MapService.computeDistanceBetween sampleGoogle;
     MapService.autocompleteService := MapService.autocompleteService sampleGoogle;
     MapService.directionsService := MapService.directionsService sampleGoogle;
     MapService.geocoder := fun _ => (None, false);
     MapService.placesDetails := MapService.placesDetails sampleGoogle |}.

(** The screen mounted with that provider for a trip that starts at the
    device position. *)
Definition mountedSilent : NavigationScreen.Mounted :=
  fst (NavigationScreen.mount (Some silentGeocoderGoogle) noCoordinates
         tripFromHere true []).

(** A backend that stores what it is sent for user-1 under the id trip-9,
    provided the ends of the trip are given. *)
Definition echoBackend (b : TripController.TripBody)
    : AppContext.ApiResult TripHistory.Created :=
  match TripController.newDocument
          (TripController.createFields
             {| TripController.params_id := "";
                TripController.user := {| TripController._id := "user-1" |};
                TripController.body := b |}) with
  | Some doc =>
      AppContext.ApiOk {| TripHistory.created_id := "trip-9";
                          TripHistory.document := doc |}
  | None => AppContext.ApiError
  end.

(** Two sessions that navigate the same trip with different traveler counts
    and modes. *)
Definition sessionOfTwo : TripHistory.Session :=
  {| TripHistory.trips := [];
     TripHistory.isNavigating := true;
     TripHistory.currentTripDetails := Some sampleTripDetails;
     TripHistory.navigationDestination := None;
     TripHistory.navigationOrigin := Some "Current Location" |}.

Definition sessionOfFive : TripHistory.Session :=
  {| TripHistory.trips := [];
     TripHistory.isNavigating := true;
     TripHistory.currentTripDetails :=
       Some {| NavigationScreen.from := "Pune";
               NavigationScreen.to := "Lonavala";
               NavigationScreen.vehicleNumber := "MH12AB1234";
               NavigationScreen.travelers := 5;
               NavigationScreen.mode := "2W" |};
     TripHistory.navigationDestination := None;
     TripHistory.navigationOrigin := Some "Current Location" |}.

Definition sampleTripData : TripHistory.TripData :=
  {| TripHistory.data_from := "Pune";
     TripHistory.data_fromSubtitle := "Mock City Start";
     TripHistory.data_to := "Lonavala";
     TripHistory.data_toSubtitle := "Mock City End";
     TripHistory.data_distance := 64;
     TripHistory.data_vehicleNumber := "MH12AB1234";
     TripHistory.data_travelers := 3;
     TripHistory.data_stops := 2;
     TripHistory.data_mode := "2W" |}.

(** The stop and the map used below. *)
Definition fuelStation : Location := LocText "Fuel station, Khopoli".

Definition puneCamera : NavigationScreen.Camera :=
  {| NavigationScreen.center := {| lat := 18; lng := 73 |};
     NavigationScreen.zoom := 12 |}.

(** The navigation screen after mounting with the script loaded and
    selecting a stop. *)
Definition mountedWithStop : NavigationScreen.Mounted :=
  fst ((do m0 <- NavigationScreen.mount (Some sampleGoogle) noCoordinates
                   sampleTripDetails true;
        NavigationScreen.steps_from (Some sampleGoogle) noCoordinates m0
          [NavigationScreen.SelectStop fuelStation])%io []).

(** The navigation screen after mounting with the script loaded and the
    map reporting itself. *)
Definition mountedWithMap : NavigationScreen.Mounted :=
  fst ((do m0 <- NavigationScreen.mount (Some sampleGoogle) noCoordinates
                   sampleTripDetails true;
        NavigationScreen.steps_from (Some sampleGoogle) noCoordinates m0
          [NavigationScreen.MapLoaded puneCamera])%io []).

(** A loaded provider whose spherical helper measures great circles on a
    sphere with the equatorial radius of the Earth. *)
Definition equatorialGoogle : MapService.GoogleMaps :=
  {| MapService.computeDistanceBetween := Sphere.greatCircleDistance 6378137;
     MapService.autocompleteService := MapService.autocompleteService sampleGoogle;
     MapService.directionsService := MapService.directionsService sampleGoogle;
     MapService.geocoder := MapService.geocoder sampleGoogle;
     MapService.placesDetails := MapService.placesDetails sampleGoogle |}.

(** * Theorems *)

(** ** Great-circle distance *)

Section Haversine.

Local Open Scope R_scope.

Import OlaMapService.

Lemma calculateDistance_unfold lat1 lng1 lat2 lng2 :
  calculateDistance lat1 lng1 lat2 lng2 =
  6371000 * (2 * atan2 (sqrt (haversine_a lat1 lng1 lat2 lng2))
                       (sqrt (1 - haversine_a lat1 lng1 lat2 lng2))).
Proof. reflexivity. Qed.

Lemma sin_half_swap (x y : R) :
  sin ((x - y) * PI / 180 / 2) * sin ((x - y) * PI / 180 / 2) =
  sin ((y - x) * PI / 180 / 2) * sin ((y - x) * PI / 180 / 2).
Proof.
  replace ((x - y) * PI / 180 / 2) with (- ((y - x) * PI / 180 / 2)) by lra.
  rewrite sin_neg. ring.
Qed.

Lemma haversine_a_sym lat1 lng1 lat2 lng2 :
  haversine_a lat1 lng1 lat2 lng2 = haversine_a lat2 lng2 lat1 lng1.
Proof.
  unfold haversine_a.
  rewrite (sin_half_swap lat2 lat1).
  assert (H : forall c1 c2 s1 s2 : R, s1 * s1 = s2 * s2 ->
                c1 * c2 * s1 * s1 = c2 * c1 * s2 * s2).
  { intros c1 c2 s1 s2 Hs.
    replace (c1 * c2 * s1 * s1) with (c1 * c2 * (s1 * s1)) by ring.
    rewrite Hs. ring. }
  rewrite (H _ _ _ _ (sin_half_swap lng2 lng1)). reflexivity.
Qed.

Lemma haversine_a_same lat1 lng1 : haversine_a lat1 lng1 lat1 lng1 = 0.
Proof.
  unfold haversine_a.
  replace ((lat1 - lat1) * PI / 180 / 2) with 0 by lra.
  replace ((lng1 - lng1) * PI / 180 / 2) with 0 by lra.
  rewrite sin_0. ring.
Qed.

(** The argument of each square root lies in the range where the real
    square root and [Math.sqrt] agree. *)
Lemma haversine_a_range lat1 lng1 lat2 lng2 :
  0 <= haversine_a lat1 lng1 lat2 lng2 <= 1.
Proof.
  unfold haversine_a.
  set (p1 := lat1 * PI / 180). set (p2 := lat2 * PI / 180).
  set (h := (lat2 - lat1) * PI / 180 / 2).
  set (t := sin ((lng2 - lng1) * PI / 180 / 2)).
  assert (Hd : p2 - p1 = 2 * h) by (unfold p1, p2, h; lra).
  assert (Hcos : cos (p2 - p1) = 1 - 2 * (sin h * sin h)).
  { rewrite Hd. rewrite cos_2a_sin. ring. }
  rewrite cos_minus in Hcos.
  pose proof (sin2_cos2 p1) as H1. pose proof (sin2_cos2 p2) as H2.
  pose proof (sin2_cos2 ((lng2 - lng1) * PI / 180 / 2)) as H3.
  unfold Rsqr in H1, H2, H3. fold t in H3.
  assert (Ht : 0 <= t * t <= 1).
  { split; [nra |]. pose proof (Rle_0_sqr (cos ((lng2 - lng1) * PI / 180 / 2))) as Hc.
    unfold Rsqr in Hc. lra. }
  pose proof (COS_bound (p2 - p1)) as Hb. rewrite cos_minus in Hb.
  pose proof (COS_bound (p2 + p1)) as Hc. rewrite cos_plus in Hc.
  replace (sin h * sin h) with ((1 - (cos p2 * cos p1 + sin p2 * sin p1)) / 2) by lra.
  split; nra.
Qed.

Lemma atan2_0_1 : atan2 0 1 = 0.
Proof.
  unfold atan2. destruct (Rlt_dec 0 1) as [_ | H]; [| lra].
  replace (0 / 1) with 0 by lra. apply atan_0.
Qed.

Lemma atan2_sin_cos (h : R) :
  0 <= h <= PI / 2 -> atan2 (sin h) (cos h) = h.
Proof.
  intros [H0 H1]. unfold atan2. pose proof PI_RGT_0 as Hpi.
  destruct H1 as [Hlt | ->].
  - assert (Hcos : 0 < cos h) by (apply cos_gt_0; lra).
    destruct (Rlt_dec 0 (cos h)) as [_ | Hn]; [| contradiction].
    change (sin h / cos h) with (tan h). apply atan_tan. lra.
  - rewrite sin_PI2, cos_PI2.
    destruct (Rlt_dec 0 0) as [H | _]; [lra |].
    destruct (Rlt_dec 0 1) as [_ | H]; [reflexivity | lra].
Qed.

(** When [a] is the squared sine of a half angle in the first quadrant, the
    formula gives the radius times the angle. *)
Lemma haversine_of_half_angle lat1 lng1 lat2 lng2 (h : R) :
  0 <= h <= PI / 2 ->
  haversine_a lat1 lng1 lat2 lng2 = sin h * sin h ->
  calculateDistance lat1 lng1 lat2 lng2 = 6371000 * (2 * h).
Proof.
  intros Hh Ha. rewrite calculateDistance_unfold, Ha.
  pose proof PI_RGT_0 as Hpi.
  assert (Hsin : 0 <= sin h) by (apply sin_ge_0; lra).
  assert (Hcos : 0 <= cos h) by (apply cos_ge_0; lra).
  rewrite sqrt_square by exact Hsin.
  replace (1 - sin h * sin h) with (cos h * cos h)
    by (pose proof (sin2_cos2 h) as H; unfold Rsqr in H; lra).
  rewrite sqrt_square by exact Hcos.
  now rewrite atan2_sin_cos.
Qed.

Lemma haversine_a_meridian lat1 lat2 lng :
  haversine_a lat1 lng lat2 lng
  = sin ((lat2 - lat1) * PI / 180 / 2) * sin ((lat2 - lat1) * PI / 180 / 2).
Proof.
  unfold haversine_a. replace ((lng - lng) * PI / 180 / 2) with 0 by lra.
  rewrite sin_0. ring.
Qed.

Lemma haversine_a_equator lng1 lng2 :
  haversine_a 0 lng1 0 lng2
  = sin ((lng2 - lng1) * PI / 180 / 2) * sin ((lng2 - lng1) * PI / 180 / 2).
Proof.
  unfold haversine_a. replace ((0 - 0) * PI / 180 / 2) with 0 by lra.
  replace (0 * PI / 180) with 0 by lra. rewrite sin_0, cos_0. ring.
Qed.

(** In exact arithmetic [calculateDistance] is symmetric in its two points,
    and the distance from a point to itself is 0. *)
Lemma calculateDistance_exact_symmetric :
  forall lat1 lng1 lat2 lng2 : R,
    calculateDistance lat1 lng1 lat2 lng2 = calculateDistance lat2 lng2 lat1 lng1
    /\ calculateDistance lat1 lng1 lat1 lng1 = 0.
Proof.
  intros lat1 lng1 lat2 lng2. split.
  - rewrite !calculateDistance_unfold.
    rewrite (haversine_a_sym lat1 lng1 lat2 lng2). reflexivity.
  - rewrite calculateDistance_unfold, haversine_a_same.
    rewrite Rminus_0_r, sqrt_0, sqrt_1, atan2_0_1. ring.
Qed.

End Haversine.

(** ** Great-circle distance in binary64 arithmetic *)

Section FloatLaws.
Import PrimFloat SpecFloat FloatOps FloatAxioms.

Lemma binary_round_aux_opp s m e l :
  binary_round_aux prec emax (negb s) m e l
  = SFopp (binary_round_aux prec emax s m e l).
Proof.
  unfold binary_round_aux.
  destruct (shr_fexp prec emax m e l) as [mrs' e'].
  destruct (shr_fexp prec emax _ e' loc_Exact) as [mrs'' e''].
  destruct (shr_m mrs''); [reflexivity | | reflexivity].
  destruct (Z.leb e'' _); reflexivity.
Qed.

Lemma SFopp_involutive x : SFopp (SFopp x) = x.
Proof. destruct x; simpl; rewrite ?negb_involutive; reflexivity. Qed.

Lemma SFmul_opp_l x y :
  SF64mul (SFopp x) y = SFopp (SF64mul x y).
Proof.
  unfold SF64mul.
  destruct x as [sx | sx | | sx mx ex], y as [sy | sy | | sy my ey]; simpl;
    rewrite <- ?negb_xorb_l; try reflexivity.
  apply binary_round_aux_opp.
Qed.

Lemma SFmul_comm x y : SF64mul x y = SF64mul y x.
Proof.
  unfold SF64mul.
  destruct x as [sx | sx | | sx mx ex], y as [sy | sy | | sy my ey]; simpl;
    rewrite ?(xorb_comm sy sx); try reflexivity.
  now rewrite Pos.mul_comm, Z.add_comm.
Qed.

Lemma SFdiv_opp_l x y :
  SF64div (SFopp x) y = SFopp (SF64div x y).
Proof.
  unfold SF64div.
  destruct x as [sx | sx | | sx mx ex], y as [sy | sy | | sy my ey]; simpl;
    rewrite <- ?negb_xorb_l; try reflexivity.
  destruct (SFdiv_core_binary prec emax (Z.pos mx) ex (Z.pos my) ey)
    as [[mz ez] lz].
  apply binary_round_aux_opp.
Qed.

Lemma binary_round_opp s m e :
  binary_round prec emax (negb s) m e = SFopp (binary_round prec emax s m e).
Proof.
  unfold binary_round. destruct (shl_align _ _ _). apply binary_round_aux_opp.
Qed.

Lemma binary_normalize_opp m e :
  binary_normalize prec emax (- m) e false
  = SFopp (binary_normalize prec emax m e false)
  \/ binary_normalize prec emax (- m) e false
     = binary_normalize prec emax m e false.
Proof.
  destruct m; simpl; [now right | left | left].
  - apply (binary_round_opp false).
  - apply (binary_round_opp true).
Qed.

Lemma SFsub_swap x y :
  SF64sub y x = SFopp (SF64sub x y) \/ SF64sub y x = SF64sub x y.
Proof.
  unfold SF64sub.
  destruct x as [sx | sx | | sx mx ex], y as [sy | sy | | sy my ey]; simpl;
    try (now right); try (now left);
    try (destruct sx, sy; simpl; (now left) || (now right)).
  replace (IntDef.Z.min ey ex) with (IntDef.Z.min ex ey) by apply Z.min_comm.
  set (ez := IntDef.Z.min ex ey).
  set (a := cond_Zopp sx _). set (b := cond_Zopp sy _).
  replace (b - a)%Z with (- (a - b))%Z by lia.
  apply binary_normalize_opp.
Qed.

Lemma float_opp_involutive x : (- - x)%float = x.
Proof.
  apply Prim2SF_inj. rewrite !opp_spec. apply SFopp_involutive.
Qed.

Lemma float_mul_opp_l x y : (- x * y)%float = (- (x * y))%float.
Proof.
  apply Prim2SF_inj. rewrite mul_spec, !opp_spec, mul_spec. apply SFmul_opp_l.
Qed.

Lemma float_mul_comm x y : (x * y)%float = (y * x)%float.
Proof. apply Prim2SF_inj. rewrite !mul_spec. apply SFmul_comm. Qed.

Lemma float_mul_opp_r x y : (x * - y)%float = (- (x * y))%float.
Proof. now rewrite float_mul_comm, float_mul_opp_l, float_mul_comm. Qed.

Lemma float_div_opp_l x y : (- x / y)%float = (- (x / y))%float.
Proof.
  apply Prim2SF_inj. rewrite div_spec, !opp_spec, div_spec. apply SFdiv_opp_l.
Qed.

Lemma float_sub_swap x y :
  (y - x)%float = (- (x - y))%float \/ (y - x)%float = (x - y)%float.
Proof.
  destruct (SFsub_swap (Prim2SF x) (Prim2SF y)) as [H | H]; [left | right];
    apply Prim2SF_inj; rewrite ?opp_spec, !sub_spec; exact H.
Qed.

(** Numbers that are neither NaN nor infinite. *)
Lemma float_finite_cases x :
  is_finite x = true ->
  (exists s, Prim2SF x = S754_zero s)
  \/ (exists s m e, Prim2SF x = S754_finite s m e).
Proof.
  unfold is_finite, is_nan, is_infinity.
  rewrite !eqb_spec, abs_spec.
  destruct (Prim2SF x) as [s | s | | s m e]; intros H.
  - left. now exists s.
  - destruct s; cbv in H; discriminate H.
  - cbv in H. discriminate H.
  - right. now exists s, m, e.
Qed.

Lemma float_sub_diag x : is_finite x = true -> (x - x)%float = 0%float.
Proof.
  intros Hx. apply Prim2SF_inj. rewrite sub_spec.
  destruct (float_finite_cases x Hx) as [[s ->] | [s [m [e ->]]]].
  - now destruct s.
  - unfold SF64sub, SFsub. rewrite Z.sub_diag. reflexivity.
Qed.

Lemma float_mul_zero_r x :
  is_finite x = true -> (x * 0)%float = 0%float \/ (x * 0)%float = (- 0)%float.
Proof.
  intros Hx.
  assert (H : exists s, Prim2SF (x * 0) = S754_zero s).
  { rewrite mul_spec.
    destruct (float_finite_cases x Hx) as [[s ->] | [s [m [e ->]]]];
      now exists (xorb s false). }
  destruct H as [[|] H]; [right | left]; apply Prim2SF_inj; rewrite H;
    reflexivity.
Qed.

Import OlaMapService.Double.

Lemma sameSize_mul x y c : sameSize x y -> sameSize (x * c) (y * c).
Proof. intros [-> | ->]; [now left | right; apply float_mul_opp_l]. Qed.

Lemma sameSize_div x y c : sameSize x y -> sameSize (x / c) (y / c).
Proof. intros [-> | ->]; [now left | right; apply float_div_opp_l]. Qed.

Lemma sameSize_sub x y : sameSize (y - x) (x - y).
Proof. destruct (float_sub_swap x y) as [H | H]; [now right | now left]. Qed.

Lemma square_sameSize x y : sameSize x y -> (x * x)%float = (y * y)%float.
Proof.
  intros [-> | ->]; [reflexivity |].
  now rewrite float_mul_opp_l, float_mul_opp_r, float_opp_involutive.
Qed.

Lemma scaled_square_sameSize c x y :
  sameSize x y -> (c * x * x)%float = (c * y * y)%float.
Proof.
  intros [-> | ->]; [reflexivity |].
  now rewrite !float_mul_opp_r, float_mul_opp_l, float_opp_involutive.
Qed.

Section OddSine.

Variable M : HostMath.
Hypothesis sin_odd : forall x, Math_sin M (- x) = (- Math_sin M x)%float.

Lemma sameSize_sin x y : sameSize x y -> sameSize (Math_sin M x) (Math_sin M y).
Proof. intros [-> | ->]; [now left | right; apply sin_odd]. Qed.

Lemma half_angle_sine_swap x y :
  sameSize (Math_sin M ((y - x) * PI / 180 / 2))
           (Math_sin M ((x - y) * PI / 180 / 2)).
Proof.
  apply sameSize_sin, sameSize_div, sameSize_div, sameSize_mul, sameSize_sub.
Qed.

Lemma haversine_a_swap lat1 lng1 lat2 lng2 :
  haversine_a M lat2 lng2 lat1 lng1 = haversine_a M lat1 lng1 lat2 lng2.
Proof.
  unfold haversine_a.
  rewrite (square_sameSize _ _ (half_angle_sine_swap lat2 lat1)).
  rewrite (float_mul_comm (Math_cos M (lat2 * PI / 180))).
  rewrite (scaled_square_sameSize _ _ _ (half_angle_sine_swap lng2 lng1)).
  reflexivity.
Qed.

Lemma haversine_a_diag lat1 lng1 :
  Math_sin M 0 = 0%float ->
  is_finite lat1 = true -> is_finite lng1 = true ->
  is_finite (Math_cos M (lat1 * PI / 180) * Math_cos M (lat1 * PI / 180)) = true ->
  haversine_a M lat1 lng1 lat1 lng1 = 0%float.
Proof.
  intros Hsin Hlat Hlng Hcos. unfold haversine_a.
  rewrite (float_sub_diag lat1 Hlat), (float_sub_diag lng1 Hlng).
  change (0 * PI / 180 / 2)%float with 0%float. rewrite Hsin.
  destruct (float_mul_zero_r _ Hcos) as [-> | ->]; reflexivity.
Qed.

End OddSine.

(** C7, amended.  On a host whose [Math.sin] is odd, swapping the two
    points gives the same binary64 number, so the two calls compare equal
    exactly when that number is not NaN.  On a host where moreover
    [Math.sin(0)] is 0 and [Math.atan2(0, 1)] is 0, the distance from a
    point with finite coordinates to itself is 0, whenever the square of
    the cosine the host returns for its latitude is finite. *)
Theorem calculateDistance_symmetric_and_zero :
  forall (M : HostMath) (lat1 lng1 lat2 lng2 : float),
    (forall x, Math_sin M (- x) = (- Math_sin M x)%float) ->
    Math_sin M 0 = 0%float ->
    Math_atan2 M 0 1 = 0%float ->
    let d := calculateDistance M lat1 lng1 lat2 lng2 in
    let d' := calculateDistance M lat2 lng2 lat1 lng1 in
    d' = d
    /\ (d =? d')%float = negb (is_nan d)
    /\ (is_finite lat1 = true -> is_finite lng1 = true ->
        is_finite (Math_cos M (lat1 * PI / 180) * Math_cos M (lat1 * PI / 180))
        = true ->
        calculateDistance M lat1 lng1 lat1 lng1 = 0%float).
Proof.
  intros M lat1 lng1 lat2 lng2 Hodd Hsin Hatan d d'.
  assert (Hsame : d' = d).
  { unfold d, d', calculateDistance. now rewrite haversine_a_swap. }
  split; [exact Hsame |]. split.
  - rewrite Hsame. unfold is_nan. now rewrite negb_involutive.
  - intros Hlat Hlng Hcos. unfold calculateDistance.
    rewrite (haversine_a_diag M lat1 lng1 Hsin Hlat Hlng Hcos).
    change (sqrt 0) with 0%float. change (sqrt (1 - 0)) with 1%float.
    rewrite Hatan. reflexivity.
Qed.

End FloatLaws.

Section DoubleExamples.

Import PrimFloat OlaMapService.Double.

Lemma taylor_sin_odd x :
  Math_sin taylorMath (- x) = (- Math_sin taylorMath x)%float.
Proof.
  assert (Hq : (- x * - x)%float = (x * x)%float)
    by now rewrite float_mul_opp_l, float_mul_opp_r, float_opp_involutive.
  simpl. rewrite Hq. apply float_mul_opp_l.
Qed.

Lemma calculateDistance_symmetric_and_zero_witness :
  let d := calculateDistance taylorMath 18 73 19 74 in
  let d' := calculateDistance taylorMath 19 74 18 73 in
  d' = d
  /\ (d =? d')%float = true
  /\ calculateDistance taylorMath 18 73 18 73 = 0%float.
Proof.
  destruct (calculateDistance_symmetric_and_zero taylorMath 18 73 19 74)
    as [Hsame [Heq Hzero]].
  - exact taylor_sin_odd.
  - reflexivity.
  - reflexivity.
  - split; [exact Hsame |]. split.
    + rewrite Heq. vm_compute. reflexivity.
    + apply Hzero; vm_compute; reflexivity.
Defined.

(** C7, as stated, fails.  For the antipodal points (-12, -180) and
    (12, 0), on a host that returns the binary64 numbers nearest to the
    sines and cosines, [a] is 1.0000000000000002; the square root of
    [1 - a] is NaN, and so is the distance computed in either order: the
    two calls do not compare equal. *)
Lemma calculateDistance_nan_near_antipodes :
  let d := calculateDistance recordedMath (-12) (-180) 12 0 in
  let d' := calculateDistance recordedMath 12 0 (-12) (-180) in
  haversine_a recordedMath (-12) (-180) 12 0 = 0x1.0000000000001p+0%float
  /\ is_nan d = true
  /\ is_nan d' = true
  /\ (d =? d')%float = false.
Proof. vm_compute. repeat split. Qed.

End DoubleExamples.

(** ** The two distance implementations *)

Section TwoDistances.

Local Open Scope R_scope.

Lemma haversine_antipodal :
  OlaMapService.calculateDistance 0 0 0 180 = 6371000 * PI.
Proof.
  rewrite calculateDistance_unfold.
  assert (Ha : OlaMapService.haversine_a 0 0 0 180 = 1).
  { unfold OlaMapService.haversine_a.
    replace ((0 - 0) * PI / 180 / 2) with 0 by lra.
    replace (0 * PI / 180) with 0 by lra.
    replace ((180 - 0) * PI / 180 / 2) with (PI / 2) by lra.
    rewrite sin_0, cos_0, sin_PI2. ring. }
  rewrite Ha. replace (1 - 1) with 0 by ring. rewrite sqrt_0, sqrt_1.
  unfold OlaMapService.atan2.
  destruct (Rlt_dec 0 0) as [H | _]; [lra |].
  destruct (Rlt_dec 0 1) as [_ | H]; [| lra].
  field.
Qed.

(** C8, as stated, fails: with the provider script not loaded the delegating
    implementation answers 0 for two antipodal points of the equator, where
    the Haversine implementation answers half the circumference. *)
Lemma calculateDistance_disagree_unloaded :
  MapService.calculateDistance None 0 0 0 180 = 0
  /\ OlaMapService.calculateDistance 0 0 0 180 = 6371000 * PI
  /\ Rabs (OlaMapService.calculateDistance 0 0 0 180
           - MapService.calculateDistance None 0 0 0 180) > 19000000.
Proof.
  split; [reflexivity |]. split; [apply haversine_antipodal |].
  rewrite haversine_antipodal. simpl.
  rewrite Rminus_0_r. pose proof PI2_3_2 as Hpi.
  rewrite Rabs_right; lra.
Qed.

(** The Haversine formula measures great circles: in exact arithmetic it
    is the radius 6371000 times the central angle of the two points. *)
Lemma haversine_is_great_circle lat1 lng1 lat2 lng2 :
  OlaMapService.calculateDistance lat1 lng1 lat2 lng2
  = Sphere.greatCircleDistance 6371000
      {| lat := lat1; lng := lng1 |} {| lat := lat2; lng := lng2 |}.
Proof.
  pose proof (haversine_a_range lat1 lng1 lat2 lng2) as [Ha0 Ha1].
  set (a := OlaMapService.haversine_a lat1 lng1 lat2 lng2) in *.
  pose proof PI_RGT_0 as Hpi.
  assert (Hroot : 0 <= sqrt a <= 1).
  { split; [apply sqrt_pos |]. rewrite <- sqrt_1. now apply sqrt_le_1_alt. }
  set (h := asin (sqrt a)).
  assert (Hsin : sin h = sqrt a) by (apply sin_asin; lra).
  assert (Hh : 0 <= h <= PI / 2).
  { pose proof (asin_bound (sqrt a)) as Hb. fold h in Hb.
    split; [| lra].
    apply sin_incr_0; try lra. rewrite sin_0, Hsin. lra. }
  assert (Hsq : a = sin h * sin h) by (rewrite Hsin, sqrt_sqrt; lra).
  rewrite (haversine_of_half_angle lat1 lng1 lat2 lng2 h Hh Hsq).
  unfold Sphere.greatCircleDistance, Sphere.centralAngle. simpl. f_equal.
  rewrite <- (acos_cos (2 * h)) by lra. f_equal.
  rewrite cos_2a_sin.
  replace (2 * sin h * sin h) with (2 * a) by (rewrite Hsq; ring).
  unfold a, OlaMapService.haversine_a.
  set (p1 := lat1 * PI / 180). set (p2 := lat2 * PI / 180).
  replace ((lat2 - lat1) * PI / 180 / 2) with ((p2 - p1) / 2)
    by (unfold p1, p2; lra).
  set (l := (lng2 - lng1) * PI / 180).
  pose proof (cos_2a_sin ((p2 - p1) / 2)) as Hp.
  replace (2 * ((p2 - p1) / 2)) with (p2 - p1) in Hp by lra.
  rewrite cos_minus in Hp.
  pose proof (cos_2a_sin (l / 2)) as Hl.
  replace (2 * (l / 2)) with l in Hl by lra.
  nra.
Qed.

(** C8, amended.  With the provider script loaded, and a provider whose
    spherical helper measures great circles on a sphere of some radius, the
    delegating implementation returns, for two points short of antipodal,
    that radius over 6371000 times what the Haversine implementation
    returns: the two agree when the radius is 6371000, and differ by at
    most the difference of the radii times pi otherwise. *)
Theorem calculateDistance_agree_when_loaded :
  forall (g : MapService.GoogleMaps) (radius lat1 lng1 lat2 lng2 : R),
    Sphere.measuresSphere radius g ->
    Sphere.shortOfAntipodal lat1 lng1 lat2 lng2 ->
    let provided := MapService.calculateDistance (Some g) lat1 lng1 lat2 lng2 in
    let manual := OlaMapService.calculateDistance lat1 lng1 lat2 lng2 in
    provided = radius / 6371000 * manual
    /\ (radius = 6371000 -> provided = manual)
    /\ Rabs (provided - manual) <= Rabs (radius - 6371000) * PI.
Proof.
  intros g radius lat1 lng1 lat2 lng2 Hsphere _ provided manual.
  assert (Hprovided : provided
                      = radius * Sphere.centralAngle {| lat := lat1; lng := lng1 |}
                                   {| lat := lat2; lng := lng2 |}).
  { unfold provided, MapService.calculateDistance. now rewrite Hsphere. }
  assert (Hmanual : manual
                    = 6371000 * Sphere.centralAngle {| lat := lat1; lng := lng1 |}
                                  {| lat := lat2; lng := lng2 |})
    by (unfold manual; now rewrite haversine_is_great_circle).
  set (angle := Sphere.centralAngle _ _) in *.
  assert (Hangle : 0 <= angle <= PI) by apply acos_bound.
  split; [rewrite Hprovided, Hmanual; field |].
  split; [intros ->; now rewrite Hprovided, Hmanual |].
  rewrite Hprovided, Hmanual.
  replace (radius * angle - 6371000 * angle) with ((radius - 6371000) * angle)
    by ring.
  rewrite Rabs_mult, (Rabs_right angle) by lra.
  apply Rmult_le_compat_l; [apply Rabs_pos | lra].
Qed.

End TwoDistances.

Lemma calculateDistance_agree_when_loaded_witness :
  let provided := MapService.calculateDistance (Some equatorialGoogle) 10 73 19 73 in
  let manual := OlaMapService.calculateDistance 10 73 19 73 in
  (provided = 6378137 / 6371000 * manual
   /\ (6378137 = 6371000 -> provided = manual)
   /\ Rabs (provided - manual) <= Rabs (6378137 - 6371000) * PI)%R.
Proof.
  apply (calculateDistance_agree_when_loaded equatorialGoogle 6378137 10 73 19 73).
  - intros p q. reflexivity.
  - unfold Sphere.shortOfAntipodal. rewrite haversine_a_meridian.
    pose proof (SIN_bound ((19 - 10) * PI / 180 / 2)) as Hb.
    pose proof PI_4 as Hpi4. pose proof PI_RGT_0 as Hpi.
    assert (Hx : (0 <= (19 - 10) * PI / 180 / 2 <= / 10)%R) by lra.
    assert (Hs : (0 <= sin ((19 - 10) * PI / 180 / 2) <= / 10)%R).
    { split; [apply sin_ge_0; lra |].
      destruct Hx as [[Hpos | Hzero] Hle].
      - pose proof (sin_lt_x _ Hpos). lra.
      - rewrite <- Hzero, sin_0. lra. }
    nra.
Defined.

(** ** The distance matrix fallback *)

Section DistanceMatrix.

Import OlaMapService.

Lemma map_const_repeat {A B : Type} (b : B) (l : list A) :
  map (fun _ => b) l = repeat b (length l).
Proof. induction l as [| x l IH]; simpl; [reflexivity | now rewrite IH]. Qed.

(** C9. When the distance-matrix request fails, [getDistanceMatrix] returns a
    matrix with one row per origin and one cell per destination, every cell
    being status 'OK', 1000 m ('1 km') and 600 s ('10 mins'); it is the very
    value returned when the provider genuinely answers with that matrix. *)
Theorem getDistanceMatrix_failure_fabricates :
  forall (API_KEY : string) (network : string -> FetchOutcome)
         (origins destinations : list string) (log : list Call),
    failed (network (distanceMatrixUrl API_KEY origins destinations)) = true ->
    let cell :=
      JObj [("status", JStr "OK");
            ("distance", JObj [("value", JNum 1000); ("text", JStr "1 km")]);
            ("duration", JObj [("value", JNum 600); ("text", JStr "10 mins")])] in
    let matrix :=
      JObj [("rows",
             JArr (repeat (JObj [("elements",
                                  JArr (repeat cell (length destinations)))])
                          (length origins)))] in
    fst (getDistanceMatrix API_KEY network origins destinations log) = matrix
    /\ fst (getDistanceMatrix API_KEY (fun _ => Json matrix)
              origins destinations log) = matrix.
Proof.
  intros API_KEY network origins destinations log Hfail cell matrix.
  split; [| reflexivity].
  unfold getDistanceMatrix, fetch, bind, emit, ret. simpl.
  destruct (network (distanceMatrixUrl API_KEY origins destinations));
    try discriminate Hfail; simpl;
    unfold fallbackMatrix, matrix; rewrite !map_const_repeat; reflexivity.
Qed.

Lemma getDistanceMatrix_failure_fabricates_witness :
  fst (getDistanceMatrix "key" (fun _ => NetworkError)
         ["Pune"; "Mumbai"] ["Lonavala"] []) =
  JObj [("rows",
         JArr [JObj [("elements",
                      JArr [JObj [("status", JStr "OK");
                                  ("distance", JObj [("value", JNum 1000);
                                                     ("text", JStr "1 km")]);
                                  ("duration", JObj [("value", JNum 600);
                                                     ("text", JStr "10 mins")])]])];
               JObj [("elements",
                      JArr [JObj [("status", JStr "OK");
                                  ("distance", JObj [("value", JNum 1000);
                                                     ("text", JStr "1 km")]);
                                  ("duration", JObj [("value", JNum 600);
                                                     ("text", JStr "10 mins")])]])]])].
Proof.
  exact (proj1 (getDistanceMatrix_failure_fabricates
                  "key" (fun _ => NetworkError) ["Pune"; "Mumbai"] ["Lonavala"] []
                  eq_refl)).
Defined.

End DistanceMatrix.

(** ** Place predictions for short inputs *)

Section ShortInputs.

(** The Ola Maps implementation returns no prediction and issues no call for
    an input of fewer than 3 UTF-16 code units. *)
Lemma ola_getPlacePredictions_short :
  forall (API_KEY : string) (encodeURIComponent : string -> string)
         (network : string -> FetchOutcome) (input : string) (log : list Call),
    (jsLength input < 3)%nat ->
    OlaMapService.getPlacePredictions API_KEY encodeURIComponent network input log
    = ([], log).
Proof.
  intros API_KEY enc network input log Hlen.
  unfold OlaMapService.getPlacePredictions.
  destruct (Nat.ltb_spec (jsLength input) 3) as [_ | Hge]; [| lia].
  rewrite orb_true_r. reflexivity.
Qed.

(** C5, at an input where the code departs from it.  The Google Maps
    implementation has no length test: with the provider loaded, the
    two-character input "ab" is sent to the autocomplete service, and what
    the service answers is returned. *)
Theorem google_getPlacePredictions_short_calls_provider :
  forall g : MapService.GoogleMaps,
    String.length "ab" = 2%nat
    /\ snd (run (MapService.getPlacePredictions (Some g) "ab"))
       = [AutocompleteRequest "ab"]
    /\ fst (run (MapService.getPlacePredictions (Some sampleGoogle) "ab"))
       = [ {| MapService.res_id := "place-1";
              MapService.res_place_id := "place-1";
              MapService.res_name := "Abu Road, Rajasthan";
              MapService.res_vicinity := "Rajasthan";
              MapService.res_main_text := "Abu Road";
              MapService.res_secondary_text := "Rajasthan" |} ].
Proof.
  intros g. split; [reflexivity |]. split; [| reflexivity].
  unfold run, MapService.getPlacePredictions, MapService.getAutocompletePredictions,
    bind, emit, ret. simpl.
  destruct (MapService.autocompleteService g "ab") as [[ps |] status]; simpl;
    [destruct (MapService.isOK status) |]; reflexivity.
Qed.

End ShortInputs.

(** ** Vehicles of the user profile *)

Section Vehicles.

Import AppContext.

Lemma withVehicles_sameOutside type vs u :
  sameOutside type (Some u) (Some (withVehicles type vs u)).
Proof. destruct type; simpl; auto. Qed.

Lemma sameOutside_refl type user : sameOutside type user user.
Proof. destruct user as [u |]; simpl; auto. Qed.

(** C10. Adding, removing or updating a vehicle in collection [type] leaves
    the identity, the name, the phone and the other collection as they were;
    adding with an empty registration number, or with no user logged in,
    leaves the whole profile state as it was. *)
Theorem vehicle_mutations_frame :
  forall (now : string) (type : VehicleType) (reg id0 : string)
         (vehicle : Vehicle) (user : option UserProfile),
    sameOutside type user (addVehicle now type reg user)
    /\ sameOutside type user (removeVehicle type id0 user)
    /\ sameOutside type user (updateVehicle type vehicle user)
    /\ addVehicle now type "" user = user
    /\ addVehicle now type reg None = None.
Proof.
  intros now type reg id0 vehicle user.
  repeat split.
  - unfold addVehicle. destruct user as [u |]; [| exact I].
    destruct (String.eqb reg "");
      [apply sameOutside_refl | apply withVehicles_sameOutside].
  - unfold removeVehicle. destruct user as [u |]; [| exact I].
    apply withVehicles_sameOutside.
  - unfold updateVehicle. destruct user as [u |]; [| exact I].
    apply withVehicles_sameOutside.
  - unfold addVehicle. destruct user; reflexivity.
Qed.

End Vehicles.

(** ** Ownership checks of the trip controller *)

Section Ownership.

Import TripController.

Lemma findById_returns fails (db : gmap string Trip) id trip :
  fails FindById = false -> db !! id = Some trip ->
  findById fails db id = Returned (Some trip).
Proof. intros Hf Hl. unfold findById. now rewrite Hf, Hl. Qed.

(** C2. When the trip of a PUT or DELETE request exists (the lookup by id
    returns it) and its [userId] differs from the caller's id, the answer is
    401 'Not authorized' and the collection, the trip document included, is
    left as it was. *)
Theorem foreign_trip_rejected_unchanged :
  forall (fails : ModelCall -> bool) (req : AuthRequest)
         (db : gmap string Trip) (trip : Trip),
    fails FindById = false ->
    db !! params_id req = Some trip ->
    userId trip <> _id (user req) ->
    updateTrip fails req db
    = ({| code := 401; payload := Message "Not authorized" |}, db)
    /\ deleteTrip fails req db
       = ({| code := 401; payload := Message "Not authorized" |}, db)
    /\ snd (updateTrip fails req db) !! params_id req = Some trip
    /\ snd (deleteTrip fails req db) !! params_id req = Some trip.
Proof.
  intros fails req db trip Hup Hl Hne.
  pose proof (findById_returns fails db _ trip Hup Hl) as Hfind.
  apply String.eqb_neq in Hne.
  unfold updateTrip, deleteTrip. rewrite Hfind, Hne. simpl.
  repeat split; assumption.
Qed.

(** Whatever the store does, a request on a trip of another user never
    changes the collection. *)
Lemma foreign_trip_never_written :
  forall (fails : ModelCall -> bool) (req : AuthRequest)
         (db : gmap string Trip) (trip : Trip),
    db !! params_id req = Some trip ->
    userId trip <> _id (user req) ->
    snd (updateTrip fails req db) = db /\ snd (deleteTrip fails req db) = db.
Proof.
  intros fails req db trip Hl Hne.
  apply String.eqb_neq in Hne.
  unfold updateTrip, deleteTrip, findById.
  destruct (fails FindById); [split; reflexivity |].
  rewrite Hl, Hne. split; reflexivity.
Qed.

Lemma foreign_trip_rejected_unchanged_witness :
  updateTrip (fun _ => false) foreignRequest sampleCollection
  = ({| code := 401; payload := Message "Not authorized" |}, sampleCollection)
  /\ deleteTrip (fun _ => false) foreignRequest sampleCollection
     = ({| code := 401; payload := Message "Not authorized" |}, sampleCollection)
  /\ snd (updateTrip (fun _ => false) foreignRequest sampleCollection)
       !! params_id foreignRequest = Some sampleTrip
  /\ snd (deleteTrip (fun _ => false) foreignRequest sampleCollection)
       !! params_id foreignRequest = Some sampleTrip.
Proof.
  apply (foreign_trip_rejected_unchanged
           (fun _ => false) foreignRequest sampleCollection sampleTrip).
  - reflexivity.
  - reflexivity.
  - simpl. discriminate.
Defined.

End Ownership.

(** ** The terminal action of the planner *)

Section PlannerReset.

Import AppContext PlannerScreen.

(** C6, as stated, fails: after the terminal action from state 3 the
    destination is the text 'Current Location', not its initial empty text,
    and the attraction list still holds what it held. *)
Lemma completeAndGoHome_not_initial :
  let after := planner (clickCompleted [] appAtStep3) in
  destination after = "Current Location"
  /\ nearbyAttractions after = [tigerPoint]
  /\ ~ (destination after = destination initial
        /\ hasStayPlanned after = hasStayPlanned initial
        /\ stayLocation after = stayLocation initial
        /\ selectedStayId after = selectedStayId initial
        /\ nearbyAttractions after = nearbyAttractions initial
        /\ step after = 1).
Proof.
  split; [reflexivity |]. split; [reflexivity |].
  intros [Hdest _]. discriminate Hdest.
Qed.

(** C6, amended.  The terminal action from state 3 shows the home screen,
    returns the wizard to state 1, sets the destination to 'Current
    Location', turns the stay toggle off and clears the stay location text
    and the selected stay id. *)
Theorem completeAndGoHome_resets :
  forall (found : list Stay) (app : App),
    let after := clickCompleted found app in
    screen after = Home
    /\ step (planner after) = 1
    /\ destination (planner after) = "Current Location"
    /\ hasStayPlanned (planner after) = false
    /\ stayLocation (planner after) = ""
    /\ selectedStayId (planner after) = None.
Proof.
  intros found app after. subst after.
  unfold clickCompleted.
  set (app' := completeAndGoHome app).
  assert (Hstep : step (planner app') = 1) by reflexivity.
  assert (Hs : staysEffect found (planner app) (planner app') = planner app'
               \/ staysEffect found (planner app) (planner app')
                  = setStaysError None (setStays [] (planner app'))).
  { unfold staysEffect.
    destruct (negb (staysDepsChanged (planner app) (planner app'))); [now left |].
    rewrite Hstep. simpl. now right. }
  assert (Ha : forall s, step s = 1 ->
                 attractionsEffect found (planner app) s = s).
  { intros s H1. unfold attractionsEffect. rewrite H1. simpl.
    now destruct (_ && _). }
  destruct Hs as [-> | ->].
  - rewrite Ha by exact Hstep. simpl. repeat split; reflexivity.
  - rewrite Ha by reflexivity. simpl. repeat split; reflexivity.
Qed.

End PlannerReset.

(** ** Toggling a saved route *)

Section Toggle.

Import AppContext PlannerScreen.

Lemma matches_key name0 dest r :
  matches name0 dest r = true <-> routeKey r = (name0, stay_name dest).
Proof.
  unfold matches, routeKey. rewrite andb_true_iff, !String.eqb_eq.
  split; [intros [-> ->]; reflexivity | intros [= -> ->]; auto].
Qed.

Lemma elem_of_routeKeys k routes :
  k ∈ routeKeys routes <-> exists r, In r routes /\ routeKey r = k.
Proof.
  unfold routeKeys. rewrite elem_of_list_to_set, list_elem_of_In, in_map_iff.
  split; intros [r [H1 H2]]; exists r; auto.
Qed.

Lemma filter_fresh (i : string) (routes : list SavedRoute) :
  ~ In i (map AppContext.id routes) ->
  List.filter (fun r => negb (String.eqb (AppContext.id r) i)) routes = routes.
Proof.
  induction routes as [| r routes IH]; simpl; intros Hfresh; [reflexivity |].
  destruct (String.eqb_spec (AppContext.id r) i) as [Heq | Hne]; simpl.
  - exfalso. apply Hfresh. now left.
  - rewrite IH; [reflexivity |]. intros Hin. apply Hfresh. now right.
Qed.

(** With unique ids, removing by the id of [r0] removes [r0] and nothing
    else. *)
Lemma in_filter_unique (r0 : SavedRoute) (routes : list SavedRoute) :
  List.NoDup (map AppContext.id routes) -> In r0 routes ->
  forall r, In r (List.filter (fun r => negb (String.eqb (AppContext.id r)
                                                 (AppContext.id r0))) routes)
            <-> In r routes /\ r <> r0.
Proof.
  intros Hnd Hin0 r. rewrite filter_In, negb_true_iff, String.eqb_neq.
  split; intros [Hin Hne]; split; auto.
  - intros ->. now apply Hne.
  - intros Hid. apply Hne.
    clear Hne. induction routes as [| x routes IH]; [destruct Hin |].
    simpl in Hnd. apply List.NoDup_cons_iff in Hnd as [Hx Hnd].
    destruct Hin as [-> | Hin], Hin0 as [-> | Hin0]; auto.
    + exfalso. apply Hx. rewrite Hid. now apply in_map.
    + exfalso. apply Hx. rewrite <- Hid. now apply in_map.
Qed.

Lemma key_unique (r1 r2 : SavedRoute) (routes : list SavedRoute) :
  List.NoDup (map routeKey routes) -> In r1 routes -> In r2 routes ->
  routeKey r1 = routeKey r2 -> r1 = r2.
Proof.
  induction routes as [| x routes IH]; intros Hnd H1 H2 Hk; [destruct H1 |].
  simpl in Hnd. apply List.NoDup_cons_iff in Hnd as [Hx Hnd].
  destruct H1 as [-> | H1], H2 as [-> | H2]; auto.
  - exfalso. apply Hx. rewrite Hk. now apply in_map.
  - exfalso. apply Hx. rewrite <- Hk. now apply in_map.
Qed.

Lemma toggle_noop api dest app :
  stayName (planner app) = None \/ stayName (planner app) = Some "" ->
  handleToggleDestination api dest app = app.
Proof.
  intros [H | H]; unfold handleToggleDestination; rewrite H; reflexivity.
Qed.

Lemma toggle_planner api dest app :
  planner (handleToggleDestination api dest app) = planner app.
Proof.
  unfold handleToggleDestination.
  destruct (stayName (planner app)) as [n |]; [| reflexivity].
  destruct (String.eqb n ""); reflexivity.
Qed.

Lemma toggle_routes api dest app n :
  stayName (planner app) = Some n -> n <> "" ->
  savedRoutes (handleToggleDestination api dest app) =
  match List.find (matches n dest) (savedRoutes app) with
  | Some existingRoute =>
      removeRoute api (AppContext.id existingRoute) (savedRoutes app)
  | None =>
      addRoute api {| data_origin := n; data_destination := stay_name dest;
                      data_stay := n |} (savedRoutes app)
  end.
Proof.
  intros Hn Hne. unfold handleToggleDestination. rewrite Hn.
  apply String.eqb_neq in Hne. rewrite Hne. reflexivity.
Qed.

Lemma removeRoute_deletes api i routes :
  deletes api ->
  removeRoute api i routes
  = List.filter (fun r => negb (String.eqb (AppContext.id r) i)) routes.
Proof. intros Hdel. unfold removeRoute. now rewrite Hdel. Qed.

Lemma addRoute_saved api d r routes :
  postSavedRoute api d = ApiOk r -> addRoute api d routes = r :: routes.
Proof. intros Hp. unfold addRoute. now rewrite Hp. Qed.

Lemma routeKey_cases (x y : SavedRoute) :
  routeKey x = routeKey y \/ routeKey x <> routeKey y.
Proof.
  destruct (decide (routeKey x = routeKey y)); [now left | now right].
Qed.

Lemma find_none_iff {A : Type} (f : A -> bool) (l : list A) :
  (forall x, In x l -> f x = false) -> List.find f l = None.
Proof.
  intros Hall. destruct (List.find f l) as [x |] eqn:Hf; [| reflexivity].
  apply List.find_some in Hf as [Hin Hfx]. rewrite (Hall x Hin) in Hfx.
  discriminate.
Qed.

(** C3, as stated, fails: two saved routes with the same (origin,
    destination) pair, which "reverse" produces from a route and its
    opposite, are both removed by two toggles. *)
Lemma toggle_twice_drops_twin :
  let app1 := handleToggleDestination (okBackend "r3") tigerPoint appWithTwin in
  let app2 := handleToggleDestination (okBackend "r4") tigerPoint app1 in
  stayName (planner appWithTwin) = Some "Fariyas Resort"
  /\ map routeKey (savedRoutes appWithTwin)
     = [("Fariyas Resort", "Tiger Point"); ("Fariyas Resort", "Tiger Point")]
  /\ savedRoutes app2 = []
  /\ routeKeys (savedRoutes app2) <> routeKeys (savedRoutes appWithTwin).
Proof.
  split; [reflexivity |]. split; [reflexivity |]. split; [reflexivity |].
  intros Heq.
  assert (Hin : ("Fariyas Resort", "Tiger Point")
                  ∈ routeKeys (savedRoutes appWithTwin)).
  { apply elem_of_routeKeys. exists routeStayToTiger. split; [| reflexivity].
    right. left. reflexivity. }
  rewrite <- Heq in Hin. apply elem_of_routeKeys in Hin as [r [[] _]].
Qed.

(** Two toggles, each answered before anything else happens: when the saved
    routes hold at most one route per (origin, destination) pair and per id,
    both backend requests succeed, and a saved route comes back with the
    posted pair under an unused id, the first toggle flips the presence of
    the pair and the second returns the saved routes to their original
    membership. *)
Lemma toggle_answered_twice :
  forall (api1 api2 : Backend) (dest : Stay) (app : App),
    List.NoDup (map routeKey (savedRoutes app)) ->
    List.NoDup (map AppContext.id (savedRoutes app)) ->
    savesFresh api1 (savedRoutes app) -> deletes api1 ->
    saves api2 -> deletes api2 ->
    let app1 := handleToggleDestination api1 dest app in
    let app2 := handleToggleDestination api2 dest app1 in
    routeKeys (savedRoutes app2) = routeKeys (savedRoutes app)
    /\ forall name0 : string,
         stayName (planner app) = Some name0 -> name0 <> "" ->
         ((name0, stay_name dest) ∈ routeKeys (savedRoutes app1)
          <-> (name0, stay_name dest) ∉ routeKeys (savedRoutes app)).
Proof.
  intros api1 api2 dest app Hkeys Hids Hpost1 Hdel1 Hpost2 Hdel2 app1 app2.
  subst app2 app1.
  destruct (stayName (planner app)) as [n |] eqn:Hn.
  2:{ rewrite !toggle_noop by (rewrite ?toggle_noop; auto).
      split; [reflexivity | intros ? [=]]. }
  destruct (String.eqb_spec n "") as [-> | Hne].
  { rewrite !toggle_noop by (rewrite ?toggle_noop; auto).
    split; [reflexivity |]. intros name0 [= <-] Hname. now contradiction Hname. }
  pose proof (toggle_planner api1 dest app) as Hp1.
  rewrite (toggle_routes api2 dest _ n) by (rewrite ?Hp1; assumption).
  rewrite (toggle_routes api1 dest app n) by assumption.
  destruct (List.find (matches n dest) (savedRoutes app)) as [r0 |] eqn:Hfind.
  - (* the pair is saved: remove it, then add it again *)
    apply List.find_some in Hfind as [Hin0 Hm0].
    apply matches_key in Hm0.
    rewrite !(removeRoute_deletes api1) by assumption.
    set (rest := List.filter _ (savedRoutes app)).
    assert (Hrest : forall r, In r rest <-> In r (savedRoutes app) /\ r <> r0)
      by (apply in_filter_unique; assumption).
    assert (Hnone : forall r, In r rest -> matches n dest r = false).
    { intros r Hr. apply Hrest in Hr as [Hr Hdiff].
      destruct (matches n dest r) eqn:Hm; [| reflexivity].
      apply matches_key in Hm. exfalso. apply Hdiff.
      apply (key_unique r r0 (savedRoutes app)); congruence. }
    assert (Hgone : (n, stay_name dest) ∉ routeKeys rest).
    { intros Hk. apply elem_of_routeKeys in Hk as [r [Hr Hk]].
      apply matches_key in Hk. rewrite (Hnone r Hr) in Hk. discriminate. }
    split.
    + rewrite (find_none_iff _ _ Hnone).
      destruct (Hpost2 {| data_origin := n; data_destination := stay_name dest;
                          data_stay := n |}) as [r [Hp [Ho Hd]]].
      rewrite (addRoute_saved _ _ _ _ Hp).
      simpl in Ho, Hd.
      apply set_eq. intros k. rewrite !elem_of_routeKeys. split.
      * intros [x [[<- | Hx] Hk]].
        -- exists r0. split; [assumption |]. rewrite Hm0, <- Hk.
           unfold routeKey. now rewrite Ho, Hd.
        -- exists x. split; [| assumption]. now apply Hrest in Hx.
      * intros [x [Hx Hk]].
        destruct (Hrest x) as [_ Hback].
        destruct (routeKey_cases x r0) as [Hsame | Hdiff].
        -- exists r. split; [now left |]. rewrite <- Hk, Hsame, Hm0.
           unfold routeKey. now rewrite Ho, Hd.
        -- exists x. split; [| assumption]. right. apply Hback.
           split; [assumption |]. intros ->. now apply Hdiff.
    + intros name0 [= <-] _. split; [intros Hk; contradiction |].
      intros Habs. exfalso. apply Habs. apply elem_of_routeKeys.
      exists r0. split; assumption.
  - (* the pair is not saved: add it, then remove it again *)
    pose proof (List.find_none _ _ Hfind) as Hnone.
    destruct (Hpost1 {| data_origin := n; data_destination := stay_name dest;
                        data_stay := n |}) as [r [Hp [Ho [Hd Hfresh]]]].
    rewrite !(addRoute_saved _ _ _ _ Hp).
    simpl in Ho, Hd.
    assert (Hmr : matches n dest r = true).
    { apply matches_key. unfold routeKey. now rewrite Ho, Hd. }
    split.
    + simpl. rewrite Hmr. unfold removeRoute. rewrite Hdel2. simpl.
      rewrite String.eqb_refl. simpl. now rewrite filter_fresh.
    + intros name0 [= <-] _. split.
      * intros _ Hk. apply elem_of_routeKeys in Hk as [x [Hx Hk]].
        apply matches_key in Hk. rewrite (Hnone x Hx) in Hk. discriminate.
      * intros _. apply elem_of_routeKeys. exists r. simpl.
        split; [now left |]. now apply matches_key.
Qed.

(** A click followed at once by the answer to its request is
    [handleToggleDestination]. *)
Lemma click_then_answer api dest app :
  acts (idle app) [Click dest; Answer api 0]
  = idle (handleToggleDestination api dest app).
Proof.
  unfold acts, idle, act, toggleRequest, handleToggleDestination. simpl.
  destruct (stayName (planner app)) as [n |]; [| destruct app; reflexivity].
  destruct (String.eqb n ""); [destruct app; reflexivity |].
  destruct (List.find (matches n dest) (savedRoutes app)); reflexivity.
Qed.

(** A click changes nothing on screen, so a second click before the answer
    sends the same request once more. *)
Lemma click_twice_sends_twice dest l request :
  toggleRequest dest (rendered l) = Some request ->
  acts l [Click dest; Click dest]
  = {| rendered := rendered l;
       pending := (pending l ++ [request; request])%list |}.
Proof.
  intros Hreq. unfold acts. simpl. rewrite Hreq. simpl. rewrite Hreq.
  now rewrite <- app_assoc.
Qed.

(** Two clicks on an attraction that is not saved, both before the first
    answer: both post the route, both posts are carried out, and the pair,
    absent before, is saved twice. *)
Lemma toggle_twice_in_flight_saves_twice :
  let l := acts (idle appAtStep3)
             [Click tigerPoint; Click tigerPoint;
              Answer (okBackend "r3") 0; Answer (okBackend "r4") 0] in
  savedRoutes appAtStep3 = []
  /\ pending l = []
  /\ map routeKey (savedRoutes (rendered l))
     = [("Fariyas Resort", "Tiger Point"); ("Fariyas Resort", "Tiger Point")].
Proof. repeat split. Qed.

(** C3, amended.  When the saved routes hold at most one route per (origin,
    destination) pair and per id, nothing is in flight, both backend
    requests succeed, a saved route comes back with the posted pair under
    an unused id, and the request of the first click is answered before the
    second click, then the first toggle flips the presence of the pair and
    the second returns the saved routes to their original membership, with
    nothing left in flight. *)
Theorem toggle_twice_restores_membership :
  forall (api1 api2 : Backend) (dest : Stay) (app : App),
    List.NoDup (map routeKey (savedRoutes app)) ->
    List.NoDup (map AppContext.id (savedRoutes app)) ->
    savesFresh api1 (savedRoutes app) -> deletes api1 ->
    saves api2 -> deletes api2 ->
    let l1 := acts (idle app) [Click dest; Answer api1 0] in
    let l2 := acts l1 [Click dest; Answer api2 0] in
    pending l1 = [] /\ pending l2 = []
    /\ routeKeys (savedRoutes (rendered l2)) = routeKeys (savedRoutes app)
    /\ forall name0 : string,
         stayName (planner app) = Some name0 -> name0 <> "" ->
         ((name0, stay_name dest) ∈ routeKeys (savedRoutes (rendered l1))
          <-> (name0, stay_name dest) ∉ routeKeys (savedRoutes app)).
Proof.
  intros api1 api2 dest app Hkeys Hids Hpost1 Hdel1 Hpost2 Hdel2 l1 l2.
  subst l2 l1. rewrite click_then_answer, click_then_answer. simpl.
  split; [reflexivity |]. split; [reflexivity |].
  exact (toggle_answered_twice api1 api2 dest app
           Hkeys Hids Hpost1 Hdel1 Hpost2 Hdel2).
Qed.

End Toggle.

(** ** Live navigation *)

Section Navigation.

Import MapService NavigationScreen.

Variable google : option GoogleMaps.
Variable parseCoordinates : string -> option LatLng.

Local Open Scope nat_scope.

Ltac io := unfold bind, ret, emit in *; simpl in *.

(** *** The turn-by-turn block *)

Lemma simulateProgress_index seen newPos s :
  currentStepIndex (simulateProgress google seen newPos s)
  = if advances google seen newPos
    then currentStepIndex s + 1 else currentStepIndex s.
Proof.
  unfold simulateProgress, advances.
  destruct (firstLeg (directions seen)) as [leg |]; [| reflexivity].
  destruct (steps leg !! currentStepIndex seen) as [stp |]; [| reflexivity].
  destruct (closeWithNext _ _ _); reflexivity.
Qed.

Lemma simulateProgress_frame seen newPos s :
  sameButTracking s (simulateProgress google seen newPos s)
  /\ currentTrip (simulateProgress google seen newPos s) = currentTrip s
  /\ userLocation (simulateProgress google seen newPos s) = userLocation s
  /\ mapRef (simulateProgress google seen newPos s) = mapRef s.
Proof.
  unfold simulateProgress, sameButTracking.
  destruct (firstLeg (directions seen)) as [leg |]; [| tauto].
  destruct (steps leg !! currentStepIndex seen) as [stp |]; [| tauto].
  destruct (closeWithNext _ _ _); simpl; tauto.
Qed.

(** What [advances] means. *)
Lemma advances_spec s newPos :
  advances google s newPos = true <->
  exists leg stp,
    firstLeg (directions s) = Some leg
    /\ steps leg !! currentStepIndex s = Some stp
    /\ (calculateDistance google (lat newPos) (lng newPos)
          (lat (end_location stp)) (lng (end_location stp)) < 40)%R
    /\ currentStepIndex s + 1 < length (steps leg).
Proof.
  unfold advances, closeWithNext. split.
  - destruct (firstLeg (directions s)) as [leg |]; [| discriminate].
    destruct (steps leg !! currentStepIndex s) as [stp |] eqn:Hstp;
      [| discriminate].
    intros H. apply andb_true_iff in H as [Hd Hn].
    exists leg, stp. split; [reflexivity |]. split; [exact Hstp |]. split.
    + destruct (Rlt_dec _ 40); [assumption | discriminate].
    + apply Z.ltb_lt in Hn. lia.
  - intros [leg [stp [-> [-> [Hd Hn]]]]].
    apply andb_true_iff. split.
    + destruct (Rlt_dec _ 40); [reflexivity | contradiction].
    + apply Z.ltb_lt. lia.
Qed.

(** *** Calls and frames of the handlers *)

Lemma directionsRequests_app log calls :
  directionsRequests (log ++ calls)
  = (directionsRequests log ++ directionsRequests calls)%list.
Proof. unfold directionsRequests. apply List.filter_app. Qed.

Lemma reverseGeocode_calls lat0 lng0 log :
  exists calls,
    snd (reverseGeocode google lat0 lng0 log) = (log ++ calls)%list
    /\ directionsRequests calls = [].
Proof.
  unfold reverseGeocode. destruct google as [g |].
  - io. destruct (geocoder g _) as [[[| r rs] |] ok]; io;
      try destruct ok; io; eexists; split; reflexivity.
  - exists []. io. now rewrite app_nil_r.
Qed.

(** The position callback: the state before the turn-by-turn block, and the
    calls issued. *)
Lemma onPosition_result seen newPos s log :
  exists s1 calls,
    onPosition google seen newPos s log
    = (simulateProgress google seen newPos s1, (log ++ calls)%list)
    /\ directionsRequests calls = []
    /\ sameButTracking s s1
    /\ currentStepIndex s1 = currentStepIndex s
    /\ userLocation s1 = Some newPos
    /\ mapRef s1 = (if isAutoCentering seen
                    then panTo newPos <$> mapRef s else mapRef s)
    /\ (from (currentTrip s1) = from (currentTrip s) ->
        currentTrip s1 = currentTrip s).
Proof.
  unfold onPosition.
  set (s0 := if isAutoCentering seen then _ else _).
  assert (H0 : sameButTracking s s0 /\ currentStepIndex s0 = currentStepIndex s
               /\ userLocation s0 = Some newPos
               /\ mapRef s0 = (if isAutoCentering seen
                               then panTo newPos <$> mapRef s else mapRef s)
               /\ currentTrip s0 = currentTrip s).
  { unfold s0, sameButTracking.
    destruct (isAutoCentering seen); simpl; [| repeat split; reflexivity].
    destruct (mapRef s) eqn:Hcam; simpl; rewrite ?Hcam;
      repeat split; reflexivity. }
  clearbody s0. destruct H0 as [Hsame [Hidx [Hloc [Hmap Htrip]]]].
  destruct (String.eqb (from (currentTrip seen)) "Current Location").
  - unfold bind.
    destruct (reverseGeocode_calls (lat newPos) (lng newPos) log)
      as [calls [Hcalls Hnone]].
    destruct (reverseGeocode google (lat newPos) (lng newPos) log)
      as [addr log'] eqn:Hrg.
    simpl in Hcalls. subst log'.
    destruct (String.eqb addr "") eqn:Haddr; io.
    + exists s0, calls. rewrite Htrip. tauto.
    + exists (setCurrentTrip (setFrom addr (currentTrip s0)) s0), calls.
      split; [reflexivity |]. split; [assumption |].
      unfold sameButTracking in *. simpl. rewrite Htrip.
      repeat split; try tauto.
      intros ->. destruct (currentTrip s); reflexivity.
  - io. exists s0, []. rewrite app_nil_r, Htrip. tauto.
Qed.

Lemma getPlaceDetails_calls placeId log :
  exists calls,
    snd (getPlaceDetails google placeId log) = (log ++ calls)%list
    /\ directionsRequests calls = [].
Proof.
  unfold getPlaceDetails. destruct google as [g |].
  - io. destruct (placesDetails g _) as [[pl |] status]; io;
      try destruct (isOK status); io; eexists; split; reflexivity.
  - exists []. io. now rewrite app_nil_r.
Qed.

(** No handler asks for directions. *)
Lemma handle_calls seen e s log :
  exists calls,
    snd (handle google seen e s log) = (log ++ calls)%list
    /\ directionsRequests calls = [].
Proof.
  destruct e; simpl;
    try (exists []; io; now rewrite app_nil_r).
  - destruct (onPosition_result seen newPos s log) as [s1 [calls [-> [Hc _]]]].
    exists calls. auto.
  - unfold handlePlaceSelect. unfold bind.
    destruct (getPlaceDetails_calls placeId log) as [calls [Hcalls Hnone]].
    destruct (getPlaceDetails google placeId log) as [place log'].
    simpl in Hcalls. subst log'. exists calls.
    destruct place as [[nm [loc |]] |]; io; auto.
  - destruct (waypoints s); exists []; io; now rewrite app_nil_r.
Qed.

(** Only the script loader writes [isLoaded], and it writes [true]. *)
Lemma handle_isLoaded seen e s log :
  isLoaded s = true -> isLoaded (fst (handle google seen e s log)) = true.
Proof.
  intros Hl. destruct e; simpl; try assumption; try reflexivity.
  - destruct (onPosition_result seen newPos s log)
      as [s1 [calls [-> [_ [Hsame _]]]]]. simpl.
    destruct (simulateProgress_frame seen newPos s1) as [Hf _].
    destruct Hf as [Hf _]. destruct Hsame as [Hs _]. now rewrite Hf, Hs.
  - unfold onPositionError. destruct (Nat.eqb code 1); simpl; assumption.
  - unfold recenterMap.
    destruct (mapRef s), (userLocation s); simpl; assumption.
  - unfold handlePlaceSelect, bind.
    destruct (getPlaceDetails google placeId log) as [place log'].
    destruct place as [[nm [loc |]] |]; io; assumption.
  - destruct (waypoints s); io; assumption.
Qed.

(** The route effect writes the directions, the map error and the trip
    metrics, nothing else. *)
Lemma fetchRoute_frame s log :
  let s' := fst (fetchRoute google parseCoordinates s log) in
  currentStepIndex s' = currentStepIndex s
  /\ currentTrip s' = currentTrip s
  /\ waypoints s' = waypoints s
  /\ isLoaded s' = isLoaded s
  /\ isAutoCentering s' = isAutoCentering s.
Proof.
  unfold fetchRoute.
  destruct (negb (isLoaded s) || _ || _); [io; repeat split; reflexivity |].
  unfold bind.
  destruct (getDirections google _ _ _ log) as [[res |] log'];
    [destruct (firstLeg (Some res)) |]; io; repeat split; reflexivity.
Qed.

Lemma routeEffect_frame prev s log :
  let s' := fst (routeEffect google parseCoordinates prev s log) in
  currentStepIndex s' = currentStepIndex s
  /\ currentTrip s' = currentTrip s
  /\ waypoints s' = waypoints s
  /\ isLoaded s' = isLoaded s
  /\ isAutoCentering s' = isAutoCentering s.
Proof.
  unfold routeEffect. destruct (routeDepsChanged prev s).
  - apply fetchRoute_frame.
  - io. repeat split; reflexivity.
Qed.

(** Only a position update moves the step pointer. *)
Lemma handle_index seen e s log :
  currentStepIndex (fst (handle google seen e s log))
  = match e with
    | PositionUpdate newPos =>
        if advances google seen newPos
        then currentStepIndex s + 1 else currentStepIndex s
    | _ => currentStepIndex s
    end.
Proof.
  destruct e; simpl; try reflexivity.
  - destruct (onPosition_result seen newPos s log)
      as [s1 [calls [-> [_ [_ [Hidx _]]]]]]. simpl.
    now rewrite simulateProgress_index, Hidx.
  - unfold onPositionError. destruct (Nat.eqb code 1); reflexivity.
  - unfold recenterMap. destruct (mapRef s), (userLocation s); reflexivity.
  - unfold handlePlaceSelect, bind.
    destruct (getPlaceDetails google placeId log) as [place log'].
    destruct place as [[nm [loc |]] |]; reflexivity.
  - destruct (waypoints s); reflexivity.
Qed.

Lemma step_index m e log :
  currentStepIndex (current (fst (step google parseCoordinates m e log)))
  = match e with
    | PositionUpdate newPos =>
        if advances google (seen m) newPos
        then currentStepIndex (current m) + 1 else currentStepIndex (current m)
    | _ => currentStepIndex (current m)
    end.
Proof.
  unfold step, bind.
  pose proof (handle_index (seen m) e (current m) log) as Hh.
  destruct (handle google (seen m) e (current m) log) as [s1 log1].
  pose proof (routeEffect_frame (current m) s1 log1) as [Hr _].
  destruct (routeEffect google parseCoordinates (current m) s1 log1)
    as [s2 log2].
  simpl in *. now rewrite Hr, Hh.
Qed.

(** *** The position callback is never stale on what it reads *)

Lemma watchDeps_same prev s :
  watchDepsChanged prev s = false ->
  isAutoCentering prev = isAutoCentering s
  /\ directions prev = directions s
  /\ currentStepIndex prev = currentStepIndex s.
Proof.
  unfold watchDepsChanged. rewrite negb_false_iff, !andb_true_iff.
  intros [[Ha Hd] Hi].
  apply Bool.eqb_prop in Ha. apply bool_decide_eq_true in Hd.
  apply Nat.eqb_eq in Hi. auto.
Qed.

Lemma resubscribe_sync prev s closure :
  (isAutoCentering closure = isAutoCentering prev
   /\ directions closure = directions prev
   /\ currentStepIndex closure = currentStepIndex prev) ->
  isAutoCentering (resubscribe prev s closure) = isAutoCentering s
  /\ directions (resubscribe prev s closure) = directions s
  /\ currentStepIndex (resubscribe prev s closure) = currentStepIndex s.
Proof.
  intros [Ha [Hd Hi]]. unfold resubscribe.
  destruct (watchDepsChanged prev s) eqn:Hw; [repeat split; reflexivity |].
  apply watchDeps_same in Hw as [Ha' [Hd' Hi']].
  rewrite Ha, Hd, Hi. auto.
Qed.

Lemma step_inSync m e log :
  inSync m -> inSync (fst (step google parseCoordinates m e log)).
Proof.
  intros Hsync. unfold step, bind.
  destruct (handle google (seen m) e (current m) log) as [s1 log1].
  destruct (routeEffect google parseCoordinates (current m) s1 log1)
    as [s2 log2].
  unfold inSync. simpl.
  apply resubscribe_sync. apply resubscribe_sync. exact Hsync.
Qed.

Lemma mount_inSync tripDetails loaded log :
  inSync (fst (mount google parseCoordinates tripDetails loaded log)).
Proof.
  unfold mount, bind.
  destruct (fetchRoute google parseCoordinates _ log) as [s1 log1].
  unfold inSync. simpl. apply resubscribe_sync. auto.
Qed.

Lemma steps_from_inSync es : forall m log,
  inSync m -> inSync (fst (steps_from google parseCoordinates m es log)).
Proof.
  induction es as [| e es IH]; intros m log Hsync; simpl; [assumption |].
  unfold bind.
  pose proof (step_inSync m e log Hsync) as Hs.
  destruct (step google parseCoordinates m e log) as [m' log'].
  apply IH. exact Hs.
Qed.

Lemma reachable_inSync m : reachable google parseCoordinates m -> inSync m.
Proof.
  intros [tripDetails [loaded [es [log0 <-]]]]. unfold bind.
  pose proof (mount_inSync tripDetails loaded log0) as Hm.
  destruct (mount google parseCoordinates tripDetails loaded log0)
    as [m0 log1].
  apply steps_from_inSync. exact Hm.
Qed.

Lemma advances_sync m newPos :
  inSync m ->
  advances google (seen m) newPos = advances google (current m) newPos.
Proof.
  intros [_ [Hd Hi]]. unfold advances. now rewrite Hd, Hi.
Qed.

(** The step pointer never decreases, whatever happens. *)
Lemma steps_from_monotone es : forall m log,
  currentStepIndex (current m)
  <= currentStepIndex
       (current (fst (steps_from google parseCoordinates m es log))).
Proof.
  induction es as [| e es IH]; intros m log; simpl; [lia |].
  unfold bind.
  pose proof (step_index m e log) as Hs.
  destruct (step google parseCoordinates m e log) as [m' log'].
  simpl in Hs. specialize (IH m' log').
  destruct e; try (rewrite Hs in IH; exact IH).
  destruct (advances google (seen m) newPos); lia.
Qed.

(** A position update handled in one piece leaves the step pointer or adds
    one to it; it adds one exactly when the current step exists, the
    distance from the new position to its end coordinate is below 40 m and
    a next step exists in the leg; and no sequence of events handled in one
    piece ever moves the pointer backward. *)
Lemma pointer_in_one_piece :
  forall (m : Mounted) (newPos : LatLng) (log : list Call),
    reachable google parseCoordinates m ->
    let i := currentStepIndex (current m) in
    let i' :=
      currentStepIndex
        (current (fst (step google parseCoordinates m (PositionUpdate newPos) log))) in
    i <= i' <= i + 1
    /\ (i' = i + 1 <->
        exists leg stp,
          firstLeg (directions (current m)) = Some leg
          /\ steps leg !! i = Some stp
          /\ (calculateDistance google (lat newPos) (lng newPos)
                (lat (end_location stp)) (lng (end_location stp)) < 40)%R
          /\ i + 1 < length (steps leg))
    /\ (forall (es : list Event) (log' : list Call),
          i <= currentStepIndex
                 (current (fst (steps_from google parseCoordinates m es log')))).
Proof.
  intros m newPos log Hreach i i'.
  apply reachable_inSync in Hreach.
  assert (Hi' : i' = if advances google (current m) newPos then i + 1 else i).
  { unfold i'. rewrite step_index. now rewrite advances_sync. }
  pose proof (advances_spec (current m) newPos) as Hspec. fold i in Hspec.
  split; [| split].
  - rewrite Hi'. destruct (advances google (current m) newPos); lia.
  - rewrite <- Hspec, Hi'.
    destruct (advances google (current m) newPos); split; intros H;
      try reflexivity; try lia; discriminate.
  - intros es log'. apply steps_from_monotone.
Qed.

(** *** When a route is requested *)

Lemma routeDeps_changed prev s :
  routeDepsChanged prev s = true -> isLoaded prev = isLoaded s ->
  from (currentTrip s) <> from (currentTrip prev)
  \/ to (currentTrip s) <> to (currentTrip prev)
  \/ waypoints s <> waypoints prev.
Proof.
  unfold routeDepsChanged. intros H Hl. rewrite Hl, Bool.eqb_reflx in H.
  simpl in H. apply negb_true_iff in H.
  destruct (String.eqb_spec (from (currentTrip prev)) (from (currentTrip s)))
    as [Hf | Hf]; [| left; congruence].
  destruct (String.eqb_spec (to (currentTrip prev)) (to (currentTrip s)))
    as [Ht | Ht]; [| right; left; congruence].
  simpl in H. apply bool_decide_eq_false in H. right. right. congruence.
Qed.

Lemma routeDeps_same prev s :
  isLoaded prev = isLoaded s ->
  from (currentTrip prev) = from (currentTrip s) ->
  to (currentTrip prev) = to (currentTrip s) ->
  waypoints prev = waypoints s ->
  routeDepsChanged prev s = false.
Proof.
  intros Hl Hf Ht Hw. unfold routeDepsChanged.
  rewrite Hl, Hf, Ht, Hw, Bool.eqb_reflx, !String.eqb_refl.
  rewrite bool_decide_eq_true_2 by reflexivity. reflexivity.
Qed.

Lemma sameButTracking_trans s1 s2 s3 :
  sameButTracking s1 s2 -> sameButTracking s2 s3 -> sameButTracking s1 s3.
Proof.
  unfold sameButTracking. intros H12 H23.
  repeat match goal with H : _ /\ _ |- _ => destruct H end.
  repeat split; congruence.
Qed.

(** A position callback created while the origin was not 'Current Location'
    leaves the origin as it is. *)
Lemma position_keeps_origin m newPos log :
  from (currentTrip (seen m)) <> "Current Location" ->
  currentTrip
    (current (fst (step google parseCoordinates m (PositionUpdate newPos) log)))
  = currentTrip (current m).
Proof.
  intros Hfrom. apply String.eqb_neq in Hfrom.
  unfold step, bind. simpl. unfold onPosition. rewrite Hfrom. io.
  set (s0 := if isAutoCentering (seen m) then _ else _).
  assert (H0 : currentTrip s0 = currentTrip (current m)).
  { unfold s0. destruct (isAutoCentering (seen m)); [| reflexivity]. simpl.
    destruct (mapRef (current m)); reflexivity. }
  clearbody s0.
  destruct (simulateProgress_frame (seen m) newPos s0) as [_ [Htrip _]].
  pose proof (routeEffect_frame (current m)
                (simulateProgress google (seen m) newPos s0) log)
    as [_ [Hrt _]].
  destruct (routeEffect google parseCoordinates (current m)
              (simulateProgress google (seen m) newPos s0) log) as [s2 log2].
  simpl in *. congruence.
Qed.

(** C4. Once the script is loaded, a step of the navigation screen issues a
    directions request only if it changes the origin, the destination or the
    waypoint sequence.  A position update never changes the destination or
    the waypoints; one that leaves the origin as it is issues no directions
    request and only writes the user location, the camera (when
    auto-centering), the distance text and the step pointer. *)
Theorem route_requested_only_on_change :
  forall (m : Mounted) (e : Event) (log : list Call),
    isLoaded (current m) = true ->
    let r := step google parseCoordinates m e log in
    let s := current m in
    let s' := current (fst r) in
    (directionsRequests (snd r) <> directionsRequests log ->
     from (currentTrip s') <> from (currentTrip s)
     \/ to (currentTrip s') <> to (currentTrip s)
     \/ waypoints s' <> waypoints s)
    /\ (forall newPos : LatLng,
          e = PositionUpdate newPos ->
          to (currentTrip s') = to (currentTrip s)
          /\ waypoints s' = waypoints s
          /\ (from (currentTrip s') = from (currentTrip s) ->
              directionsRequests (snd r) = directionsRequests log
              /\ sameButTracking s s'
              /\ currentTrip s' = currentTrip s
              /\ userLocation s' = Some newPos
              /\ mapRef s' = (if isAutoCentering (seen m)
                              then panTo newPos <$> mapRef s else mapRef s)
              /\ currentStepIndex s'
                 = if advances google (seen m) newPos
                   then currentStepIndex s + 1 else currentStepIndex s)).
Proof.
  intros m e log Hloaded r s s'. subst r s s'. unfold step, bind.
  pose proof (handle_calls (seen m) e (current m) log) as [calls [Hcalls Hnone]].
  pose proof (handle_isLoaded (seen m) e (current m) log Hloaded) as Hl1.
  destruct (handle google (seen m) e (current m) log) as [s1 log1] eqn:Hh.
  simpl in Hcalls, Hl1. subst log1.
  pose proof (routeEffect_frame (current m) s1 (log ++ calls)%list)
    as [Hri [Hrt [Hrw _]]].
  unfold routeEffect in *.
  destruct (routeDepsChanged (current m) s1) eqn:Hdeps.
  - (* a dependency of the route effect changed *)
    destruct (fetchRoute google parseCoordinates s1 (log ++ calls)%list)
      as [s2 log2]. simpl in *. split.
    + intros _. rewrite Hrt, Hrw.
      apply routeDeps_changed; [assumption | congruence].
    + intros newPos ->. simpl in Hh.
      destruct (onPosition_result (seen m) newPos (current m) log)
        as [s0 [calls0 [Hpos [_ [Hsame [_ [_ [_ Htrip]]]]]]]].
      rewrite Hpos in Hh. injection Hh as <- _.
      destruct (simulateProgress_frame (seen m) newPos s0)
        as [Hsame2 [Htrip2 _]].
      pose proof (sameButTracking_trans _ _ _ Hsame Hsame2) as Hall.
      unfold sameButTracking in Hall.
      destruct Hall as (Hl & _ & _ & _ & _ & _ & _ & Hto & _ & _ & _ & Hw & _).
      rewrite Hrt, Hrw. split; [assumption |]. split; [assumption |].
      intros Hfrom. exfalso.
      rewrite routeDeps_same in Hdeps; [discriminate | congruence | | | ];
        congruence.
  - (* no dependency changed: the effect does not run *)
    io. split.
    + intros Hreq. exfalso. apply Hreq.
      now rewrite directionsRequests_app, Hnone, app_nil_r.
    + intros newPos ->. simpl in Hh.
      destruct (onPosition_result (seen m) newPos (current m) log)
        as [s0 [calls0 [Hpos [_ [Hsame [Hidx [Hloc [Hmap Htrip]]]]]]]].
      rewrite Hpos in Hh. injection Hh as <- _.
      destruct (simulateProgress_frame (seen m) newPos s0)
        as [Hsame2 [Htrip2 [Hloc2 Hmap2]]].
      pose proof (sameButTracking_trans _ _ _ Hsame Hsame2) as Hall.
      assert (Hto : to (currentTrip (simulateProgress google (seen m) newPos s0))
                    = to (currentTrip (current m))
                    /\ waypoints (simulateProgress google (seen m) newPos s0)
                       = waypoints (current m)).
      { unfold sameButTracking in Hall. tauto. }
      destruct Hto as [Hto Hw]. split; [assumption |]. split; [assumption |].
      intros Hfrom.
      rewrite directionsRequests_app, Hnone, app_nil_r.
      split; [reflexivity |]. split; [assumption |].
      rewrite Htrip2 in *. rewrite Hloc2, Hmap2, simulateProgress_index, Hidx.
      repeat split; auto.
Qed.

End Navigation.

Section OriginRewritten.

Import MapService NavigationScreen.

Ltac io := unfold bind, ret, emit in *; simpl in *.

Lemma waypoints_copy (ws : list Waypoint) :
  map (fun wp => {| location := location wp; stopover := stopover wp |}) ws = ws.
Proof.
  induction ws as [| [loc stop] ws IH]; simpl; [reflexivity | now rewrite IH].
Qed.

(** While the callback sees the origin 'Current Location', a position whose
    address differs from the origin rewrites the origin and, the script
    being loaded and the destination set, a route is requested from the
    address. *)
Lemma position_rewrites_origin g parseCoordinates m newPos log addr others :
  geocoder g newPos = (Some ({| formatted_address := addr |} :: others), true) ->
  addr <> "" ->
  from (currentTrip (seen m)) = "Current Location" ->
  isLoaded (current m) = true ->
  to (currentTrip (current m)) <> "" ->
  from (currentTrip (current m)) <> addr ->
  directionsRequests
    (snd (step (Some g) parseCoordinates m (PositionUpdate newPos) log))
  = (directionsRequests log
     ++ [DirectionsRequest (resolveLoc parseCoordinates addr)
           (resolveLoc parseCoordinates (to (currentTrip (current m))))
           (waypoints (current m))])%list.
Proof.
  intros Hgeo Haddr Hseen Hloaded Hto Hfrom.
  apply String.eqb_neq in Haddr, Hto, Hfrom.
  unfold step, bind. simpl. unfold onPosition.
  rewrite Hseen, String.eqb_refl.
  set (s0 := if isAutoCentering (seen m) then _ else _).
  assert (H0 : currentTrip s0 = currentTrip (current m)
               /\ isLoaded s0 = isLoaded (current m)
               /\ waypoints s0 = waypoints (current m)).
  { unfold s0. destruct (isAutoCentering (seen m)); simpl;
      [destruct (mapRef (current m)) |]; repeat split; reflexivity. }
  clearbody s0. destruct H0 as [Htrip0 [Hl0 Hw0]].
  unfold bind, reverseGeocode. io.
  destruct newPos as [la lo]. simpl. rewrite Hgeo. io. rewrite Haddr. io.
  set (s1 := setCurrentTrip _ s0).
  destruct (simulateProgress_frame (Some g) (seen m)
              {| lat := la; lng := lo |} s1)
    as [Hsame [Htrip _]].
  unfold sameButTracking in Hsame.
  destruct Hsame as (Hl & _ & _ & _ & _ & _ & _ & _ & _ & _ & _ & Hw & _).
  set (s2 := simulateProgress (Some g) (seen m) {| lat := la; lng := lo |} s1)
    in *.
  assert (Hf2 : from (currentTrip s2) = addr) by (rewrite Htrip; reflexivity).
  assert (Ht2 : to (currentTrip s2) = to (currentTrip (current m)))
    by (rewrite Htrip; simpl; now rewrite Htrip0).
  assert (Hl2 : isLoaded s2 = true) by (rewrite Hl; simpl; congruence).
  assert (Hw2 : waypoints s2 = waypoints (current m))
    by (rewrite Hw; simpl; congruence).
  unfold routeEffect, routeDepsChanged.
  rewrite Hf2, Hfrom, andb_false_r. simpl.
  unfold fetchRoute. rewrite Hl2, Hf2, Ht2, Hw2, Haddr, Hto. cbn [negb orb].
  unfold bind, getDirections, emit, ret. rewrite waypoints_copy.
  destruct (directionsService g _ _ _) as [[res |] ok];
    [destruct ok |]; unfold bind; cbn beta iota;
    [destruct (firstLeg (Some res)) | |]; cbn [snd];
    rewrite !directionsRequests_app; simpl; now rewrite app_nil_r.
Qed.

End OriginRewritten.

Section WaitingCallbacks.

Import MapService NavigationScreen.

Variable google : option GoogleMaps.
Variable parse : string -> option LatLng.

Local Open Scope nat_scope.

Ltac io := unfold bind, ret, emit in *; simpl in *.

(** What the callback writes before it waits: the user location and the
    camera. *)
Lemma onPositionStart_frame seen newPos s :
  let s' := onPositionStart seen newPos s in
  isLoaded s' = isLoaded s /\ currentTrip s' = currentTrip s
  /\ waypoints s' = waypoints s /\ directions s' = directions s
  /\ isAutoCentering s' = isAutoCentering s
  /\ currentStepIndex s' = currentStepIndex s.
Proof.
  unfold onPositionStart. destruct (isAutoCentering seen); simpl;
    [destruct (mapRef s) |]; repeat split; reflexivity.
Qed.

Lemma onPositionResume_index seen newPos addr s :
  currentStepIndex (onPositionResume google seen newPos addr s)
  = if advances google seen newPos
    then currentStepIndex s + 1 else currentStepIndex s.
Proof.
  unfold onPositionResume. rewrite simulateProgress_index.
  destruct addr as [text |]; [destruct (String.eqb text "") |]; reflexivity.
Qed.


Lemma render_index prev cl s1 log :
  currentStepIndex (current (fst (render google parse prev cl s1 log)))
  = currentStepIndex s1.
Proof.
  unfold render, bind.
  pose proof (routeEffect_frame google parse prev s1 log) as [Hidx _].
  destruct (routeEffect google parse prev s1 log) as [s2 log2]. exact Hidx.
Qed.

Lemma render_inSync prev cl s1 log :
  inSync {| current := prev; seen := cl |} ->
  inSync (fst (render google parse prev cl s1 log)).
Proof.
  intros Hsync. unfold render, bind.
  destruct (routeEffect google parse prev s1 log) as [s2 log2].
  unfold inSync. simpl.
  apply resubscribe_sync. apply resubscribe_sync. exact Hsync.
Qed.

(** A step is its handler followed by a render. *)
Lemma step_render m e log :
  step google parse m e log
  = (do s1 <- handle google (seen m) e (current m);
     render google parse (current m) (seen m) s1)%io log.
Proof. reflexivity. Qed.

(** The pointer after a tick: only the callback the tick brings to its
    end can move it, by the test it makes in the render it was created
    in. *)
Lemma tick_index r t log :
  currentStepIndex (current (shown (fst (tick google parse r t log))))
  = match completes google r t with
    | Some w =>
        if advances google (closure w) (position w)
        then currentStepIndex (current (shown r)) + 1
        else currentStepIndex (current (shown r))
    | None => currentStepIndex (current (shown r))
    end.
Proof.
  destruct t as [e | k]; simpl.
  - assert (Hstep : forall e',
               currentStepIndex
                 (current (shown (fst ((do m' <- step google parse (shown r) e';
                                        ret {| shown := m';
                                               waiting := waiting r |})%io log))))
               = currentStepIndex
                   (current (fst (step google parse (shown r) e' log)))).
    { intros e'. unfold bind.
      destruct (step google parse (shown r) e' log). reflexivity. }
    destruct e; try (rewrite Hstep, step_index; reflexivity).
    destruct (waitsFor google (shown r)) as [g |].
    + unfold bind, emit.
      pose proof (render_index (current (shown r)) (seen (shown r))
                    (onPositionStart (seen (shown r)) newPos (current (shown r)))
                    (log ++ [GeocodeRequest {| lat := lat newPos;
                                               lng := lng newPos |}])%list)
        as Hr.
      destruct (render google parse _ _ _ _) as [m' log']. simpl in *.
      rewrite Hr.
      now destruct (onPositionStart_frame (seen (shown r)) newPos
                      (current (shown r))) as (_ & _ & _ & _ & _ & ->).
    + rewrite Hstep, step_index. reflexivity.
  - destruct google as [g |] eqn:Hg; [| reflexivity].
    destruct (waiting r !! k) as [w |]; [| reflexivity].
    unfold bind.
    pose proof (render_index (current (shown r)) (seen (shown r))
                  (onPositionResume (Some g) (closure w) (position w)
                     (Some (resolvedAddress g {| lat := lat (position w);
                                                 lng := lng (position w) |}))
                     (current (shown r))) log) as Hr.
    rewrite Hg in Hr.
    destruct (render (Some g) parse _ _ _ _) as [m' log']. simpl in *.
    rewrite Hr. rewrite <- Hg. rewrite onPositionResume_index. now rewrite Hg.
Qed.

Lemma tick_inSync r t log :
  inSync (shown r) -> inSync (shown (fst (tick google parse r t log))).
Proof.
  intros Hsync.
  assert (Hstep : forall e,
             inSync (shown (fst ((do m' <- step google parse (shown r) e;
                                  ret {| shown := m';
                                         waiting := waiting r |})%io log)))).
  { intros e. unfold bind.
    pose proof (step_inSync google parse (shown r) e log Hsync) as Hs.
    destruct (step google parse (shown r) e log). exact Hs. }
  assert (Hrender : forall s1 log1 ws,
             inSync (shown (fst ((do m' <- render google parse
                                             (current (shown r))
                                             (seen (shown r)) s1;
                                  ret {| shown := m'; waiting := ws |})%io
                                   log1)))).
  { intros s1 log1 ws. unfold bind.
    pose proof (render_inSync (current (shown r)) (seen (shown r)) s1 log1)
      as Hs.
    destruct (render google parse _ _ s1 log1). apply Hs.
    destruct (shown r). exact Hsync. }
  destruct t as [e | k]; simpl.
  - destruct e; try apply Hstep.
    destruct (waitsFor google (shown r)); [| apply Hstep].
    unfold bind at 1, emit. apply Hrender.
  - destruct google as [g |]; [| exact Hsync].
    destruct (waiting r !! k) as [w |]; [| exact Hsync].
    apply Hrender.
Qed.

Lemma ticks_inSync ts : forall r log,
  inSync (shown r) -> inSync (shown (fst (ticks google parse r ts log))).
Proof.
  induction ts as [| t ts IH]; intros r log Hsync; simpl; [assumption |].
  unfold bind.
  pose proof (tick_inSync r t log Hsync) as Hs.
  destruct (tick google parse r t log) as [r' log']. now apply IH.
Qed.

Lemma inPlay_inSync r : inPlay google parse r -> inSync (shown r).
Proof.
  intros [tripDetails [loaded [ts [log0 <-]]]]. unfold bind.
  pose proof (mount_inSync google parse tripDetails loaded log0) as Hm.
  destruct (mount google parse tripDetails loaded log0) as [m0 log1].
  apply ticks_inSync. exact Hm.
Qed.




End WaitingCallbacks.

Lemma route_requested_only_on_change_witness :
  NavigationScreen.directionsRequests
    (snd (NavigationScreen.step (Some sampleGoogle) noCoordinates
            sampleMounted (NavigationScreen.PositionUpdate samplePosition) []))
  = NavigationScreen.directionsRequests [].
Proof.
  destruct (route_requested_only_on_change (Some sampleGoogle) noCoordinates
              sampleMounted (NavigationScreen.PositionUpdate samplePosition)
              [] eq_refl) as [_ Hposition].
  destruct (Hposition samplePosition eq_refl) as [_ [_ Hquiet]].
  apply Hquiet.
  rewrite position_keeps_origin; [reflexivity |].
  simpl. discriminate.
Defined.

Lemma toggle_twice_restores_membership_witness :
  let l1 := PlannerScreen.acts (PlannerScreen.idle appOneRoute)
              [PlannerScreen.Click tigerPoint;
               PlannerScreen.Answer (okBackend "r3") 0] in
  let l2 := PlannerScreen.acts l1
              [PlannerScreen.Click tigerPoint;
               PlannerScreen.Answer (okBackend "r4") 0] in
  map PlannerScreen.routeKey (PlannerScreen.savedRoutes (PlannerScreen.rendered l1))
  = [("Fariyas Resort", "Tiger Point"); ("Tiger Point", "Fariyas Resort")]
  /\ PlannerScreen.routeKeys (PlannerScreen.savedRoutes (PlannerScreen.rendered l2))
     = PlannerScreen.routeKeys (PlannerScreen.savedRoutes appOneRoute).
Proof.
  split; [reflexivity |].
  refine (proj1 (proj2 (proj2 (toggle_twice_restores_membership
                   (okBackend "r3") (okBackend "r4") tigerPoint appOneRoute
                   _ _ _ _ _ _)))).
  - repeat constructor. simpl. tauto.
  - repeat constructor. simpl. tauto.
  - intros d. eexists. repeat split. simpl. intros [H | []]. discriminate H.
  - intros i. reflexivity.
  - intros d. eexists. repeat split.
  - intros i. reflexivity.
Defined.

(** ** The navigation model at work *)

Section NavigationExamples.

Import MapService NavigationScreen.

Local Open Scope nat_scope.

(** At the end coordinate of the first of two steps, the pointer moves from
    step 0 to step 1. *)
Example sample_update_advances :
  currentStepIndex (current sampleMounted) = 0
  /\ currentStepIndex
       (current (fst (step (Some sampleGoogle) noCoordinates sampleMounted
                        (PositionUpdate samplePosition) [])))
     = 1.
Proof.
  split; [reflexivity |].
  rewrite step_index.
  assert (Hadv : advances (Some sampleGoogle) (seen sampleMounted) samplePosition
                 = true).
  { apply advances_spec. exists sampleLeg. eexists.
    split; [reflexivity |]. split; [reflexivity |]. split.
    - simpl. rewrite calculateDistance_unfold, haversine_a_same.
      rewrite Rminus_0_r, sqrt_0, sqrt_1, atan2_0_1. lra.
    - simpl. lia. }
  rewrite Hadv. reflexivity.
Qed.

(** While the origin is 'Current Location', a position update rewrites it
    to the address of the position, and the route is requested again. *)
Example current_location_update_requests_route :
  from (currentTrip (current mountedFromHere)) = "Current Location"
  /\ directionsRequests
       (snd (step (Some sampleGoogle) noCoordinates mountedFromHere
               (PositionUpdate samplePosition) []))
     = [DirectionsRequest (LocText "MG Road, Pune") (LocText "Lonavala") []].
Proof.
  split; [reflexivity |].
  rewrite (position_rewrites_origin sampleGoogle noCoordinates mountedFromHere
             samplePosition [] "MG Road, Pune" []);
    try reflexivity; simpl; discriminate.
Qed.

End NavigationExamples.

(** ** Position callbacks that overlap *)

Section OverlappingCallbacks.

Import MapService NavigationScreen.

Local Open Scope nat_scope.

Ltac io := unfold bind, ret, emit in *; simpl in *.

Lemma watchDeps_unchanged prev s :
  isAutoCentering prev = isAutoCentering s ->
  directions prev = directions s ->
  currentStepIndex prev = currentStepIndex s ->
  watchDepsChanged prev s = false.
Proof.
  intros Ha Hd Hi. unfold watchDepsChanged.
  rewrite Ha, Hd, Hi, Bool.eqb_reflx, Nat.eqb_refl.
  rewrite bool_decide_eq_true_2 by reflexivity. reflexivity.
Qed.

(** What the two effects do depends on the render before only through
    their dependencies. *)
Lemma render_same_dependencies google parse prev prev' cl s1 log :
  isLoaded prev' = isLoaded prev ->
  currentTrip prev' = currentTrip prev ->
  waypoints prev' = waypoints prev ->
  isAutoCentering prev' = isAutoCentering prev ->
  directions prev' = directions prev ->
  currentStepIndex prev' = currentStepIndex prev ->
  render google parse prev' cl s1 log = render google parse prev cl s1 log.
Proof.
  intros Hl Ht Hw Ha Hd Hi.
  unfold render, routeEffect, routeDepsChanged, resubscribe, watchDepsChanged.
  now rewrite Hl, Ht, Hw, Ha, Hd, Hi.
Qed.

(** A position callback that waits: it records the position, moves the
    camera and asks for the address; the render that follows runs no
    effect. *)
Lemma tick_waits g parse r newPos log :
  from (currentTrip (seen (shown r))) = "Current Location" ->
  tick (Some g) parse r (Happens (PositionUpdate newPos)) log
  = ({| shown :=
          {| current := onPositionStart (seen (shown r)) newPos
                          (current (shown r));
             seen := seen (shown r) |};
        waiting := (waiting r ++ [{| closure := seen (shown r);
                                     position := newPos |}])%list |},
     (log ++ [GeocodeRequest {| lat := lat newPos; lng := lng newPos |}])%list).
Proof.
  intros Hfrom. unfold tick, waitsFor. rewrite Hfrom, String.eqb_refl.
  destruct (onPositionStart_frame (seen (shown r)) newPos (current (shown r)))
    as (Hl & Ht & Hw & Hd & Ha & Hi).
  unfold bind, emit, render, routeEffect.
  rewrite routeDeps_same by (rewrite ?Ht; auto).
  unfold bind, ret, resubscribe.
  rewrite !watchDeps_unchanged by auto. reflexivity.
Qed.


(** The position callback is its start, the address and its end. *)
Lemma onPosition_in_two g seen newPos s log :
  from (currentTrip seen) = "Current Location" ->
  onPosition (Some g) seen newPos s log
  = (onPositionResume (Some g) seen newPos
       (Some (resolvedAddress g {| lat := lat newPos; lng := lng newPos |}))
       (onPositionStart seen newPos s),
     (log ++ [GeocodeRequest {| lat := lat newPos; lng := lng newPos |}])%list).
Proof.
  intros Hfrom. unfold onPosition, onPositionResume, onPositionStart.
  rewrite Hfrom, String.eqb_refl.
  unfold reverseGeocode, resolvedAddress.
  destruct (geocoder g _) as [[[| res rest] |] ok];
    [| destruct ok; [destruct (String.eqb (formatted_address res) "") eqn:He |]
     |];
    unfold bind, emit, ret; cbn beta iota; rewrite ?He; reflexivity.
Qed.

(** A callback that waits and is answered before anything else happens is
    the position update handled in one piece. *)
Lemma wait_then_answer g parse r newPos log :
  from (currentTrip (seen (shown r))) = "Current Location" ->
  ticks (Some g) parse r
    [Happens (PositionUpdate newPos); AddressArrives (length (waiting r))] log
  = (let '(m', log') := step (Some g) parse (shown r) (PositionUpdate newPos) log in
     ({| shown := m'; waiting := waiting r |}, log')).
Proof.
  intros Hfrom. cbn [ticks]. unfold bind at 1.
  rewrite (tick_waits g parse r newPos log Hfrom).
  unfold bind at 1. unfold tick. cbn [shown waiting current seen].
  rewrite lookup_app_r by reflexivity. rewrite Nat.sub_diag.
  change ([{| closure := seen (shown r); position := newPos |}] !! 0)
    with (Some {| closure := seen (shown r); position := newPos |}).
  cbn beta iota. cbn [closure position].
  rewrite step_render. unfold bind at 2. cbn [handle].
  rewrite (onPosition_in_two g _ newPos _ log Hfrom).
  destruct (onPositionStart_frame (seen (shown r)) newPos (current (shown r)))
    as (Hl & Ht & Hw & Hd & Ha & Hi).
  unfold bind.
  rewrite (render_same_dependencies (Some g) parse (current (shown r))
             (onPositionStart (seen (shown r)) newPos (current (shown r))))
    by assumption.
  destruct (render (Some g) parse _ _ _ _) as [m' log']. unfold ret.
  f_equal. f_equal.
  rewrite delete_middle. apply app_nil_r.
Qed.






End OverlappingCallbacks.



(** * Further properties *)

(** ** The trip controller: lookups that fail, and requests of the owner *)

Section TripRequests.

Import TripController.

Lemma missing_trip_lookup fails req (db : gmap string Trip) :
  fails FindById = false -> db !! params_id req = None ->
  updateTrip fails req db
  = ({| code := 404; payload := Message "Trip not found" |}, db)
  /\ deleteTrip fails req db
     = ({| code := 404; payload := Message "Trip not found" |}, db).
Proof.
  intros Hup Hnone.
  unfold updateTrip, deleteTrip, findById. rewrite Hup, Hnone. split; reflexivity.
Qed.

Lemma owner_update_lookup fails req (db : gmap string Trip) trip :
  fails FindById = false -> fails FindByIdAndUpdate = false ->
  db !! params_id req = Some trip -> userId trip = _id (user req) ->
  code (fst (updateTrip fails req db)) = 200
  /\ snd (updateTrip fails req db) !! params_id req
     = Some (applyBody (body req) trip).
Proof.
  intros Hup Hwr Hl Hown. unfold updateTrip, findById, findByIdAndUpdate.
  rewrite Hup, Hl, Hown, String.eqb_refl, Hwr. simpl.
  split; [reflexivity | apply lookup_insert_eq].
Qed.

(** X1. When no trip has the id of a PUT or DELETE request, the answer is
    404 'Trip not found' and the collection is left as it was. *)
Theorem missing_trip_not_found :
  forall (fails : ModelCall -> bool) (req : AuthRequest) (db : gmap string Trip),
    fails FindById = false ->
    db !! params_id req = None ->
    updateTrip fails req db
    = ({| code := 404; payload := Message "Trip not found" |}, db)
    /\ deleteTrip fails req db
       = ({| code := 404; payload := Message "Trip not found" |}, db).
Proof.
  intros fails req db Hup Hnone. now apply missing_trip_lookup.
Qed.

Lemma missing_trip_not_found_witness :
  updateTrip (fun _ => false) strayRequest sampleCollection
  = ({| code := 404; payload := Message "Trip not found" |}, sampleCollection)
  /\ deleteTrip (fun _ => false) strayRequest sampleCollection
     = ({| code := 404; payload := Message "Trip not found" |}, sampleCollection).
Proof.
  apply (missing_trip_not_found (fun _ => false) strayRequest sampleCollection);
    reflexivity.
Defined.

(** X2. A DELETE request of the owner answers 200 'Trip removed'; afterwards
    no trip has that id, every other trip is as it was, and a further PUT or
    DELETE on the id answers 404. *)
Theorem owner_delete_removes :
  forall (fails fails' : ModelCall -> bool) (req req' : AuthRequest)
         (db : gmap string Trip) (trip : Trip),
    fails FindById = false -> fails DeleteOne = false ->
    db !! params_id req = Some trip ->
    userId trip = _id (user req) ->
    fails' FindById = false -> params_id req' = params_id req ->
    let db' := snd (deleteTrip fails req db) in
    fst (deleteTrip fails req db)
    = {| code := 200; payload := Message "Trip removed" |}
    /\ db' !! params_id req = None
    /\ (forall other : string, other <> params_id req -> db' !! other = db !! other)
    /\ code (fst (updateTrip fails' req' db')) = 404
    /\ code (fst (deleteTrip fails' req' db')) = 404.
Proof.
  intros fails fails' req req' db trip Hup Hdel Hl Hown Hup' Hid db'.
  assert (Hdb' : db' = delete (params_id req) db).
  { unfold db', deleteTrip, findById, deleteOne.
    rewrite Hup, Hl, Hown, String.eqb_refl, Hdel. reflexivity. }
  assert (Hgone : db' !! params_id req' = None).
  { rewrite Hid, Hdb'. apply lookup_delete_eq. }
  split; [| split; [| split]].
  - unfold deleteTrip, findById, deleteOne.
    rewrite Hup, Hl, Hown, String.eqb_refl, Hdel. reflexivity.
  - rewrite <- Hid. exact Hgone.
  - intros other Hother. rewrite Hdb'. now apply lookup_delete_ne.
  - destruct (missing_trip_lookup fails' req' db' Hup' Hgone) as [-> ->].
    split; reflexivity.
Qed.

Lemma owner_delete_removes_witness :
  fst (deleteTrip (fun _ => false) ownerRequest sampleCollection)
  = {| code := 200; payload := Message "Trip removed" |}
  /\ snd (deleteTrip (fun _ => false) ownerRequest sampleCollection)
       !! params_id ownerRequest = None
  /\ (forall other : string,
        other <> params_id ownerRequest ->
        snd (deleteTrip (fun _ => false) ownerRequest sampleCollection) !! other
        = sampleCollection !! other)
  /\ code (fst (updateTrip (fun _ => false) foreignRequest
                  (snd (deleteTrip (fun _ => false) ownerRequest
                          sampleCollection)))) = 404
  /\ code (fst (deleteTrip (fun _ => false) foreignRequest
                  (snd (deleteTrip (fun _ => false) ownerRequest
                          sampleCollection)))) = 404.
Proof.
  apply (owner_delete_removes (fun _ => false) (fun _ => false)
           ownerRequest foreignRequest sampleCollection sampleTrip);
    reflexivity.
Defined.

(** X3. A PUT request of the owner answers 200 with the updated trip, which
    is the document then stored under the id; every other trip is as it
    was. *)
Theorem owner_update_stores :
  forall (fails : ModelCall -> bool) (req : AuthRequest)
         (db : gmap string Trip) (trip : Trip),
    fails FindById = false -> fails FindByIdAndUpdate = false ->
    db !! params_id req = Some trip ->
    userId trip = _id (user req) ->
    let r := updateTrip fails req db in
    exists updated : Trip,
      fst r = {| code := 200; payload := TripJson (Some updated) |}
      /\ updated = applyBody (body req) trip
      /\ snd r !! params_id req = Some updated
      /\ (forall other : string,
            other <> params_id req -> snd r !! other = db !! other).
Proof.
  intros fails req db trip Hup Hwr Hl Hown r.
  exists (applyBody (body req) trip).
  assert (Hr : r = ({| code := 200;
                       payload := TripJson (Some (applyBody (body req) trip)) |},
                    <[params_id req := applyBody (body req) trip]> db)).
  { unfold r, updateTrip, findById, findByIdAndUpdate.
    rewrite Hup, Hl, Hown, String.eqb_refl, Hwr. reflexivity. }
  rewrite Hr. simpl. split; [reflexivity |]. split; [reflexivity |].
  split; [apply lookup_insert_eq |].
  intros other Hother. now apply lookup_insert_ne.
Qed.

Lemma owner_update_stores_witness :
  exists updated : Trip,
    fst (updateTrip (fun _ => false) ownerRequest sampleCollection)
    = {| code := 200; payload := TripJson (Some updated) |}
    /\ updated = applyBody (body ownerRequest) sampleTrip
    /\ snd (updateTrip (fun _ => false) ownerRequest sampleCollection)
         !! params_id ownerRequest = Some updated
    /\ (forall other : string,
          other <> params_id ownerRequest ->
          snd (updateTrip (fun _ => false) ownerRequest sampleCollection) !! other
          = sampleCollection !! other).
Proof.
  apply (owner_update_stores (fun _ => false) ownerRequest sampleCollection
           sampleTrip); reflexivity.
Defined.

(** X4. Whatever the store does, a PUT or DELETE request that is not
    answered 200 leaves the collection as it was, and its answer is 401, 404
    or 500. *)
Theorem answered_200_or_unchanged :
  forall (fails : ModelCall -> bool) (req : AuthRequest) (db : gmap string Trip),
    (code (fst (updateTrip fails req db)) = 200
     \/ snd (updateTrip fails req db) = db
        /\ (code (fst (updateTrip fails req db)) = 401
            \/ code (fst (updateTrip fails req db)) = 404
            \/ code (fst (updateTrip fails req db)) = 500))
    /\ (code (fst (deleteTrip fails req db)) = 200
        \/ snd (deleteTrip fails req db) = db
           /\ (code (fst (deleteTrip fails req db)) = 401
               \/ code (fst (deleteTrip fails req db)) = 404
               \/ code (fst (deleteTrip fails req db)) = 500)).
Proof.
  intros fails req db.
  unfold updateTrip, deleteTrip, findById, findByIdAndUpdate, deleteOne.
  destruct (fails FindById); [simpl; split; right; tauto |].
  destruct (db !! params_id req) as [trip |];
    [| simpl; split; right; tauto].
  destruct (String.eqb (userId trip) (_id (user req)));
    [| simpl; split; right; tauto].
  split.
  - destruct (fails FindByIdAndUpdate); simpl; [right; tauto | now left].
  - destruct (fails DeleteOne); simpl; [right; tauto | now left].
Qed.

(** X5. A PUT request of the owner whose body names another user as
    [userId] hands the trip over: a further PUT or DELETE of the former owner
    on that id is answered 401 and changes nothing. *)
Theorem update_can_hand_over :
  forall (fails fails' : ModelCall -> bool) (req req' : AuthRequest)
         (db : gmap string Trip) (trip : Trip) (other : string),
    fails FindById = false -> fails FindByIdAndUpdate = false ->
    db !! params_id req = Some trip ->
    userId trip = _id (user req) ->
    body_userId (body req) = Some other -> other <> _id (user req) ->
    fails' FindById = false ->
    params_id req' = params_id req -> _id (user req') = _id (user req) ->
    let db' := snd (updateTrip fails req db) in
    code (fst (updateTrip fails req db)) = 200
    /\ updateTrip fails' req' db'
       = ({| code := 401; payload := Message "Not authorized" |}, db')
    /\ deleteTrip fails' req' db'
       = ({| code := 401; payload := Message "Not authorized" |}, db').
Proof.
  intros fails fails' req req' db trip other Hup Hwr Hl Hown Hbody Hother
    Hup' Hid Hcaller db'.
  destruct (owner_update_lookup fails req db trip Hup Hwr Hl Hown)
    as [Hcode Hstored].
  fold db' in Hstored. split; [exact Hcode |].
  assert (Howner' : userId (applyBody (body req) trip) <> _id (user req')).
  { unfold applyBody. simpl. rewrite Hbody, Hcaller. simpl. exact Hother. }
  apply String.eqb_neq in Howner'.
  unfold updateTrip, deleteTrip, findById.
  rewrite Hup', Hid, Hstored, Howner'. split; reflexivity.
Qed.

Lemma update_can_hand_over_witness :
  code (fst (updateTrip (fun _ => false) handOverRequest sampleCollection)) = 200
  /\ updateTrip (fun _ => false) ownerRequest
       (snd (updateTrip (fun _ => false) handOverRequest sampleCollection))
     = ({| code := 401; payload := Message "Not authorized" |},
        snd (updateTrip (fun _ => false) handOverRequest sampleCollection))
  /\ deleteTrip (fun _ => false) ownerRequest
       (snd (updateTrip (fun _ => false) handOverRequest sampleCollection))
     = ({| code := 401; payload := Message "Not authorized" |},
        snd (updateTrip (fun _ => false) handOverRequest sampleCollection)).
Proof.
  apply (update_can_hand_over (fun _ => false) (fun _ => false)
           handOverRequest ownerRequest sampleCollection sampleTrip "user-2");
    try reflexivity.
  simpl. discriminate.
Defined.

(** X6. A POST request either stores a trip that belongs to the caller and
    is 'planned', whatever [userId] and [status] its body carries, and
    answers 201 with it; or it answers 500 and leaves the collection as it
    was. *)
Theorem createTrip_owned_and_planned :
  forall (storeFails : bool) (newId : string) (req : AuthRequest)
         (db : gmap string Trip),
    let r := createTrip storeFails newId req db in
    (exists trip : Trip,
       fst r = {| code := 201; payload := TripJson (Some trip) |}
       /\ userId trip = _id (user req)
       /\ status trip = Planned
       /\ snd r = <[newId := trip]> db)
    \/ (code (fst r) = 500 /\ snd r = db).
Proof.
  intros storeFails newId req db r. subst r. unfold createTrip, create.
  destruct storeFails; [right; split; reflexivity |].
  destruct (newDocument (createFields req)) as [trip |] eqn:Hdoc;
    [| right; split; reflexivity].
  left. exists trip. simpl. split; [reflexivity |].
  unfold newDocument, createFields in Hdoc. simpl in Hdoc.
  destruct (String.eqb (_id (user req)) "") eqn:Hid; [discriminate |].
  destruct (required (body_origin (body req))); [| discriminate].
  destruct (required (body_destination (body req))); [| discriminate].
  destruct (required (body_startDate (body req))); [| discriminate].
  destruct (required (body_startTime (body req))); [| discriminate].
  injection Hdoc as <-. simpl. repeat split; reflexivity.
Qed.

End TripRequests.

(** ** The application store: saved routes and vehicles *)

Section StoreLists.

Import AppContext.

(** X7. Reversing a saved route twice gives back the saved routes; reversing
    never changes the ids of the routes nor their order. *)
Theorem reverseRoute_involutive :
  forall (id0 : string) (routes : list SavedRoute),
    reverseRoute id0 (reverseRoute id0 routes) = routes
    /\ map id (reverseRoute id0 routes) = map id routes.
Proof.
  intros id0 routes. unfold reverseRoute. split.
  - rewrite map_map. rewrite <- (map_id routes) at 2.
    apply map_ext. intros [i o d st tt]. simpl.
    destruct (String.eqb i id0) eqn:Hi; simpl; rewrite Hi; reflexivity.
  - rewrite map_map. apply map_ext. intros r.
    destruct (String.eqb (id r) id0); reflexivity.
Qed.

(** X8. Removing a saved route keeps the routes with any other id, in their
    order; when the backend carries the delete out no route with the id is
    left, and when it fails the saved routes are as they were. *)
Theorem removeRoute_only_that_id :
  forall (api : Backend) (id0 : string) (routes : list SavedRoute),
    let kept := List.filter (fun r => negb (String.eqb (id r) id0)) in
    kept (removeRoute api id0 routes) = kept routes
    /\ match deleteSavedRoute api id0 with
       | ApiOk _ =>
           removeRoute api id0 routes = kept routes
           /\ ~ In id0 (map id (removeRoute api id0 routes))
       | ApiError => removeRoute api id0 routes = routes
       end.
Proof.
  intros api id0 routes kept. unfold removeRoute.
  destruct (deleteSavedRoute api id0) as [[] |].
  - fold (kept routes). split.
    + unfold kept. induction routes as [| r routes IH]; [reflexivity |].
      simpl. destruct (negb (String.eqb (id r) id0)) eqn:Hr; simpl;
        rewrite ?Hr, IH; reflexivity.
    + split; [reflexivity |].
      intros Hin. apply in_map_iff in Hin as [r [Hid Hr]].
      unfold kept in Hr. apply filter_In in Hr as [_ Hne].
      rewrite Hid, String.eqb_refl in Hne. discriminate.
  - split; reflexivity.
Qed.

(** *** Vehicles *)

Lemma withVehicles_same type u : withVehicles type (vehiclesOf type u) u = u.
Proof. destruct type, u; reflexivity. Qed.

Lemma vehiclesOf_withVehicles type vs u :
  vehiclesOf type (withVehicles type vs u) = vs.
Proof. destruct type; reflexivity. Qed.

Lemma withVehicles_twice type vs vs' u :
  withVehicles type vs' (withVehicles type vs u) = withVehicles type vs' u.
Proof. destruct type; reflexivity. Qed.

Lemma filter_not_id_fresh (i : string) (vs : list Vehicle) :
  ~ In i (map vehicle_id vs) ->
  List.filter (fun v => negb (String.eqb (vehicle_id v) i)) vs = vs.
Proof.
  induction vs as [| v vs IH]; simpl; intros Hfresh; [reflexivity |].
  destruct (String.eqb_spec (vehicle_id v) i) as [Heq | Hne]; simpl.
  - exfalso. apply Hfresh. now left.
  - rewrite IH; [reflexivity |]. intros Hin. apply Hfresh. now right.
Qed.

(** X9. Adding a vehicle under an id that no vehicle of the collection has,
    then removing the vehicle with that id, gives back the profile. *)
Theorem add_then_remove_vehicle :
  forall (now : string) (type : VehicleType) (reg : string) (u : UserProfile),
    reg <> "" ->
    ~ In now (vehicleIds type u) ->
    removeVehicle type now (addVehicle now type reg (Some u)) = Some u.
Proof.
  intros now type reg u Hreg Hfresh.
  apply String.eqb_neq in Hreg.
  unfold addVehicle. rewrite Hreg. unfold removeVehicle.
  rewrite vehiclesOf_withVehicles, withVehicles_twice.
  rewrite List.filter_app. simpl. rewrite String.eqb_refl. simpl.
  rewrite app_nil_r, filter_not_id_fresh by exact Hfresh.
  now rewrite withVehicles_same.
Qed.

Lemma add_then_remove_vehicle_witness :
  removeVehicle TwoWheelers "1700000000000"
    (addVehicle "1700000000000" TwoWheelers "MH12XY0001" (Some sampleUser))
  = Some sampleUser.
Proof.
  apply (add_then_remove_vehicle "1700000000000" TwoWheelers "MH12XY0001"
           sampleUser).
  - discriminate.
  - simpl. intros [H | []]. discriminate H.
Defined.

Lemma vehicleIds_withVehicles type vs u :
  vehicleIds type (withVehicles type vs u) = map vehicle_id vs.
Proof. destruct type; reflexivity. Qed.

Lemma uniqueVehicleIds_with type vs u :
  uniqueVehicleIds (Some u) -> List.NoDup (map vehicle_id vs) ->
  uniqueVehicleIds (Some (withVehicles type vs u)).
Proof.
  intros [H2 H4] Hvs. unfold uniqueVehicleIds. destruct type; simpl; auto.
Qed.

Lemma NoDup_ids_filter (keep : Vehicle -> bool) (vs : list Vehicle) :
  List.NoDup (map vehicle_id vs) ->
  List.NoDup (map vehicle_id (List.filter keep vs)).
Proof.
  induction vs as [| v vs IH]; simpl; intros Hnd; [constructor |].
  apply List.NoDup_cons_iff in Hnd as [Hv Hnd].
  destruct (keep v); simpl; [| auto].
  constructor; [| auto].
  intros Hin. apply Hv. apply in_map_iff in Hin as [w [Hid Hw]].
  apply filter_In in Hw as [Hw _]. rewrite <- Hid. now apply in_map.
Qed.

Lemma NoDup_ids_snoc (vs : list Vehicle) (v : Vehicle) :
  List.NoDup (map vehicle_id vs) -> ~ In (vehicle_id v) (map vehicle_id vs) ->
  List.NoDup (map vehicle_id (vs ++ [v])).
Proof.
  induction vs as [| w vs IH]; simpl; intros Hnd Hfresh.
  - constructor; [intros [] | constructor].
  - apply List.NoDup_cons_iff in Hnd as [Hw Hnd].
    constructor.
    + rewrite map_app, in_app_iff. simpl. intros [Hin | [Heq | []]].
      * now apply Hw.
      * apply Hfresh. now left.
    + apply IH; [assumption |]. intros Hin. apply Hfresh. now right.
Qed.

(** X10. The three vehicle updaters keep the vehicle ids of each collection
    distinct: removing and updating always do, and adding does when the new
    id is not the id of a vehicle of the collection.  Updating moreover
    leaves the ids of the collection as they were. *)
Theorem vehicle_ids_stay_unique :
  forall (now : string) (type : VehicleType) (reg id0 : string)
         (vehicle : Vehicle) (u : UserProfile),
    uniqueVehicleIds (Some u) ->
    ~ In now (vehicleIds type u) ->
    uniqueVehicleIds (addVehicle now type reg (Some u))
    /\ uniqueVehicleIds (removeVehicle type id0 (Some u))
    /\ uniqueVehicleIds (updateVehicle type vehicle (Some u))
    /\ (vehicleIds type <$> updateVehicle type vehicle (Some u))
       = Some (vehicleIds type u).
Proof.
  intros now type reg id0 vehicle u Huniq Hfresh.
  assert (Hcol : List.NoDup (vehicleIds type u))
    by (destruct Huniq; destruct type; assumption).
  assert (Hids : map vehicle_id
                   (map (fun v =>
                           if String.eqb (vehicle_id v) (vehicle_id vehicle)
                           then {| vehicle_id := vehicle_id v;
                                   regNumber := regNumber vehicle |}
                           else v)
                      (vehiclesOf type u))
                 = vehicleIds type u).
  { unfold vehicleIds. rewrite map_map. apply map_ext. intros v.
    destruct (String.eqb (vehicle_id v) (vehicle_id vehicle)); reflexivity. }
  split; [| split; [| split]].
  - unfold addVehicle. destruct (String.eqb reg ""); [assumption |].
    apply uniqueVehicleIds_with; [assumption |].
    apply NoDup_ids_snoc; assumption.
  - unfold removeVehicle. apply uniqueVehicleIds_with; [assumption |].
    apply NoDup_ids_filter. exact Hcol.
  - unfold updateVehicle. apply uniqueVehicleIds_with; [assumption |].
    rewrite Hids. exact Hcol.
  - unfold updateVehicle. simpl. rewrite vehicleIds_withVehicles.
    now rewrite Hids.
Qed.

Lemma vehicle_ids_stay_unique_witness :
  uniqueVehicleIds
    (addVehicle "1700000000000" FourWheelers "MH12XY0001" (Some sampleUser))
  /\ uniqueVehicleIds (removeVehicle FourWheelers "fw0" (Some sampleUser))
  /\ uniqueVehicleIds
       (updateVehicle FourWheelers
          {| vehicle_id := "fw0"; regNumber := "MH14ZZ9999" |} (Some sampleUser))
  /\ (vehicleIds FourWheelers
        <$> updateVehicle FourWheelers
              {| vehicle_id := "fw0"; regNumber := "MH14ZZ9999" |}
              (Some sampleUser))
     = Some (vehicleIds FourWheelers sampleUser).
Proof.
  apply (vehicle_ids_stay_unique "1700000000000" FourWheelers "MH12XY0001" "fw0"
           {| vehicle_id := "fw0"; regNumber := "MH14ZZ9999" |} sampleUser).
  - split; repeat constructor; simpl; tauto.
  - simpl. intros [H | []]. discriminate H.
Defined.

End StoreLists.

(** ** The Haversine distance: range and exactness *)

Section HaversineArc.

Local Open Scope R_scope.

Import OlaMapService.

Lemma arc_from_squared_sine lat1 lng1 lat2 lng2 (delta : R) :
  Rabs delta <= 180 ->
  haversine_a lat1 lng1 lat2 lng2
  = sin (delta * PI / 180 / 2) * sin (delta * PI / 180 / 2) ->
  calculateDistance lat1 lng1 lat2 lng2 = 6371000 * (Rabs delta * PI / 180).
Proof.
  intros Hdelta Ha. pose proof PI_RGT_0 as Hpi.
  assert (Hsq : haversine_a lat1 lng1 lat2 lng2
                = sin (Rabs delta * PI / 180 / 2) * sin (Rabs delta * PI / 180 / 2)).
  { rewrite Ha. unfold Rabs. destruct (Rcase_abs delta); [| reflexivity].
    replace (- delta * PI / 180 / 2) with (- (delta * PI / 180 / 2)) by lra.
    rewrite sin_neg. ring. }
  rewrite (haversine_of_half_angle _ _ _ _ (Rabs delta * PI / 180 / 2));
    [lra | | exact Hsq].
  pose proof (Rabs_pos delta) as Hpos. split; nra.
Qed.

(** X12. Between two points of one meridian that are at most 180 degrees of
    latitude apart, and between two points of the equator that are at most
    180 degrees of longitude apart, the Haversine distance is the length of
    the arc: the radius times the difference in radians. *)
Theorem calculateDistance_is_arc_length :
  forall lat1 lat2 lng lng1 lng2 : R,
    Rabs (lat2 - lat1) <= 180 ->
    Rabs (lng2 - lng1) <= 180 ->
    calculateDistance lat1 lng lat2 lng
    = 6371000 * (Rabs (lat2 - lat1) * PI / 180)
    /\ calculateDistance 0 lng1 0 lng2
       = 6371000 * (Rabs (lng2 - lng1) * PI / 180).
Proof.
  intros lat1 lat2 lng lng1 lng2 Hlat Hlng. split.
  - apply arc_from_squared_sine; [exact Hlat | apply haversine_a_meridian].
  - apply arc_from_squared_sine; [exact Hlng | apply haversine_a_equator].
Qed.

Lemma calculateDistance_is_arc_length_witness :
  calculateDistance 10 73 19 73 = 6371000 * (Rabs (19 - 10) * PI / 180)
  /\ calculateDistance 0 72 0 78 = 6371000 * (Rabs (78 - 72) * PI / 180).
Proof.
  apply (calculateDistance_is_arc_length 10 19 73 72 78).
  - unfold Rabs. destruct (Rcase_abs (19 - 10)); lra.
  - unfold Rabs. destruct (Rcase_abs (78 - 72)); lra.
Defined.

End HaversineArc.

(** ** The planner wizard: transitions, fetches and toggles *)

Section PlannerFlow.

Import AppContext PlannerScreen.

Ltac io := unfold bind, ret, emit in *; simpl in *.



(** X14. With a typed destination the wizard enters state 2 exactly when
    the destination is not empty; it asks neither the device nor the
    provider for anything and clears an earlier location error. *)
Theorem handleDestinationNext_typed :
  forall (google : option MapService.GoogleMaps) (geo : GeoOutcome)
         (s : State) (log : list Call),
    destination s <> "Current Location" ->
    let r := handleDestinationNext google geo s log in
    snd r = log
    /\ locationError (fst r) = None
    /\ destination (fst r) = destination s
    /\ (destination s <> "" /\ step (fst r) = 2
        \/ destination s = "" /\ step (fst r) = step s).
Proof.
  intros google geo s log Hdest r. subst r.
  apply String.eqb_neq in Hdest.
  unfold handleDestinationNext. simpl. rewrite Hdest.
  destruct (String.eqb_spec (destination s) "") as [Hempty | Hne]; io.
  - repeat split. now right.
  - repeat split. now left.
Qed.

Lemma handleDestinationNext_typed_witness :
  let r := handleDestinationNext (Some sampleGoogle) Unsupported plannerAtStep1 [] in
  snd r = []
  /\ locationError (fst r) = None
  /\ destination (fst r) = destination plannerAtStep1
  /\ (destination plannerAtStep1 <> "" /\ step (fst r) = 2
      \/ destination plannerAtStep1 = "" /\ step (fst r) = step plannerAtStep1).
Proof.
  apply (handleDestinationNext_typed (Some sampleGoogle) Unsupported
           plannerAtStep1 []).
  simpl. discriminate.
Defined.

Lemma firstn_nil_iff {A : Type} (n : nat) (l : list A) :
  firstn (S n) l = [] <-> l = [].
Proof. destruct l; simpl; split; intros H; try reflexivity; discriminate. Qed.



(** X16. When the attractions effect searches (state 3 entered or its
    destination changed, the destination neither empty nor 'Current
    Location'), it shows the first 15 attractions found and no error, or no
    attraction and an error, and ends not loading; it leaves the step, the
    destination and the stay as they are. *)
Theorem attractionsEffect_fetch :
  forall (found : list Stay) (prev s : State),
    (step prev <> step s \/ destination prev <> destination s) ->
    step s = 3 ->
    destination s <> "" -> destination s <> "Current Location" ->
    let s' := attractionsEffect found prev s in
    nearbyAttractions s' = firstn 15 found
    /\ length (nearbyAttractions s') <= 15
    /\ (attractionsError s' = None <-> nearbyAttractions s' <> [])
    /\ isLoadingAttractions s' = false
    /\ step s' = 3 /\ destination s' = destination s
    /\ stayName s' = stayName s.
Proof.
  intros found prev s Hdeps Hstep Hne Hcur s'. subst s'.
  apply String.eqb_neq in Hne, Hcur.
  unfold attractionsEffect.
  assert (Hchanged : Nat.eqb (step prev) (step s)
                     && String.eqb (destination prev) (destination s) = false).
  { apply andb_false_iff. destruct Hdeps as [H | H].
    - left. now apply Nat.eqb_neq.
    - right. now apply String.eqb_neq. }
  rewrite Hchanged, Hstep, Hne, Hcur. simpl.
  destruct found as [| st found]; simpl.
  - repeat split; try reflexivity; try lia; try assumption.
    + intros [=].
    + intros H. now contradiction H.
  - repeat split; try reflexivity; try assumption.
    + rewrite length_firstn. lia.
    + intros _ [=].
Qed.

Lemma attractionsEffect_fetch_witness :
  let s' := attractionsEffect [tigerPoint] plannerEnteringStep2
              plannerEnteringStep3 in
  nearbyAttractions s' = firstn 15 [tigerPoint]
  /\ length (nearbyAttractions s') <= 15
  /\ (attractionsError s' = None <-> nearbyAttractions s' <> [])
  /\ isLoadingAttractions s' = false
  /\ step s' = 3 /\ destination s' = destination plannerEnteringStep3
  /\ stayName s' = stayName plannerEnteringStep3.
Proof.
  apply (attractionsEffect_fetch [tigerPoint] plannerEnteringStep2
           plannerEnteringStep3); try reflexivity; simpl.
  - left. discriminate.
  - discriminate.
  - discriminate.
Defined.

Lemma getPlacePredictions_calls google query log :
  google <> None ->
  snd (MapService.getPlacePredictions google query log)
  = (log ++ [AutocompleteRequest query])%list.
Proof.
  intros Hg. unfold MapService.getPlacePredictions,
    MapService.getAutocompletePredictions.
  destruct google as [g |]; [| contradiction]. io.
  destruct (MapService.autocompleteService g query) as [[ps |] status]; simpl;
    [destruct (MapService.isOK status) |]; reflexivity.
Qed.

Lemma getPlacePredictions_unloaded query log :
  MapService.getPlacePredictions None query log = ([], log).
Proof. reflexivity. Qed.

(** X17. The two autocomplete fetches of the planner send the provider at
    most one request each, and only while their field is the active one and
    holds at least 3 UTF-16 code units: the destination as typed, unless it
    is 'Current Location'; or the stay text, followed by " near " and the
    destination when there is one. *)
Theorem planner_fetches_only_long_inputs :
  forall (google : option MapService.GoogleMaps) (s : State) (log : list Call),
    (snd (fetchDestinationPredictions google s log) = log
     \/ snd (fetchDestinationPredictions google s log)
        = (log ++ [AutocompleteRequest (destination s)])%list
        /\ activePlannerInput s = Some DestinationInput
        /\ 3 <= jsLength (destination s)
        /\ destination s <> "Current Location")
    /\ (snd (fetchStayPredictions google s log) = log
        \/ snd (fetchStayPredictions google s log)
           = (log ++ [AutocompleteRequest
                        (stayLocation s
                         ++ (if String.eqb (destination s) "" then ""
                             else " near " ++ destination s))])%list
           /\ activePlannerInput s = Some StayInput
           /\ 3 <= jsLength (stayLocation s)).
Proof.
  intros google s log. split.
  - unfold fetchDestinationPredictions.
    destruct (activePlannerInput s) as [[|] |]; try (now left).
    destruct (Nat.ltb_spec 2 (jsLength (destination s))) as [Hlen | Hlen];
      [| rewrite andb_false_r; now left].
    destruct (String.eqb_spec (destination s) "Current Location") as [Hcur | Hcur];
      [rewrite andb_false_r; now left |].
    destruct (_ && _ && _); [| now left].
    destruct google as [g |]; [| now left].
    right. split; [now apply getPlacePredictions_calls |].
    split; [reflexivity |]. split; [lia | assumption].
  - unfold fetchStayPredictions.
    destruct (activePlannerInput s) as [[|] |]; try (now left).
    destruct (Nat.ltb_spec 2 (jsLength (stayLocation s))) as [Hlen | Hlen];
      [| rewrite andb_false_r; now left].
    destruct (_ && _); [| now left].
    destruct google as [g |]; [| now left].
    right. split; [now apply getPlacePredictions_calls |].
    split; [reflexivity | lia].
Qed.

(** X18. Toggling an attraction changes nothing when there is no stay name,
    or when the backend fails the request. *)
Theorem toggle_without_effect :
  forall (api : Backend) (dest : Stay) (app : App),
    stayName (planner app) = None \/ stayName (planner app) = Some ""
    \/ rejects api ->
    handleToggleDestination api dest app = app.
Proof.
  intros api dest app Hcase. unfold handleToggleDestination.
  destruct (stayName (planner app)) as [n |]; [| reflexivity].
  destruct (String.eqb_spec n "") as [-> | Hne]; [reflexivity |].
  destruct Hcase as [[=] | [[= ->] | [Hpost Hdel]]]; [now contradiction Hne |].
  destruct (List.find (matches n dest) (savedRoutes app)) as [r |].
  - unfold removeRoute. rewrite Hdel. now destruct app.
  - unfold addRoute. rewrite Hpost. now destruct app.
Qed.

Lemma toggle_without_effect_witness :
  handleToggleDestination downBackend tigerPoint appOneRoute = appOneRoute.
Proof.
  apply (toggle_without_effect downBackend tigerPoint appOneRoute).
  right. right. split; intros; reflexivity.
Defined.

End PlannerFlow.

(** ** The navigation screen: stops, camera and provider *)

Section NavigationStops.

Import MapService NavigationScreen.

Local Open Scope nat_scope.

Ltac io := unfold bind, ret, emit in *; simpl in *.

Lemma app_one_differs {A : Type} (l : list A) (x : A) : l <> (l ++ [x])%list.
Proof.
  intros H. apply (f_equal (@length A)) in H.
  rewrite length_app in H. simpl in H. lia.
Qed.

(** With the script loaded and both ends of the trip set, the route effect
    that follows a change of the waypoints asks the provider for one
    route. *)
Lemma route_requested_for_waypoints g parse prev s log :
  isLoaded prev = true -> isLoaded s = true ->
  currentTrip s = currentTrip prev ->
  from (currentTrip prev) <> "" -> to (currentTrip prev) <> "" ->
  waypoints s <> waypoints prev ->
  let r := routeEffect (Some g) parse prev s log in
  snd r = (log ++ [DirectionsRequest (resolveLoc parse (from (currentTrip prev)))
                     (resolveLoc parse (to (currentTrip prev)))
                     (waypoints s)])%list
  /\ waypoints (fst r) = waypoints s
  /\ currentStepIndex (fst r) = currentStepIndex s
  /\ isStopsListVisible (fst r) = isStopsListVisible s.
Proof.
  intros Hl Hl' Htrip Hfrom Hto Hw r. subst r.
  apply String.eqb_neq in Hfrom, Hto.
  unfold routeEffect, routeDepsChanged.
  rewrite (bool_decide_eq_false_2 (waypoints prev = waypoints s))
    by (intros H; now apply Hw).
  rewrite !andb_false_r. cbn [negb].
  unfold fetchRoute. rewrite Hl', Htrip, Hfrom, Hto. cbn [negb orb].
  unfold bind, getDirections, emit, ret. rewrite waypoints_copy.
  destruct (directionsService g _ _ _) as [[res |] ok];
    [destruct ok |]; unfold bind; cbn beta iota;
    [destruct (firstLeg (Some res)) | |]; repeat split; reflexivity.
Qed.

(** X19. With the provider and the script loaded and both ends of the trip
    set, selecting a stop appends one stopover waypoint after the others,
    hides the stops list, and asks for exactly one route, through all the
    waypoints in their order. *)
Theorem select_stop_requests_route :
  forall (g : GoogleMaps) (parse : string -> option LatLng) (m : Mounted)
         (loc : Location) (log : list Call),
    isLoaded (current m) = true ->
    from (currentTrip (current m)) <> "" ->
    to (currentTrip (current m)) <> "" ->
    let r := step (Some g) parse m (SelectStop loc) log in
    let added :=
      (waypoints (current m) ++ [{| location := loc; stopover := true |}])%list in
    waypoints (current (fst r)) = added
    /\ isStopsListVisible (current (fst r)) = false
    /\ snd r
       = (log ++ [DirectionsRequest
                    (resolveLoc parse (from (currentTrip (current m))))
                    (resolveLoc parse (to (currentTrip (current m))))
                    added])%list.
Proof.
  intros g parse m loc log Hl Hfrom Hto r added. subst r.
  unfold step, bind.
  change (handle (Some g) (seen m) (SelectStop loc) (current m) log)
    with (handleSelectStop loc (current m), log).
  cbn beta iota.
  pose proof (route_requested_for_waypoints g parse (current m)
                (handleSelectStop loc (current m)) log Hl Hl eq_refl Hfrom Hto)
    as Hroute.
  specialize (Hroute (fun H => app_one_differs _ _ (eq_sym H))).
  destruct (routeEffect (Some g) parse (current m)
              (handleSelectStop loc (current m)) log) as [s2 log2].
  simpl in *. destruct Hroute as [-> [-> [_ ->]]]. repeat split.
Qed.

Lemma select_stop_requests_route_witness :
  let r := step (Some sampleGoogle) noCoordinates sampleMounted
             (SelectStop (LocText "Fuel station, Khopoli")) [] in
  let added :=
    (waypoints (current sampleMounted)
     ++ [{| location := LocText "Fuel station, Khopoli"; stopover := true |}])%list in
  waypoints (current (fst r)) = added
  /\ isStopsListVisible (current (fst r)) = false
  /\ snd r
     = ([] ++ [DirectionsRequest
                 (resolveLoc noCoordinates (from (currentTrip (current sampleMounted))))
                 (resolveLoc noCoordinates (to (currentTrip (current sampleMounted))))
                 added])%list.
Proof.
  apply (select_stop_requests_route sampleGoogle noCoordinates sampleMounted
           (LocText "Fuel station, Khopoli") []).
  - reflexivity.
  - simpl. discriminate.
  - simpl. discriminate.
Defined.

(** X20. "Remove Stop" removes every waypoint at once and, with the provider
    and the script loaded and both ends of the trip set, asks for exactly
    one route without waypoints; with no waypoint it changes nothing and
    asks for nothing. *)
Theorem remove_stop_clears_all :
  forall (g : GoogleMaps) (parse : string -> option LatLng) (m : Mounted)
         (log : list Call),
    isLoaded (current m) = true ->
    from (currentTrip (current m)) <> "" ->
    to (currentTrip (current m)) <> "" ->
    let r := step (Some g) parse m RemoveStopClick log in
    waypoints (current (fst r)) = []
    /\ (waypoints (current m) = []
        /\ current (fst r) = current m /\ snd r = log
        \/ waypoints (current m) <> []
           /\ snd r
              = (log ++ [DirectionsRequest
                           (resolveLoc parse (from (currentTrip (current m))))
                           (resolveLoc parse (to (currentTrip (current m))))
                           []])%list).
Proof.
  intros g parse m log Hl Hfrom Hto r. subst r.
  unfold step, bind. simpl handle.
  destruct (waypoints (current m)) as [| w ws] eqn:Hw.
  - unfold ret. cbn beta iota. unfold routeEffect.
    rewrite (routeDeps_same (current m) (current m)) by reflexivity.
    unfold ret. cbn.
    split; [exact Hw |]. left. repeat split.
  - change (ret (handleRemoveStop (current m)) log)
      with (handleRemoveStop (current m), log).
    cbn beta iota.
    pose proof (route_requested_for_waypoints g parse (current m)
                  (handleRemoveStop (current m)) log Hl Hl eq_refl Hfrom Hto)
      as Hroute.
    assert (Hdiff : waypoints (handleRemoveStop (current m))
                    <> waypoints (current m))
      by (rewrite Hw; simpl; discriminate).
    specialize (Hroute Hdiff).
    destruct (routeEffect (Some g) parse (current m)
                (handleRemoveStop (current m)) log) as [s2 log2].
    simpl in *. destruct Hroute as [-> [-> _]].
    split; [reflexivity |]. right. split; [discriminate | reflexivity].
Qed.

Lemma remove_stop_clears_all_witness :
  waypoints (current mountedWithStop)
  = [{| location := fuelStation; stopover := true |}]
  /\ let r := step (Some sampleGoogle) noCoordinates mountedWithStop
               RemoveStopClick [] in
     waypoints (current (fst r)) = []
     /\ snd r = [DirectionsRequest (LocText "Pune") (LocText "Lonavala") []].
Proof.
  split; [reflexivity |].
  destruct (remove_stop_clears_all sampleGoogle noCoordinates mountedWithStop [])
    as [Hnone [[Hempty _] | [_ Hlog]]].
  - reflexivity.
  - simpl. discriminate.
  - simpl. discriminate.
  - discriminate Hempty.
  - split; [exact Hnone | exact Hlog].
Defined.

(** *** Invariants of the reachable states *)

(** A property that holds after mounting and is kept by every step holds of
    every reachable state. *)
Lemma reachable_invariant google parse (P : Mounted -> Prop) :
  (forall tripDetails loaded log,
      P (fst (mount google parse tripDetails loaded log))) ->
  (forall m e log, P m -> P (fst (step google parse m e log))) ->
  forall m, reachable google parse m -> P m.
Proof.
  intros Hmount Hstep m [tripDetails [loaded [es [log0 <-]]]]. unfold bind.
  pose proof (Hmount tripDetails loaded log0) as Hm.
  destruct (mount google parse tripDetails loaded log0) as [m0 log1].
  simpl in Hm. clear Hmount. revert m0 log1 Hm.
  induction es as [| e es IH]; intros m0 log1 Hm; simpl; [exact Hm |].
  unfold bind. pose proof (Hstep m0 e log1 Hm) as Hs.
  destruct (step google parse m0 e log1) as [m1 log2]. now apply IH.
Qed.

Lemma handle_waypoints google seen e s log :
  let s' := fst (handle google seen e s log) in
  waypoints s' = waypoints s
  \/ (exists loc, waypoints s'
                  = (waypoints s ++ [{| location := loc; stopover := true |}])%list)
  \/ waypoints s' = [].
Proof.
  destruct e; simpl; try (now left).
  - destruct (onPosition_result google (fun _ => None) seen newPos s log)
      as [s1 [calls [-> [_ [Hsame _]]]]]. simpl.
    destruct (simulateProgress_frame google seen newPos s1) as [Hsame2 _].
    unfold sameButTracking in *. left.
    destruct Hsame as (_ & _ & _ & _ & _ & _ & _ & _ & _ & _ & _ & Hw & _).
    destruct Hsame2 as (_ & _ & _ & _ & _ & _ & _ & _ & _ & _ & _ & Hw2 & _).
    congruence.
  - left. unfold onPositionError. destruct (Nat.eqb code 1); reflexivity.
  - left. unfold recenterMap.
    destruct (mapRef s), (userLocation s); reflexivity.
  - right. left. now exists loc.
  - unfold handlePlaceSelect, bind.
    destruct (getPlaceDetails google placeId log) as [place log'].
    destruct place as [[nm [loc |]] |]; simpl;
      [right; left; now exists (LocPoint loc) | now left | now left].
  - destruct (waypoints s) eqn:Hw; simpl; [left | right; right]; auto.
Qed.

(** X21. In every state the navigation screen can reach, each waypoint is a
    stopover. *)
Theorem waypoints_are_stopovers :
  forall (google : option GoogleMaps) (parse : string -> option LatLng)
         (m : Mounted),
    reachable google parse m ->
    Forall (fun w => stopover w = true) (waypoints (current m)).
Proof.
  intros google parse. apply reachable_invariant.
  - intros tripDetails loaded log. unfold mount, bind.
    pose proof (fetchRoute_frame google parse
                  (setIsLoaded loaded (initial tripDetails)) log)
      as [_ [_ [Hw _]]].
    destruct (fetchRoute google parse _ log) as [s1 log1].
    simpl in *. rewrite Hw. constructor.
  - intros m e log Hinv. unfold step, bind.
    pose proof (handle_waypoints google (seen m) e (current m) log) as Hh.
    destruct (handle google (seen m) e (current m) log) as [s1 log1].
    pose proof (routeEffect_frame google parse (current m) s1 log1)
      as [_ [_ [Hw _]]].
    destruct (routeEffect google parse (current m) s1 log1) as [s2 log2].
    simpl in *. rewrite Hw.
    destruct Hh as [-> | [[loc ->] | ->]]; [assumption | | constructor].
    apply Forall_app. split; [assumption |]. repeat constructor.
Qed.

Lemma waypoints_are_stopovers_witness :
  waypoints (current mountedWithStop)
  = [{| location := fuelStation; stopover := true |}]
  /\ Forall (fun w => stopover w = true) (waypoints (current mountedWithStop)).
Proof.
  split; [reflexivity |].
  apply (waypoints_are_stopovers (Some sampleGoogle) noCoordinates mountedWithStop).
  exists sampleTripDetails, true, [SelectStop fuelStation], []. exact eq_refl.
Defined.

End NavigationStops.

(** ** Tracking the position *)

Section NavigationTracking.

Import MapService NavigationScreen.

Local Open Scope nat_scope.

Ltac io := unfold bind, ret, emit in *; simpl in *.

(** The route effect leaves the camera and the user location alone. *)
Lemma fetchRoute_camera google parse s log :
  let s' := fst (fetchRoute google parse s log) in
  mapRef s' = mapRef s /\ userLocation s' = userLocation s.
Proof.
  unfold fetchRoute.
  destruct (negb (isLoaded s) || _ || _); [io; repeat split; reflexivity |].
  unfold bind.
  destruct (getDirections google _ _ _ log) as [[res |] log'];
    [destruct (firstLeg (Some res)) |]; io; repeat split; reflexivity.
Qed.

Lemma routeEffect_camera google parse prev s log :
  let s' := fst (routeEffect google parse prev s log) in
  mapRef s' = mapRef s /\ userLocation s' = userLocation s.
Proof.
  unfold routeEffect. destruct (routeDepsChanged prev s).
  - apply fetchRoute_camera.
  - io. repeat split; reflexivity.
Qed.

(** X22. In every reachable state a position update records the position,
    and moves the camera to it, keeping the zoom, exactly when the current
    render is auto-centering; otherwise the camera stays where it is. *)
Theorem camera_follows_when_auto_centering :
  forall (google : option GoogleMaps) (parse : string -> option LatLng)
         (m : Mounted) (newPos : LatLng) (log : list Call),
    reachable google parse m ->
    let m' := fst (step google parse m (PositionUpdate newPos) log) in
    userLocation (current m') = Some newPos
    /\ mapRef (current m')
       = (if isAutoCentering (current m)
          then panTo newPos <$> mapRef (current m)
          else mapRef (current m)).
Proof.
  intros google parse m newPos log Hreach m'. subst m'.
  destruct (reachable_inSync google parse m Hreach) as [Hauto _].
  unfold step, bind. simpl handle.
  destruct (onPosition_result google (fun _ => None) (seen m) newPos
              (current m) log)
    as [s1 [calls [-> [_ [_ [_ [Hloc [Hcam _]]]]]]]].
  destruct (simulateProgress_frame google (seen m) newPos s1)
    as [_ [_ [Hloc2 Hcam2]]].
  pose proof (routeEffect_camera google parse (current m)
                (simulateProgress google (seen m) newPos s1)
                (log ++ calls)%list) as [Hcam3 Hloc3].
  destruct (routeEffect google parse (current m) _ _) as [s2 log2].
  simpl in *. rewrite Hloc3, Hloc2, Hloc, Hcam3, Hcam2, Hcam, Hauto.
  split; reflexivity.
Qed.

Lemma camera_follows_when_auto_centering_witness :
  mapRef (current mountedWithMap) = Some puneCamera
  /\ isAutoCentering (current mountedWithMap) = true
  /\ let m' := fst (step (Some sampleGoogle) noCoordinates mountedWithMap
                     (PositionUpdate samplePosition) []) in
     userLocation (current m') = Some samplePosition
     /\ mapRef (current m')
        = Some {| center := samplePosition; zoom := 12 |}.
Proof.
  split; [reflexivity |]. split; [reflexivity |].
  apply (camera_follows_when_auto_centering (Some sampleGoogle) noCoordinates
           mountedWithMap samplePosition []).
  exists sampleTripDetails, true, [MapLoaded puneCamera], []. exact eq_refl.
Defined.

(** X23. Whatever happened since the screen was mounted, callbacks that
    overlap included, a position update whose callback does not wait for
    an address either leaves the step pointer where it is or moves it by
    one to a step of the first leg of the route on screen: such a callback
    never moves the pointer past the leg, and without a route it does not
    move it. *)
Theorem pointer_stays_in_leg :
  forall (google : option GoogleMaps) (parse : string -> option LatLng)
         (r : Running) (newPos : LatLng) (log : list Call),
    inPlay google parse r ->
    waitsFor google (shown r) = None ->
    let i := currentStepIndex (current (shown r)) in
    let i' :=
      currentStepIndex
        (current (shown (fst (tick google parse r
                                (Happens (PositionUpdate newPos)) log)))) in
    i' = i
    \/ exists leg,
         firstLeg (directions (current (shown r))) = Some leg
         /\ i' = i + 1
         /\ i' < length (steps leg).
Proof.
  intros google parse r newPos log Hplay Hwait i i'.
  pose proof (inPlay_inSync google parse r Hplay) as Hsync.
  assert (Hi' : i' = if advances google (current (shown r)) newPos
                     then i + 1 else i).
  { unfold i'. rewrite tick_index. simpl. rewrite Hwait. simpl.
    now rewrite (advances_sync google (shown r) newPos Hsync). }
  destruct (advances google (current (shown r)) newPos) eqn:Hadv; [| now left].
  apply advances_spec in Hadv as [leg [stp [Hleg [_ [_ Hlen]]]]].
  right. exists leg. rewrite Hi'. repeat split; assumption.
Qed.

Lemma pointer_stays_in_leg_witness :
  let i := currentStepIndex (current sampleMounted) in
  let i' :=
    currentStepIndex
      (current (shown (fst (tick (Some sampleGoogle) noCoordinates
                              (quiet sampleMounted)
                              (Happens (PositionUpdate samplePosition)) [])))) in
  i' = i
  \/ exists leg,
       firstLeg (directions (current sampleMounted)) = Some leg
       /\ i' = i + 1
       /\ i' < length (steps leg).
Proof.
  apply (pointer_stays_in_leg (Some sampleGoogle) noCoordinates
           (quiet sampleMounted) samplePosition []).
  - exists sampleTripDetails, true, [], []. exact eq_refl.
  - reflexivity.
Defined.

(** X24. While the position watcher sees the origin 'Current Location', a
    position the geocoder cannot resolve makes 'Unknown Location' the
    origin of the trip. *)
Theorem unresolved_position_names_origin :
  forall (g : GoogleMaps) (parse : string -> option LatLng) (m : Mounted)
         (newPos : LatLng) (log : list Call),
    from (currentTrip (seen m)) = "Current Location" ->
    (fst (geocoder g newPos) = None
     \/ fst (geocoder g newPos) = Some []
     \/ snd (geocoder g newPos) = false) ->
    from (currentTrip
            (current (fst (step (Some g) parse m (PositionUpdate newPos) log))))
    = "Unknown Location".
Proof.
  intros g parse m newPos log Hseen Hgeo.
  unfold step, bind. simpl handle. unfold onPosition.
  rewrite Hseen, String.eqb_refl.
  set (s0 := if isAutoCentering (seen m) then _ else _). clearbody s0.
  assert (Haddr : forall log0,
             reverseGeocode (Some g) (lat newPos) (lng newPos) log0
             = ("Unknown Location",
                (log0 ++ [GeocodeRequest newPos])%list)).
  { intros log0. unfold reverseGeocode. io. destruct newPos as [la lo].
    simpl in *. destruct (geocoder g _) as [[[| r rs] |] ok]; simpl in *;
      try reflexivity.
    destruct Hgeo as [Hgeo | [Hgeo | Hgeo]]; try discriminate.
    subst ok. reflexivity. }
  unfold bind. rewrite Haddr. cbn beta iota.
  change (String.eqb "Unknown Location" "") with false. cbn iota.
  unfold ret at 1 2. cbn beta iota.
  set (s1 := setCurrentTrip _ s0).
  destruct (simulateProgress_frame (Some g) (seen m) newPos s1)
    as [_ [Htrip _]].
  pose proof (routeEffect_frame (Some g) parse (current m)
                (simulateProgress (Some g) (seen m) newPos s1)
                (log ++ [GeocodeRequest newPos])%list) as [_ [Htrip2 _]].
  destruct (routeEffect (Some g) parse (current m) _ _) as [s2 log2].
  simpl in *. rewrite Htrip2, Htrip. reflexivity.
Qed.

Lemma unresolved_position_names_origin_witness :
  from (currentTrip
          (current (fst (step (Some silentGeocoderGoogle) noCoordinates
                           mountedSilent (PositionUpdate samplePosition) []))))
  = "Unknown Location".
Proof.
  apply (unresolved_position_names_origin silentGeocoderGoogle noCoordinates
           mountedSilent samplePosition []).
  - reflexivity.
  - left. reflexivity.
Defined.

End NavigationTracking.

(** ** Without the provider, and with a provider that fails *)

Section NavigationFailures.

Import MapService NavigationScreen.

Local Open Scope nat_scope.

Ltac io := unfold bind, ret, emit in *; simpl in *.

Lemma fetchRoute_unloaded parse s log :
  snd (fetchRoute None parse s log) = log
  /\ directions (fst (fetchRoute None parse s log)) = directions s.
Proof.
  unfold fetchRoute.
  destruct (negb (isLoaded s) || _ || _); io; split; reflexivity.
Qed.

Lemma handle_unloaded seen e s log :
  snd (handle None seen e s log) = log
  /\ directions (fst (handle None seen e s log)) = directions s.
Proof.
  destruct e; simpl; try (split; reflexivity).
  - unfold onPosition.
    set (s0 := if isAutoCentering seen then _ else _).
    assert (H0 : directions s0 = directions s).
    { unfold s0. destruct (isAutoCentering seen); simpl;
        [destruct (mapRef s) |]; reflexivity. }
    clearbody s0.
    destruct (String.eqb (from (currentTrip seen)) "Current Location"); io;
      match goal with
      | |- _ /\ directions (simulateProgress None seen newPos ?x) = _ =>
          destruct (simulateProgress_frame None seen newPos x)
            as [(_ & _ & _ & -> & _) _]
      end; simpl; split; auto.
  - unfold onPositionError. destruct (Nat.eqb code 1); split; reflexivity.
  - unfold recenterMap. destruct (mapRef s), (userLocation s);
      split; reflexivity.
  - destruct (waypoints s); split; reflexivity.
Qed.

Lemma step_unloaded parse m e log :
  directions (seen m) = None ->
  directions (current m) = None ->
  let r := step None parse m e log in
  snd r = log
  /\ directions (seen (fst r)) = None
  /\ directions (current (fst r)) = None
  /\ currentStepIndex (current (fst r)) = currentStepIndex (current m).
Proof.
  intros Hseen Hcur r. subst r.
  pose proof (step_index None parse m e log) as Hidx.
  assert (Hadv : forall p, advances None (seen m) p = false)
    by (intros p; unfold advances; now rewrite Hseen).
  unfold step, bind in *.
  destruct (handle_unloaded (seen m) e (current m) log) as [Hlog Hdir].
  destruct (handle None (seen m) e (current m) log) as [s1 log1].
  simpl in Hlog, Hdir. subst log1.
  assert (Hroute : snd (routeEffect None parse (current m) s1 log) = log
                   /\ directions (fst (routeEffect None parse (current m) s1 log))
                      = directions s1).
  { unfold routeEffect. destruct (routeDepsChanged (current m) s1).
    - apply fetchRoute_unloaded.
    - split; reflexivity. }
  destruct Hroute as [Hlog2 Hdir2].
  destruct (routeEffect None parse (current m) s1 log) as [s2 log2].
  simpl in *. subst log2. rewrite Hdir2, Hdir, Hcur.
  split; [reflexivity |]. split.
  - unfold resubscribe.
    destruct (watchDepsChanged s1 s2); [congruence |].
    destruct (watchDepsChanged (current m) s1); congruence.
  - split; [reflexivity |]. rewrite Hidx.
    destruct e; try reflexivity. now rewrite Hadv.
Qed.

(** X25. When the provider never loads, navigation asks nothing of anyone:
    whatever the trip and the events, the call log is what it was, there is
    no route and the step pointer stays at 0. *)
Theorem no_provider_no_navigation :
  forall (parse : string -> option LatLng) (tripDetails : TripDetails)
         (loaded : bool) (es : list Event) (log0 : list Call),
    let r := (do m0 <- mount None parse tripDetails loaded;
              steps_from None parse m0 es)%io log0 in
    snd r = log0
    /\ directions (current (fst r)) = None
    /\ currentStepIndex (current (fst r)) = 0.
Proof.
  intros parse tripDetails loaded es log0 r. subst r. unfold bind.
  assert (Hmount : snd (mount None parse tripDetails loaded log0) = log0
                   /\ directions (seen (fst (mount None parse tripDetails
                                               loaded log0))) = None
                   /\ directions (current (fst (mount None parse tripDetails
                                                  loaded log0))) = None
                   /\ currentStepIndex
                        (current (fst (mount None parse tripDetails
                                         loaded log0))) = 0).
  { unfold mount, bind.
    set (s0 := setIsLoaded loaded (initial tripDetails)).
    destruct (fetchRoute_unloaded parse s0 log0) as [Hlog Hdir].
    destruct (fetchRoute_frame None parse s0 log0) as [Hidx _].
    destruct (fetchRoute None parse s0 log0) as [s1 log1].
    simpl in *. subst log1. rewrite Hdir, Hidx.
    repeat split; try reflexivity.
    unfold resubscribe. destruct (watchDepsChanged s0 s1);
      [rewrite Hdir |]; reflexivity. }
  destruct (mount None parse tripDetails loaded log0) as [m0 log1].
  simpl in Hmount. destruct Hmount as [-> [Hseen [Hcur Hidx]]].
  revert m0 Hseen Hcur Hidx.
  induction es as [| e es IH]; intros m0 Hseen Hcur Hidx; simpl.
  - repeat split; assumption.
  - unfold bind.
    destruct (step_unloaded parse m0 e log0 Hseen Hcur)
      as [Hlog [Hseen' [Hcur' Hidx']]].
    destruct (step None parse m0 e log0) as [m1 log1].
    simpl in *. subst log1. apply IH; congruence.
Qed.

(** X26. Choosing a place whose details the provider cannot give, or gives
    without a location, adds no waypoint: the details are requested once,
    the add-stop dialog closes, the map error says so and no route is
    requested. *)
Theorem place_without_details_adds_nothing :
  forall (g : GoogleMaps) (parse : string -> option LatLng) (m : Mounted)
         (placeId : string) (log : list Call),
    (fst (placesDetails g placeId) = None
     \/ isOK (snd (placesDetails g placeId)) = false
     \/ exists pl, fst (placesDetails g placeId) = Some pl
                   /\ details_location pl = None) ->
    let r := step (Some g) parse m (PlaceSelect placeId) log in
    waypoints (current (fst r)) = waypoints (current m)
    /\ showAddStopModal (current (fst r)) = false
    /\ mapError (current (fst r))
       = Some {| type := Generic;
                 message := "Could not get details for selected stop." |}
    /\ snd r = (log ++ [PlaceDetailsRequest placeId])%list.
Proof.
  intros g parse m placeId log Hfail r. subst r.
  unfold step, bind. simpl handle. unfold handlePlaceSelect, bind.
  assert (Hdetails :
            getPlaceDetails (Some g) placeId log
            = (None, (log ++ [PlaceDetailsRequest placeId])%list)
            \/ exists pl,
                 getPlaceDetails (Some g) placeId log
                 = (Some pl, (log ++ [PlaceDetailsRequest placeId])%list)
                 /\ details_location pl = None).
  { unfold getPlaceDetails. io.
    destruct (placesDetails g placeId) as [[pl |] status]; simpl in *.
    - destruct (isOK status) eqn:Hok.
      + right. exists pl. split; [reflexivity |].
        destruct Hfail as [Hf | [Hf | [pl' [Hf Hloc]]]]; try discriminate.
        now inversion Hf.
      + now left.
    - now left. }
  destruct Hdetails as [Hd | [[nm loc] [Hd Hloc]]]; rewrite Hd;
    [| simpl in Hloc; subst loc];
    unfold ret; cbn beta iota;
    unfold routeEffect; rewrite routeDeps_same by reflexivity;
    unfold ret; cbn; repeat split; reflexivity.
Qed.

Lemma place_without_details_adds_nothing_witness :
  let r := step (Some sampleGoogle) noCoordinates sampleMounted
             (PlaceSelect "place-9") [] in
  waypoints (current (fst r)) = waypoints (current sampleMounted)
  /\ showAddStopModal (current (fst r)) = false
  /\ mapError (current (fst r))
     = Some {| type := Generic;
               message := "Could not get details for selected stop." |}
  /\ snd r = ([] ++ [PlaceDetailsRequest "place-9"])%list.
Proof.
  apply (place_without_details_adds_nothing sampleGoogle noCoordinates
           sampleMounted "place-9" []).
  left. reflexivity.
Defined.

End NavigationFailures.

(** ** The trip history *)

Section TripHistoryProperties.

Import TripHistory.

Local Open Scope nat_scope.

(** X27. What ending a navigation adds to the history depends on the
    origin, the destination and the vehicle of the trip only: the traveler
    count, the mode and the two random numbers never reach it, and every
    entry it adds has 1 traveler, mode '4W' and distance 0. *)
Theorem history_ignores_travelers_and_mode :
  forall (postTrip : TripController.TripBody -> AppContext.ApiResult Created)
         (now timeNow : string) (formatDate : string -> string)
         (distance1 stops1 distance2 stops2 : nat) (s1 s2 : Session)
         (d1 d2 : NavigationScreen.TripDetails),
    currentTripDetails s1 = Some d1 ->
    currentTripDetails s2 = Some d2 ->
    trips s1 = trips s2 ->
    NavigationScreen.from d1 = NavigationScreen.from d2 ->
    NavigationScreen.to d1 = NavigationScreen.to d2 ->
    NavigationScreen.vehicleNumber d1 = NavigationScreen.vehicleNumber d2 ->
    let after1 :=
      trips (endNavigation postTrip now timeNow formatDate distance1 stops1 s1) in
    let after2 :=
      trips (endNavigation postTrip now timeNow formatDate distance2 stops2 s2) in
    after1 = after2
    /\ forall t, In t after1 ->
                 In t (trips s1)
                 \/ (travelers t = 1 /\ mode t = "4W" /\ distance t = 0).
Proof.
  intros postTrip now timeNow formatDate distance1 stops1 distance2 stops2
    s1 s2 d1 d2 H1 H2 Htrips Hfrom Hto Hveh after1 after2.
  subst after1 after2. unfold endNavigation. rewrite H1, H2. simpl.
  unfold addTrip, payload. simpl. rewrite Hfrom, Hto, Hveh, Htrips.
  split; [reflexivity |].
  intros t Hin. destruct (postTrip _) as [data |]; [| now left].
  destruct Hin as [<- | Hin]; [right | left; assumption].
  repeat split; reflexivity.
Qed.

Lemma history_ignores_travelers_and_mode_witness :
  let after1 :=
    trips (endNavigation echoBackend "2024-01-05T04:00:00.000Z" "09:30 AM"
             (fun d => d) 64 2 sessionOfTwo) in
  let after2 :=
    trips (endNavigation echoBackend "2024-01-05T04:00:00.000Z" "09:30 AM"
             (fun d => d) 120 0 sessionOfFive) in
  after1 = after2
  /\ forall t, In t after1 ->
               In t (trips sessionOfTwo)
               \/ (travelers t = 1 /\ mode t = "4W" /\ distance t = 0).
Proof.
  apply (history_ignores_travelers_and_mode echoBackend
           "2024-01-05T04:00:00.000Z" "09:30 AM" (fun d => d) 64 2 120 0
           sessionOfTwo sessionOfFive sampleTripDetails
           {| NavigationScreen.from := "Pune";
              NavigationScreen.to := "Lonavala";
              NavigationScreen.vehicleNumber := "MH12AB1234";
              NavigationScreen.travelers := 5;
              NavigationScreen.mode := "2W" |});
    reflexivity.
Defined.

(** X28. Sent as the body of a POST request of a known caller while the
    store works, the payload [addTrip] builds at a known time is turned by
    [createTrip] into a 'planned' one-way trip of the caller with 1 traveler
    and no stop, answered with 201, when both ends of the trip are given;
    when one of them is empty the answer is 500 and nothing is stored. *)
Theorem addTrip_payload_through_createTrip :
  forall (now timeNow newId : string) (caller : TripController.User)
         (tripData : TripData) (db : gmap string TripController.Trip),
    now <> "" -> timeNow <> "" -> TripController._id caller <> "" ->
    let req := {| TripController.params_id := "";
                  TripController.user := caller;
                  TripController.body := payload now timeNow tripData |} in
    let r := TripController.createTrip false newId req db in
    if String.eqb (data_from tripData) "" || String.eqb (data_to tripData) ""
    then TripController.code (fst r) = 500 /\ snd r = db
    else
      let trip :=
        {| TripController.userId := TripController._id caller;
           TripController.origin := data_from tripData;
           TripController.destination := data_to tripData;
           TripController.startDate := now;
           TripController.startTime := timeNow;
           TripController.vehicle := Some (data_vehicleNumber tripData);
           TripController.travelers := 1;
           TripController.tripType := TripController.OneWay;
           TripController.status := TripController.Planned;
           TripController.stops := [] |} in
      r = ({| TripController.code := 201;
              TripController.payload := TripController.TripJson (Some trip) |},
           <[newId := trip]> db).
Proof.
  intros now timeNow newId caller tripData db Hnow Htime Hcaller req r.
  subst r req.
  apply String.eqb_neq in Hnow, Htime, Hcaller.
  unfold TripController.createTrip, TripController.create,
    TripController.newDocument, TripController.createFields, payload,
    TripController.required.
  simpl. rewrite Hnow, Htime, Hcaller.
  destruct (String.eqb (data_from tripData) "");
    [split; reflexivity |].
  destruct (String.eqb (data_to tripData) "");
    [split; reflexivity |].
  reflexivity.
Qed.

Lemma addTrip_payload_through_createTrip_witness :
  let req := {| TripController.params_id := "";
                TripController.user := {| TripController._id := "user-1" |};
                TripController.body :=
                  payload "2024-01-05T04:00:00.000Z" "09:30 AM" sampleTripData |} in
  let r := TripController.createTrip false "trip-9" req sampleCollection in
  if String.eqb (data_from sampleTripData) ""
     || String.eqb (data_to sampleTripData) ""
  then TripController.code (fst r) = 500 /\ snd r = sampleCollection
  else
    let trip :=
      {| TripController.userId := "user-1";
         TripController.origin := data_from sampleTripData;
         TripController.destination := data_to sampleTripData;
         TripController.startDate := "2024-01-05T04:00:00.000Z";
         TripController.startTime := "09:30 AM";
         TripController.vehicle := Some (data_vehicleNumber sampleTripData);
         TripController.travelers := 1;
         TripController.tripType := TripController.OneWay;
         TripController.status := TripController.Planned;
         TripController.stops := [] |} in
    r = ({| TripController.code := 201;
            TripController.payload := TripController.TripJson (Some trip) |},
         <["trip-9" := trip]> sampleCollection).
Proof.
  apply (addTrip_payload_through_createTrip "2024-01-05T04:00:00.000Z"
           "09:30 AM" "trip-9" {| TripController._id := "user-1" |}
           sampleTripData sampleCollection);
    simpl; discriminate.
Defined.

End TripHistoryProperties.

(** ** Place predictions of the Ola Maps service *)

Section OlaPredictions.

Import OlaMapService.

Local Open Scope nat_scope.

Lemma mapThrow_all {A B : Type} (f : A -> option B) (xs : list A) (ys : list B) :
  mapThrow f xs = Some ys ->
  length ys = length xs /\ Forall (fun x => f x <> None) xs.
Proof.
  revert ys. induction xs as [| x xs IH]; intros ys H; simpl in H.
  - inversion H. split; [reflexivity | constructor].
  - destruct (f x) as [y |] eqn:Hx; [| discriminate].
    destruct (mapThrow f xs) as [ys' |]; [| discriminate].
    inversion H; subst. destruct (IH ys' eq_refl) as [Hlen Hall].
    split; [simpl; now rewrite Hlen |].
    constructor; [congruence | assumption].
Qed.

Lemma toPrediction_null (p : json) : toPrediction p <> None -> p <> JNull.
Proof. intros H ->. now apply H. Qed.

(** X29. The Ola predictions are all or nothing: the call issues at most
    one request, to the autocomplete address of the input, and it returns
    either no prediction or one for each element of the [predictions] array
    of the answer, none of which is [null]. *)
Theorem ola_predictions_all_or_nothing :
  forall (API_KEY : string) (encodeURIComponent : string -> string)
         (network : string -> FetchOutcome) (input : string) (log : list Call),
    let url := autocompleteUrl API_KEY encodeURIComponent input in
    let r := getPlacePredictions API_KEY encodeURIComponent network input log in
    (snd r = log \/ snd r = (log ++ [Fetch url])%list)
    /\ (fst r = []
        \/ exists data ps,
             network url = Json data
             /\ get "predictions" data = Some (JArr ps)
             /\ length (fst r) = length ps
             /\ Forall (fun p => p <> JNull) ps).
Proof.
  intros API_KEY encodeURIComponent network input log url r. subst r.
  unfold getPlacePredictions.
  destruct (String.eqb input "" || (jsLength input <? 3));
    [split; left; reflexivity |].
  unfold fetch, bind, emit, ret. cbn beta iota. fold url.
  destruct (network url) as [data | |] eqn:Hnet;
    [| split; [right | left]; reflexivity ..].
  destruct (truthy (get "predictions" data));
    [| split; [right | left]; reflexivity].
  destruct (get "predictions" data) as [[| | | | ps |] |] eqn:Hget;
    try (split; [right | left]; reflexivity).
  destruct (mapThrow toPrediction ps) as [out |] eqn:Hmap;
    [| split; [right | left]; reflexivity].
  split; [right; reflexivity |]. right. exists data, ps.
  destruct (mapThrow_all _ _ _ Hmap) as [Hlen Hall].
  repeat split; try assumption.
  eapply Forall_impl; [exact Hall |]. intros p. apply toPrediction_null.
Qed.

End OlaPredictions.
